(** * Tickisinator: identifier math, the SQLite store and the FMP client

    A shallow embedding of [src/isin.ts], [src/db.ts] and [src/apis/fmp.ts].

    - JavaScript strings are sequences of UTF-16 code units: [jsstring] is
      [list Z], one [Z] per code unit.  String literals of the source are
      written [js "..."].
    - A [throw new Error(msg)] is the left injection of a sum, carrying the
      message; [try]/[catch] is a [match] on that sum.
    - The SQLite tables are lists of rows in insertion order; each SQL
      statement of [db.ts] is a function on those lists.
    - [fetch] and [response.json()] are answers of the environment, passed
      to [fetchTickerProfile] as an argument. *)

From Stdlib Require Import ZArith List Bool Lia String Ascii DecimalString.
Import ListNotations.

Set Warnings "-register-all".
Open Scope Z_scope.

(** ** JavaScript strings *)

Module JsString.

Definition jsstring := list Z.

(** The code units of an ASCII literal. *)
Definition js (s : string) : jsstring :=
  map (fun a => Z.of_N (N_of_ascii a)) (list_ascii_of_string s).

Fixpoint eqb (a b : jsstring) : bool :=
  match a, b with
  | [], [] => true
  | x :: a', y :: b' => (x =? y) && eqb a' b'
  | _, _ => false
  end.

(** [s.length] *)
Definition length (s : jsstring) : Z := Z.of_nat (List.length s).

(** [s.substring(0, n)] for [0 <= n] *)
Definition substring0 (n : nat) (s : jsstring) : jsstring := firstn n s.

(** A string is truthy unless it is empty. *)
Definition truthy (s : jsstring) : bool :=
  match s with [] => false | _ => true end.

Definition is_upper (c : Z) : bool := (65 <=? c) && (c <=? 90).
Definition is_lower (c : Z) : bool := (97 <=? c) && (c <=? 122).
Definition is_digit (c : Z) : bool := (48 <=? c) && (c <=? 57).

(** [Number.prototype.toString] on an integer: its decimal numeral. *)
Definition toString (n : Z) : jsstring :=
  js (NilZero.string_of_int (Z.to_int n)).

(** [s.toUpperCase()] on the code units it is applied to in this program:
    [cusipToIsin] calls it only after the test [/^[A-Z0-9]+$/i] passed, so
    every unit is an ASCII letter or digit; other units are left alone. *)
Definition toUpperCase (s : jsstring) : jsstring :=
  map (fun c => if is_lower c then c - 32 else c) s.

Fixpoint starts_with (p s : jsstring) : bool :=
  match p, s with
  | [], _ => true
  | x :: p', y :: s' => (x =? y) && starts_with p' s'
  | _ :: _, [] => false
  end.

(** [s.includes(p)] *)
Fixpoint includes (p s : jsstring) : bool :=
  starts_with p s ||
  match s with
  | [] => false
  | _ :: s' => includes p s'
  end.

(** WhiteSpace and LineTerminator code units, the ones [trim] strips. *)
Definition is_space (c : Z) : bool :=
  ((9 <=? c) && (c <=? 13)) || (c =? 32) || (c =? 160) || (c =? 5760) ||
  ((8192 <=? c) && (c <=? 8202)) || (c =? 8232) || (c =? 8233) ||
  (c =? 8239) || (c =? 8287) || (c =? 12288) || (c =? 65279).

(** [s.trim() === ""] *)
Definition trim_is_empty (s : jsstring) : bool := forallb is_space s.

End JsString.

Import JsString.

(** ** [src/isin.ts] *)

Module Isin.

(** [new Error(message)] *)
Record Error := mkError { message : jsstring }.

Definition throws {A} (msg : jsstring) : Error + A := inl (mkError msg).

Record IsinValidationResult := mkResult {
  valid : bool;
  error : option jsstring
}.

(** The callback of [base.split("").map(...)]: one character to its numeral. *)
Definition charToNumeral (char : Z) : Error + jsstring :=
  if is_upper char then inr (toString (char - 65 + 10))
  else if is_digit char then inr [char]
  else throws (js "Invalid character in ISIN: " ++ [char]).

(** [.map(...).join("")]: the callback runs left to right and the first
    [throw] leaves the whole expression. *)
Fixpoint numericStringOf (chars : jsstring) : Error + jsstring :=
  match chars with
  | [] => inr []
  | char :: rest =>
      match charToNumeral char with
      | inl e => inl e
      | inr numeral =>
          match numericStringOf rest with
          | inl e => inl e
          | inr s => inr (numeral ++ s)
          end
      end
  end.

(** [Number(ch)] on a one-character string holding a decimal digit, which is
    all [numericString] contains. *)
Definition NumberOfDigit (ch : Z) : Z := ch - 48.

(** The body of the [for] loop, for a digit and its position from the right. *)
Definition luhnStep (positionFromRight digit : Z) : Z :=
  if Z.rem positionFromRight 2 =? 1 then
    let digit := digit * 2 in
    if digit >? 9 then digit / 10 + Z.rem digit 10 else digit
  else digit.

(** [for (let i = digits.length - 1; i >= 0; i--)]: [n] is [i + 1], the
    number of iterations still to run. *)
Fixpoint luhnLoop (digits : list Z) (n : nat) (sum : Z) : Z :=
  match n with
  | O => sum
  | S i =>
      let positionFromRight := Z.of_nat (List.length digits) - Z.of_nat i in
      let digit := nth i digits 0 in
      luhnLoop digits i (sum + luhnStep positionFromRight digit)
  end.

Definition computeIsinCheckDigit (base : jsstring) : Error + Z :=
  if negb (length base =? 11) then
    throws (js "Base must be exactly 11 characters (country code + NSIN)")
  else
    match numericStringOf base with
    | inl e => inl e
    | inr numericString =>
        let digits := map NumberOfDigit numericString in
        let sum := luhnLoop digits (List.length digits) 0 in
        let checkDigit := Z.rem (10 - Z.rem sum 10) 10 in
        inr checkDigit
    end.

(** [/^[A-Z]{2}$/.test(s)] *)
Definition twoUpperLetters (s : jsstring) : bool :=
  match s with
  | [a; b] => is_upper a && is_upper b
  | _ => false
  end.

(** [parseInt(ch, 10)] on a one-character string: the digit's value, or
    [None] for [NaN] (white space, a sign or any other character alone
    holds no digits). *)
Definition parseIntChar (ch : Z) : option Z :=
  if is_digit ch then Some (ch - 48) else None.

Definition validateIsin (isin : jsstring) : IsinValidationResult :=
  if negb (length isin =? 12) then
    mkResult false (Some (js "ISIN must be exactly 12 characters"))
  else
    let countryCode := substring0 2 isin in
    if negb (twoUpperLetters countryCode) then
      mkResult false
        (Some (js "ISIN must start with 2 uppercase letters (country code)"))
    else
      let base := substring0 11 isin in
      match parseIntChar (nth 11 isin 0) with
      | None => mkResult false (Some (js "Check digit must be a number"))
      | Some providedCheckDigit =>
          match computeIsinCheckDigit base with
          | inr computedCheckDigit =>
              if negb (computedCheckDigit =? providedCheckDigit) then
                mkResult false (Some (js "Invalid check digit"))
              else mkResult true None
          | inl e => mkResult false (Some (message e))
          end
      end.

(** [/^[A-Z0-9]+$/i.test(s)]: without the [u] flag, case folding never maps a
    unit outside ASCII onto an ASCII letter, so the class is [A-Za-z0-9]. *)
Definition alphanumeric (s : jsstring) : bool :=
  truthy s && forallb (fun c => is_upper c || is_lower c || is_digit c) s.


Definition cusipToIsin (cusip : jsstring) : Error + jsstring :=
  if negb (length cusip =? 9) then
    throws (js "CUSIP must be exactly 9 characters")
  else if negb (alphanumeric cusip) then
    throws (js "CUSIP contains invalid characters")
  else
    let normalizedCusip := toUpperCase cusip in
    let base := js "US" ++ normalizedCusip in
    match computeIsinCheckDigit base with
    | inl e => inl e
    | inr checkDigit => inr (base ++ toString checkDigit)
    end.

(** *** The check-digit algorithm as the specification words it *)

(** Step 1: a digit maps to itself, a letter to the two digits of 10..35. *)
Definition spec_numeral (c : Z) : list Z :=
  if is_digit c then [c - 48]
  else let v := c - 65 + 10 in [v / 10; v mod 10].

Definition spec_digits (s : jsstring) : list Z := flat_map spec_numeral s.

(** Step 3: doubling, and the sum of the two digits of a value above 9. *)
Definition spec_double (d : Z) : Z :=
  if 9 <? 2 * d then (2 * d) / 10 + (2 * d) mod 10 else 2 * d.

(** Steps 2 to 4 over the digits listed from the right-hand end, the first of
    them at position [pos]. *)
Fixpoint spec_sum_from (pos : Z) (fromRight : list Z) : Z :=
  match fromRight with
  | [] => 0
  | d :: rest =>
      (if Z.odd pos then spec_double d else d) + spec_sum_from (pos + 1) rest
  end.

Definition spec_checkDigit (s : jsstring) : Z :=
  let sum := spec_sum_from 1 (rev (spec_digits s)) in
  (10 - sum mod 10) mod 10.

Definition validChar (c : Z) : bool := is_digit c || is_upper c.

Definition digitList (l : list Z) : Prop := Forall (fun d => 0 <= d <= 9) l.

(** The inputs outside the precondition of [computeIsinCheckDigit]. *)
Definition violatesPrecondition (base : jsstring) : Prop :=
  List.length base <> 11%nat \/ forallb validChar base = false.

(** The error of the [throw] in the character callback. *)
Definition invalidCharacterError (e : Error) : Prop :=
  exists char, message e = js "Invalid character in ISIN: " ++ [char].

(** The error of the length guard. *)
Definition baseLengthError (e : Error) : Prop :=
  message e = js "Base must be exactly 11 characters (country code + NSIN)".

Definition alnumChar (c : Z) : bool := is_upper c || is_lower c || is_digit c.

End Isin.

(** ** [src/db.ts] *)

Module Db.

Record SecurityData := mkSecurityData {
  name : jsstring;
  ticker : jsstring;
  exchange : jsstring;
  isin : option jsstring;
  cusip : option jsstring;
  cik : option jsstring;
  figi : option jsstring;
  source : jsstring;
  security_type : option jsstring;
  market_sector : option jsstring
}.

(** [SecurityResult]: the lookups fill every optional field with a string or
    [null]; the [r_] prefix keeps its fields apart from [SecurityData]'s. *)
Record SecurityResult := mkSecurityResult {
  r_id : Z;
  r_name : jsstring;
  r_ticker : option jsstring;
  r_exchange : option jsstring;
  r_isin : option jsstring;
  r_cusip : option jsstring;
  r_cik : option jsstring;
  r_security_type : option jsstring;
  r_market_sector : option jsstring;
  r_source : jsstring;
  r_fetched_at : Z
}.

(** A row of table [securities]. *)
Record security_row := mkSecurityRow {
  id : Z;
  s_name : jsstring;
  s_security_type : option jsstring;
  s_market_sector : option jsstring;
  created_at : Z;
  updated_at : Z
}.

(** A row of an identifier table.  [key] is the primary key: the pair
    [(ticker, exchange)] in [identifiers_ticker], the identifier itself in
    [identifiers_isin], [identifiers_cusip] and [identifiers_cik]. *)
Record ident_row (K : Type) := mkIdentRow {
  security_id : Z;
  key : K;
  i_source : jsstring;
  fetched_at : Z
}.
Arguments mkIdentRow {K}.
Arguments security_id {K}.
Arguments key {K}.
Arguments i_source {K}.
Arguments fetched_at {K}.

Definition ticker_key : Type := jsstring * jsstring.

Definition ticker_key_eqb (a b : ticker_key) : bool :=
  JsString.eqb (fst a) (fst b) && JsString.eqb (snd a) (snd b).

Record Database := mkDatabase {
  securities : list security_row;
  identifiers_ticker : list (ident_row ticker_key);
  identifiers_isin : list (ident_row jsstring);
  identifiers_cusip : list (ident_row jsstring);
  identifiers_cik : list (ident_row jsstring)
}.

(** [initDatabase(":memory:")]: the five tables, empty. *)
Definition initDatabase : Database := mkDatabase [] [] [] [] [].

(** [x || null] on an optional string, and the test [if (x)]: [undefined]
    and the empty string are falsy. *)
Definition orNull (x : option jsstring) : option jsstring :=
  match x with
  | Some s => if truthy s then Some s else None
  | None => None
  end.

(** [!securityId]: [undefined] and [0] are falsy. *)
Definition notId (securityId : option Z) : bool :=
  match securityId with
  | None => true
  | Some n => n =? 0
  end.

Section Tables.
Context {K : Type} (eqb : K -> K -> bool).

(** [SELECT security_id FROM tbl WHERE key = ?], [.get()]: the first row. *)
Definition selectSecurityId (k : K) (tbl : list (ident_row K)) : option Z :=
  option_map security_id (find (fun r => eqb (key r) k) tbl).

(** [INSERT INTO tbl ... ON CONFLICT(key) DO UPDATE SET security_id,
    source, fetched_at = excluded....] *)
Definition upsert (securityId : Z) (k : K) (src : jsstring) (timestamp : Z)
    (tbl : list (ident_row K)) : list (ident_row K) :=
  if existsb (fun r => eqb (key r) k) tbl then
    map (fun r =>
           if eqb (key r) k
           then mkIdentRow securityId (key r) src timestamp
           else r) tbl
  else tbl ++ [mkIdentRow securityId k src timestamp].

(** [if (x) { upsert }] for an optional identifier. *)
Definition upsertIf (x : option K) (securityId : Z) (src : jsstring)
    (timestamp : Z) (tbl : list (ident_row K)) : list (ident_row K) :=
  match x with
  | Some k => upsert securityId k src timestamp tbl
  | None => tbl
  end.
End Tables.

(** The rowid [AUTOINCREMENT] gives the next row of [securities]: one more
    than the largest so far, 1 in an empty table (rows are never deleted). *)
Definition nextRowId (rows : list security_row) : Z :=
  1 + fold_right Z.max 0 (map id rows).

(** [UPDATE securities SET name, security_type, market_sector, updated_at
    WHERE id = ?] *)
Definition updateSecurity (security : SecurityData) (timestamp securityId : Z)
    (rows : list security_row) : list security_row :=
  map (fun s =>
         if id s =? securityId
         then mkSecurityRow (id s) (name security)
                (orNull (security_type security))
                (orNull (market_sector security))
                (created_at s) timestamp
         else s) rows.

(** The three probes of [insertSecurity], in the order the code runs them. *)
Definition findExisting (db : Database) (security : SecurityData) : option Z :=
  let securityId : option Z := None in
  let securityId :=
    match selectSecurityId ticker_key_eqb (ticker security, exchange security)
            (identifiers_ticker db) with
    | Some existingByTicker => Some existingByTicker
    | None => securityId
    end in
  let securityId :=
    match orNull (isin security) with
    | Some i =>
        if notId securityId then
          match selectSecurityId JsString.eqb i (identifiers_isin db) with
          | Some existingByIsin => Some existingByIsin
          | None => securityId
          end
        else securityId
    | None => securityId
    end in
  let securityId :=
    match orNull (cusip security) with
    | Some c =>
        if notId securityId then
          match selectSecurityId JsString.eqb c (identifiers_cusip db) with
          | Some existingByCusip => Some existingByCusip
          | None => securityId
          end
        else securityId
    | None => securityId
    end in
  securityId.

(** [insertSecurity(db, security)], with [timestamp] the value of
    [Math.floor(Date.now() / 1000)]: the new database and the returned id. *)
Definition insertSecurity (db : Database) (security : SecurityData)
    (timestamp : Z) : Database * Z :=
  let found := findExisting db security in
  let '(securities', securityId) :=
    if notId found then
      let newId := nextRowId (securities db) in
      (securities db ++
         [mkSecurityRow newId (name security)
            (orNull (security_type security))
            (orNull (market_sector security)) timestamp timestamp],
       newId)
    else
      let securityId := match found with Some n => n | None => 0 end in
      (updateSecurity security timestamp securityId (securities db),
       securityId) in
  let src := source security in
  (mkDatabase securities'
     (upsert ticker_key_eqb securityId (ticker security, exchange security)
        src timestamp (identifiers_ticker db))
     (upsertIf JsString.eqb (orNull (isin security)) securityId src timestamp
        (identifiers_isin db))
     (upsertIf JsString.eqb (orNull (cusip security)) securityId src timestamp
        (identifiers_cusip db))
     (upsertIf JsString.eqb (orNull (cik security)) securityId src timestamp
        (identifiers_cik db)),
   securityId).

(** [LEFT JOIN tbl ON s.id = tbl.security_id]: the matching rows, or one
    all-[NULL] row when there is none. *)
Definition leftJoin {K} (sid : Z) (tbl : list (ident_row K))
    : list (option (ident_row K)) :=
  match filter (fun r => sid =? security_id r) tbl with
  | [] => [None]
  | rows => map Some rows
  end.

(** [JOIN securities AS s ON x.security_id = s.id] *)
Definition joinSecurity (sid : Z) (rows : list security_row)
    : list security_row :=
  filter (fun s => sid =? id s) rows.

(** A column of a possibly all-[NULL] joined row, through [|| null]. *)
Definition column {K} (f : K -> jsstring) (r : option (ident_row K))
    : option jsstring :=
  orNull (option_map (fun r => f (key r)) r).

Definition self (s : jsstring) : jsstring := s.

(** [.get()]: the first row of the result, [undefined] if there is none.
    SQL leaves the order of a result set to the engine; the lookups below
    list it in table order, outer table first. *)
Definition get {A} (rows : list A) : option A := hd_error rows.

Definition lookupByTicker (db : Database) (ticker : jsstring)
    (exchange : option jsstring) : option SecurityResult :=
  let where_ (t : ident_row ticker_key) :=
    match orNull exchange with
    | Some e => JsString.eqb (fst (key t)) ticker && JsString.eqb (snd (key t)) e
    | None => JsString.eqb (fst (key t)) ticker
    end in
  let result :=
    get
      (flat_map (fun t =>
       flat_map (fun s =>
       flat_map (fun i =>
       flat_map (fun c =>
       map (fun k => (t, s, i, c, k))
         (leftJoin (id s) (identifiers_cik db)))
         (leftJoin (id s) (identifiers_cusip db)))
         (leftJoin (id s) (identifiers_isin db)))
         (joinSecurity (security_id t) (securities db)))
         (filter where_ (identifiers_ticker db))) in
  match result with
  | None => None
  | Some (t, s, i, c, k) =>
      Some (mkSecurityResult (id s) (s_name s)
              (Some (fst (key t))) (Some (snd (key t)))
              (column self i) (column self c) (column self k)
              (orNull (s_security_type s)) (orNull (s_market_sector s))
              (js "db") (fetched_at t))
  end.

Definition lookupByIsin (db : Database) (isin : jsstring)
    : option SecurityResult :=
  let result :=
    get
      (flat_map (fun i =>
       flat_map (fun s =>
       flat_map (fun t =>
       flat_map (fun c =>
       map (fun k => (i, s, t, c, k))
         (leftJoin (id s) (identifiers_cik db)))
         (leftJoin (id s) (identifiers_cusip db)))
         (leftJoin (id s) (identifiers_ticker db)))
         (joinSecurity (security_id i) (securities db)))
         (filter (fun i => JsString.eqb (key i) isin) (identifiers_isin db))) in
  match result with
  | None => None
  | Some (i, s, t, c, k) =>
      Some (mkSecurityResult (id s) (s_name s)
              (column fst t) (column snd t)
              (Some (key i)) (column self c) (column self k)
              (orNull (s_security_type s)) (orNull (s_market_sector s))
              (js "db") (fetched_at i))
  end.

Definition lookupByCusip (db : Database) (cusip : jsstring)
    : option SecurityResult :=
  let result :=
    get
      (flat_map (fun c =>
       flat_map (fun s =>
       flat_map (fun t =>
       flat_map (fun i =>
       map (fun k => (c, s, t, i, k))
         (leftJoin (id s) (identifiers_cik db)))
         (leftJoin (id s) (identifiers_isin db)))
         (leftJoin (id s) (identifiers_ticker db)))
         (joinSecurity (security_id c) (securities db)))
         (filter (fun c => JsString.eqb (key c) cusip) (identifiers_cusip db))) in
  match result with
  | None => None
  | Some (c, s, t, i, k) =>
      Some (mkSecurityResult (id s) (s_name s)
              (column fst t) (column snd t)
              (column self i) (Some (key c)) (column self k)
              (orNull (s_security_type s)) (orNull (s_market_sector s))
              (js "db") (fetched_at c))
  end.

(** *** What the schema keeps true of every database *)

Section Schema.
Context {K : Type} (eqb : K -> K -> bool).

(** [PRIMARY KEY]: no two rows with one key. *)
Fixpoint uniqueKeys (tbl : list (ident_row K)) : bool :=
  match tbl with
  | [] => true
  | r :: rest =>
      negb (existsb (fun r' => eqb (key r') (key r)) rest) && uniqueKeys rest
  end.
End Schema.

(** [FOREIGN KEY (security_id) REFERENCES securities(id)] *)
Definition references {K} (rows : list security_row)
    (tbl : list (ident_row K)) : bool :=
  forallb (fun r => existsb (fun s => id s =? security_id r) rows) tbl.

Fixpoint uniqueIds (rows : list security_row) : bool :=
  match rows with
  | [] => true
  | s :: rest => negb (existsb (fun s' => id s' =? id s) rest) && uniqueIds rest
  end.

(** Primary keys are unique, every [security_id] names a row of
    [securities], and rowids start at 1. *)
Definition db_ok (db : Database) : bool :=
  forallb (fun s => 1 <=? id s) (securities db) &&
  uniqueIds (securities db) &&
  references (securities db) (identifiers_ticker db) &&
  references (securities db) (identifiers_isin db) &&
  references (securities db) (identifiers_cusip db) &&
  references (securities db) (identifiers_cik db) &&
  uniqueKeys ticker_key_eqb (identifiers_ticker db) &&
  uniqueKeys JsString.eqb (identifiers_isin db) &&
  uniqueKeys JsString.eqb (identifiers_cusip db) &&
  uniqueKeys JsString.eqb (identifiers_cik db).

(** [db_ok] as a proposition. *)
Definition refersTo {K} (ids : list Z) (tbl : list (ident_row K)) : Prop :=
  forall r, In r tbl -> In (security_id r) ids.

Definition schema (db : Database) : Prop :=
  let ids := map id (securities db) in
  (forall i, In i ids -> 1 <= i) /\
  NoDup ids /\
  refersTo ids (identifiers_ticker db) /\
  refersTo ids (identifiers_isin db) /\
  refersTo ids (identifiers_cusip db) /\
  refersTo ids (identifiers_cik db) /\
  NoDup (map key (identifiers_ticker db)) /\
  NoDup (map key (identifiers_isin db)) /\
  NoDup (map key (identifiers_cusip db)) /\
  NoDup (map key (identifiers_cik db)).

(** The databases the program can build: [initDatabase], then calls of
    [insertSecurity]. *)
Inductive reachable : Database -> Prop :=
| reachable_init : reachable initDatabase
| reachable_insert db security timestamp :
    reachable db -> reachable (fst (insertSecurity db security timestamp)).

(** The identifier tables after [insertSecurity], for the id it returns. *)
Definition upsertAll (db : Database) (security : SecurityData)
    (securities' : list security_row) (securityId timestamp : Z) : Database :=
  mkDatabase securities'
    (upsert ticker_key_eqb securityId (ticker security, exchange security)
       (source security) timestamp (identifiers_ticker db))
    (upsertIf JsString.eqb (orNull (isin security)) securityId
       (source security) timestamp (identifiers_isin db))
    (upsertIf JsString.eqb (orNull (cusip security)) securityId
       (source security) timestamp (identifiers_cusip db))
    (upsertIf JsString.eqb (orNull (cik security)) securityId
       (source security) timestamp (identifiers_cik db)).

(** The three probes, each on its own: what [insertSecurity] would find by
    (ticker, exchange), by ISIN if one is supplied, by CUSIP if one is
    supplied. *)
Definition probeTicker (db : Database) (security : SecurityData) : option Z :=
  selectSecurityId ticker_key_eqb (ticker security, exchange security)
    (identifiers_ticker db).

Definition probeIsin (db : Database) (security : SecurityData) : option Z :=
  match orNull (isin security) with
  | Some i => selectSecurityId JsString.eqb i (identifiers_isin db)
  | None => None
  end.

Definition probeCusip (db : Database) (security : SecurityData) : option Z :=
  match orNull (cusip security) with
  | Some c => selectSecurityId JsString.eqb c (identifiers_cusip db)
  | None => None
  end.

(** The row [insertSecurity] creates when no probe matches. *)
Definition newSecurityRow (security : SecurityData) (newId timestamp : Z)
    : security_row :=
  mkSecurityRow newId (name security) (orNull (security_type security))
    (orNull (market_sector security)) timestamp timestamp.

(** An identifier table after the row of key [k] was updated in place: the
    same number of rows, the same keys at the same positions, every other
    row untouched, and the row of [k] now referring to [securityId] with the
    given provenance and time. *)
Definition updatedInPlace {K} (k : K) (securityId : Z) (src : jsstring)
    (timestamp : Z) (before after : list (ident_row K)) : Prop :=
  List.length after = List.length before /\
  map key after = map key before /\
  (forall n r, nth_error before n = Some r -> key r <> k ->
               nth_error after n = Some r) /\
  (forall n r, nth_error before n = Some r -> key r = k ->
               nth_error after n = Some (mkIdentRow securityId k src timestamp)).

(** A row observed again with nothing but its provenance and time changed:
    the reading of "updated in place" that leaves the Security reference
    alone. *)
Definition onlyProvenanceAndTime {K} (before after : ident_row K) : Prop :=
  security_id after = security_id before /\ key after = key before.

(** A database with its update and fetch times blanked. *)
Definition forgetRowTime {K} (r : ident_row K) : ident_row K :=
  mkIdentRow (security_id r) (key r) (i_source r) 0.

Definition forgetSecurityTime (s : security_row) : security_row :=
  mkSecurityRow (id s) (s_name s) (s_security_type s) (s_market_sector s)
    (created_at s) 0.

Definition forgetTimestamps (db : Database) : Database :=
  mkDatabase (map forgetSecurityTime (securities db))
    (map forgetRowTime (identifiers_ticker db))
    (map forgetRowTime (identifiers_isin db))
    (map forgetRowTime (identifiers_cusip db))
    (map forgetRowTime (identifiers_cik db)).

(** The record of the end-to-end scenario; the provenance tag is the
    caller's. *)
Definition apple (src : jsstring) : SecurityData :=
  mkSecurityData (js "Apple Inc.") (js "AAPL") (js "NASDAQ")
    (Some (js "US0378331005")) (Some (js "037833100")) None None src
    None None.

(** A record with a ticker, an exchange and an ISIN only. *)
Definition listing (nm tk ex i : string) : SecurityData :=
  mkSecurityData (js nm) (js tk) (js ex) (Some (js i)) None None None
    (js "fmp") None None.

(** Row counts of the five tables. *)
Definition rowCounts (db : Database) : nat * nat * nat * nat * nat :=
  (List.length (securities db), List.length (identifiers_ticker db),
   List.length (identifiers_isin db), List.length (identifiers_cusip db),
   List.length (identifiers_cik db)).

End Db.

(** ** [src/apis/fmp.ts] *)

Module Fmp.

(** A value [JSON.parse] can return.  An object lists its own properties,
    each name once.  Numbers are never inspected by the client. *)
Inductive json :=
| JNull
| JBool (b : bool)
| JNumber (n : Z)
| JString (s : jsstring)
| JArray (items : list json)
| JObject (fields : list (jsstring * json)).

(** What a call can throw: the two classes of the module ([FmpRateLimitError]
    extends [FmpApiError] and fixes the status code to 429), and the
    [TypeError] of the runtime when a property of [null] is read or a
    non-function is called. *)
Inductive Exception :=
| FmpApiError (message : jsstring) (statusCode : option Z)
| FmpRateLimitError (message : jsstring)
| TypeError.

(** [error.name] *)
Definition errorName (e : Exception) : jsstring :=
  match e with
  | FmpApiError _ _ => js "FmpApiError"
  | FmpRateLimitError _ => js "FmpRateLimitError"
  | TypeError => js "TypeError"
  end.

(** [error.statusCode] *)
Definition statusCodeOf (e : Exception) : option Z :=
  match e with
  | FmpApiError _ c => c
  | FmpRateLimitError _ => Some 429
  | TypeError => None
  end.

(** The [Response] of [fetch]: [json] is what [response.json()] settles to,
    a parsed value or the rendering [`${error}`] of the parse error. *)
Record Response := mkResponse {
  status : Z;
  statusText : jsstring;
  json_ : jsstring + json
}.

(** [response.ok] *)
Definition ok (r : Response) : bool := (200 <=? status r) && (status r <=? 299).

(** How [await fetch(url)] ends. *)
Inductive FetchOutcome :=
| FetchTypeError (message : jsstring)
| FetchOtherError (rendered : jsstring)
| Fetched (response : Response).

(** The object the client returns: [data[0]] is cast to
    [FmpProfileResponse] without a check, so each copied property is
    whatever the response held, or [undefined]. *)
Record SecurityData := mkSecurityData {
  ticker : option json;
  name : option json;
  exchange : option json;
  source : jsstring;
  isin : option json;
  cusip : option json;
  cik : option json;
  market_sector : option json
}.

Fixpoint lookup (k : jsstring) (fields : list (jsstring * json)) : option json :=
  match fields with
  | [] => None
  | (k', v) :: rest => if JsString.eqb k' k then Some v else lookup k rest
  end.

(** [v[k]] for the property names this client reads, none of which a
    string, number, boolean or array has: [TypeError] on [null]. *)
Definition getProperty (v : json) (k : jsstring) : Exception + option json :=
  match v with
  | JNull => inl TypeError
  | JObject fields => inr (lookup k fields)
  | _ => inr None
  end.

(** [typeof v] *)
Definition typeof (v : json) : jsstring :=
  match v with
  | JNull | JArray _ | JObject _ => js "object"
  | JBool _ => js "boolean"
  | JNumber _ => js "number"
  | JString _ => js "string"
  end.

Definition rateLimitMessage : jsstring :=
  js "Rate limit exceeded (250 requests/day). Please try again tomorrow or upgrade your plan.".

(** [body["Error Message"]?.includes("Invalid API KEY")], as a condition. *)
Definition invalidApiKeyBody (body : json) : Exception + bool :=
  match getProperty body (js "Error Message") with
  | inl e => inl e
  | inr None | inr (Some JNull) => inr false
  | inr (Some (JString m)) => inr (includes (js "Invalid API KEY") m)
  | inr (Some (JArray items)) =>
      inr (existsb (fun x => match x with
                             | JString m => JsString.eqb m (js "Invalid API KEY")
                             | _ => false
                             end) items)
  | inr (Some _) => inl TypeError
  end.

(** The rate-limit test on a parsed array. *)
Definition rateLimitBody (data : list json) : bool :=
  match data with
  | [JObject fields] =>
      match lookup (js "message") fields with
      | Some (JString m) => includes (js "rate limit") m
      | _ => false
      end
  | _ => false
  end.

(** [fetchTickerProfile(ticker, apiKey)], with [net] the way the one call of
    [fetch] ends. *)
Definition fetchTickerProfile (ticker apiKey : jsstring) (net : FetchOutcome)
    : Exception + SecurityData :=
  if negb (truthy apiKey) || trim_is_empty apiKey then
    inl (FmpApiError (js "API key is required") None)
  else
    match net with
    | FetchTypeError m => inl (FmpApiError (js "Network error: " ++ m) None)
    | FetchOtherError e => inl (FmpApiError (js "Unexpected error: " ++ e) None)
    | Fetched response =>
        if negb (ok response) then
          if status response =? 429 then inl (FmpRateLimitError rateLimitMessage)
          else if (status response =? 401) || (status response =? 403) then
            let body :=
              match json_ response with
              | inr v => v
              | inl _ => JObject []
              end in
            match invalidApiKeyBody body with
            | inl e => inl e
            | inr true =>
                inl (FmpApiError
                       (js "Invalid API KEY. Please check your FMP_API_KEY environment variable.")
                       (Some 401))
            | inr false =>
                inl (FmpApiError
                       (js "Authentication failed: HTTP " ++
                        toString (status response))
                       (Some (status response)))
            end
          else if status response >=? 500 then
            inl (FmpApiError
                   (js "FMP server error: HTTP " ++ toString (status response)
                    ++ js " " ++ statusText response)
                   (Some (status response)))
          else
            inl (FmpApiError
                   (js "HTTP " ++ toString (status response) ++ js ": " ++
                    statusText response)
                   (Some (status response)))
        else
          match json_ response with
          | inl e =>
              inl (FmpApiError (js "Failed to parse JSON response: " ++ e) None)
          | inr (JArray data) =>
              if rateLimitBody data then inl (FmpRateLimitError rateLimitMessage)
              else
                match data with
                | [] =>
                    inl (FmpApiError (js "Ticker not found: " ++ ticker)
                           (Some 404))
                | profile :: _ =>
                    match getProperty profile (js "symbol") with
                    | inl e => inl e
                    | inr symbol =>
                        let get k :=
                          match getProperty profile (js k) with
                          | inr v => v
                          | inl _ => None
                          end in
                        inr (mkSecurityData symbol (get "companyName"%string)
                               (get "exchange"%string) (js "fmp")
                               (get "isin"%string) (get "cusip"%string)
                               (get "cik"%string) (get "sector"%string))
                    end
                end
          | inr data =>
              inl (FmpApiError
                     (js "Invalid response format: expected array, got " ++
                      typeof data) None)
          end
    end.

End Fmp.

(** ** More string methods *)

Module JsText.

Fixpoint dropWhile (f : Z -> bool) (s : jsstring) : jsstring :=
  match s with
  | [] => []
  | c :: rest => if f c then dropWhile f rest else s
  end.

(** [s.trim()]: white space and line terminators off both ends. *)
Definition trim (s : jsstring) : jsstring :=
  rev (dropWhile is_space (rev (dropWhile is_space s))).

Fixpoint indexOfFrom (ch : Z) (s : jsstring) (i : Z) : Z :=
  match s with
  | [] => -1
  | c :: rest => if c =? ch then i else indexOfFrom ch rest (i + 1)
  end.

(** [s.indexOf(ch)] for a one-unit string [ch]: the first index, or -1. *)
Definition indexOf (ch : Z) (s : jsstring) : Z := indexOfFrom ch s 0.

(** [s.substring(start, end)]: both bounds clamped to [0, s.length] and
    swapped when out of order. *)
Definition substring (s : jsstring) (start end_ : Z) : jsstring :=
  let clamp x := Z.max 0 (Z.min x (JsString.length s)) in
  let lo := Z.min (clamp start) (clamp end_) in
  let hi := Z.max (clamp start) (clamp end_) in
  firstn (Z.to_nat (hi - lo)) (skipn (Z.to_nat lo) s).

(** [s.substring(start)] *)
Definition substringFrom (s : jsstring) (start : Z) : jsstring :=
  substring s start (JsString.length s).

(** [a.includes(x)] on an array of strings *)
Definition arrayIncludes (a : list jsstring) (x : jsstring) : bool :=
  existsb (fun y => JsString.eqb y x) a.

(** A string between double quotes, as the templates of the messages
    write it. *)
Definition quoted (s : jsstring) : jsstring := [34] ++ s ++ [34].

End JsText.

(** ** [src/cli.ts] *)

Module Cli.
Import JsText.

(** [Designator]: at run time [type] is a string; its static type
    ["ticker" | "isin" | "cusip"] is a cast in [parseDesignator]. *)
Record Designator := mkDesignator {
  type : jsstring;
  value : jsstring
}.

(** [new CliError(message)] *)
Record CliError := mkCliError { message : jsstring }.

Definition throws {A} (msg : jsstring) : CliError + A := inl (mkCliError msg).

Definition validTypes : list jsstring := [js "ticker"; js "isin"; js "cusip"].

Section CaseMapping.

(** [String.prototype.toLowerCase] and [toUpperCase] of the runtime, on
    arbitrary strings. *)
Variables toLowerCase toUpperCase : jsstring -> jsstring.

Definition parseDesignator (input : jsstring) : CliError + Designator :=
  let trimmed := trim input in
  let colonIndex := indexOf 58 trimmed in
  if colonIndex =? -1 then
    throws (js "Invalid designator format: " ++ quoted input ++
            js ". Expected format: {type}:{value} (e.g., ticker:AAPL)")
  else
    let type := toLowerCase (trim (substring trimmed 0 colonIndex)) in
    let value := trim (substringFrom trimmed (colonIndex + 1)) in
    if JsString.eqb type [] then
      throws (js "Invalid designator format: " ++ quoted input ++
              js ". Type is empty.")
    else if JsString.eqb value [] then
      throws (js "Invalid designator format: " ++ quoted input ++
              js ". Value is empty.")
    else if negb (arrayIncludes validTypes type) then
      throws (js "Unknown designator type: " ++ quoted type ++
              js ". Supported types: ticker, isin, cusip")
    else
      let normalizedValue := toUpperCase value in
      inr (mkDesignator type normalizedValue).

End CaseMapping.

(** [/^[A-Z]/.test(s)] *)
Definition startsWithLetter (s : jsstring) : bool :=
  match s with
  | c :: _ => is_upper c
  | [] => false
  end.

Definition tickerChar (c : Z) : bool :=
  is_upper c || is_digit c || (c =? 46) || (c =? 45).

(** [/^[A-Z0-9.-]+$/.test(s)] *)
Definition tickerChars (s : jsstring) : bool :=
  truthy s && forallb tickerChar s.

Definition validateTicker (ticker : jsstring) : CliError + bool :=
  if (JsString.length ticker <? 1) || (JsString.length ticker >? 10) then
    throws (js "Invalid ticker " ++ quoted ticker ++
            js ": must be 1-10 characters long")
  else if negb (startsWithLetter ticker) then
    throws (js "Invalid ticker " ++ quoted ticker ++
            js ": must start with a letter")
  else if negb (tickerChars ticker) then
    throws (js "Invalid ticker " ++ quoted ticker ++
            js ": only letters, numbers, hyphens, and periods allowed")
  else inr true.

(** [/^[A-Z]{2}/.test(s)] *)
Definition startsWithTwoLetters (s : jsstring) : bool :=
  match s with
  | a :: b :: _ => is_upper a && is_upper b
  | _ => false
  end.

(** [/^[A-Z]{2}[A-Z0-9]{9}[0-9]$/.test(s)] *)
Definition isinShape (s : jsstring) : bool :=
  (List.length s =? 12)%nat &&
  forallb is_upper (firstn 2 s) &&
  forallb Isin.validChar (firstn 9 (skipn 2 s)) &&
  forallb is_digit (skipn 11 s).

Definition validateIsinFormat (isin : jsstring) : CliError + bool :=
  if negb (JsString.length isin =? 12) then
    throws (js "Invalid ISIN " ++ quoted isin ++
            js ": must be exactly 12 characters")
  else if negb (startsWithTwoLetters isin) then
    throws (js "Invalid ISIN " ++ quoted isin ++
            js ": must start with 2-letter country code")
  else if negb (isinShape isin) then
    throws (js "Invalid ISIN " ++ quoted isin ++
            js ": invalid format (expected: 2 letters + 9 alphanumeric + 1 digit)")
  else inr true.

(** [/^[A-Z0-9]{8}[0-9]$/.test(s)] *)
Definition cusipShape (s : jsstring) : bool :=
  (List.length s =? 9)%nat &&
  forallb Isin.validChar (firstn 8 s) &&
  forallb is_digit (skipn 8 s).

Definition validateCusipFormat (cusip : jsstring) : CliError + bool :=
  if negb (JsString.length cusip =? 9) then
    throws (js "Invalid CUSIP " ++ quoted cusip ++
            js ": must be exactly 9 characters")
  else if negb (cusipShape cusip) then
    throws (js "Invalid CUSIP " ++ quoted cusip ++
            js ": must be 8 alphanumeric characters + 1 check digit")
  else inr true.

Definition validateDesignator (designator : Designator) : CliError + bool :=
  if JsString.eqb (type designator) (js "ticker") then
    validateTicker (value designator)
  else if JsString.eqb (type designator) (js "isin") then
    validateIsinFormat (value designator)
  else if JsString.eqb (type designator) (js "cusip") then
    validateCusipFormat (value designator)
  else
    throws (js "Unknown designator type: " ++ type designator).

(** Case mapping restricted to ASCII letters, the part of the runtime's
    mapping that strings of ASCII units exercise. *)
Definition asciiLower (s : jsstring) : jsstring :=
  map (fun c => if is_upper c then c + 32 else c) s.

Definition isAscii (s : jsstring) : bool :=
  forallb (fun c => (0 <=? c) && (c <? 128)) s.

(** A pair of case mappings that does on ASCII strings what the runtime's
    does. *)
Definition asciiCaseMapping (toLowerCase toUpperCase : jsstring -> jsstring)
    : Prop :=
  forall s, isAscii s = true ->
            toLowerCase s = asciiLower s /\
            toUpperCase s = JsString.toUpperCase s.

End Cli.

(** ** Views of the store used to state its properties *)

Module DbViews.
Import Db.

(** The row the first of the matching rows of a left join contributes: a
    row of [tbl] that refers to [sid], or [NULL]. *)
Definition sibling {K} (sid : Z) (tbl : list (ident_row K))
    : option (ident_row K) :=
  hd None (leftJoin sid tbl).

(** An identifier table that only grew: at most one row was added at the
    end and no row whose key is not [k] changed. *)
Definition grown {K} (k : K) (before after : list (ident_row K)) : Prop :=
  (exists added, map key after = map key before ++ added /\
                 (List.length added <= 1)%nat) /\
  (forall n r, nth_error before n = Some r -> key r <> k ->
               nth_error after n = Some r).

(** The same, for the table of an optional identifier. *)
Definition grownIf {K} (x : option K) (before after : list (ident_row K))
    : Prop :=
  match x with
  | Some k => grown k before after
  | None => after = before
  end.

(** A record with a name, a ticker and an exchange only. *)
Definition bare (nm tk ex : string) : SecurityData :=
  mkSecurityData (js nm) (js tk) (js ex) None None None None (js "test")
    None None.

(** A record with neither ISIN, CUSIP nor CIK. *)
Definition bareListing (security : SecurityData) : Prop :=
  orNull (isin security) = None /\ orNull (cusip security) = None /\
  orNull (cik security) = None.

(** No probe of [insertSecurity] answers. *)
Definition unknown (db : Database) (security : SecurityData) : Prop :=
  probeTicker db security = None /\ probeIsin db security = None /\
  probeCusip db security = None.

End DbViews.

(** ** Views of the FMP client used to state its properties *)

Module FmpViews.
Import Fmp.

(** The value of a property of the first element of the response, or
    [undefined]. *)
Definition property (profile : json) (k : string) : option json :=
  match profile with
  | JObject fields => lookup (js k) fields
  | _ => None
  end.

(** The record built from a profile. *)
Definition recordOf (profile : json) : SecurityData :=
  mkSecurityData (property profile "symbol") (property profile "companyName")
    (property profile "exchange") (js "fmp") (property profile "isin")
    (property profile "cusip") (property profile "cik")
    (property profile "sector").

(** The API key passes the guard at the head of [fetchTickerProfile]. *)
Definition keyAccepted (apiKey : jsstring) : bool :=
  negb (negb (truthy apiKey) || trim_is_empty apiKey).

Definition invalidKeyMessage : jsstring :=
  js "Invalid API KEY. Please check your FMP_API_KEY environment variable.".

End FmpViews.

(** * Proofs *)

(** ** Strings and bounded case analysis *)

Section StringFacts.

Lemma jsstring_eqb_eq (a b : jsstring) : JsString.eqb a b = true <-> a = b.
Proof.
  revert b; induction a as [|x a IH]; intros [|y b]; simpl;
    try (split; (reflexivity || discriminate)).
  rewrite andb_true_iff, Z.eqb_eq, IH.
  split; [intros [-> ->]; reflexivity | intros H; inversion H; auto].
Qed.

Lemma jsstring_eqb_refl (a : jsstring) : JsString.eqb a a = true.
Proof. apply jsstring_eqb_eq; reflexivity. Qed.

Lemma jsstring_eqb_neq (a b : jsstring) : JsString.eqb a b = false <-> a <> b.
Proof.
  rewrite <- jsstring_eqb_eq. destruct (JsString.eqb a b); split; congruence.
Qed.

(** A boolean property checked on every integer of a range holds on it. *)
Lemma forall_range (P : Z -> bool) (lo n : nat) :
  forallb P (map Z.of_nat (seq lo n)) = true ->
  forall c, Z.of_nat lo <= c < Z.of_nat (lo + n) -> P c = true.
Proof.
  intros H c Hc. rewrite forallb_forall in H. apply H.
  rewrite in_map_iff. exists (Z.to_nat c). split; [lia|].
  apply in_seq. lia.
Qed.

Lemma length_eqb (s : jsstring) (n : nat) :
  (JsString.length s =? Z.of_nat n) = true <-> List.length s = n.
Proof. unfold JsString.length. rewrite Z.eqb_eq. lia. Qed.

Lemma length_is (s : jsstring) (n : nat) :
  List.length s = n -> (JsString.length s =? Z.of_nat n) = true.
Proof. apply length_eqb. Qed.

Lemma length_is_not (s : jsstring) (n : nat) :
  List.length s <> n -> (JsString.length s =? Z.of_nat n) = false.
Proof. intros H. apply Z.eqb_neq. unfold JsString.length. lia. Qed.

Lemma toString_digit (d : Z) : 0 <= d <= 9 -> toString d = [48 + d].
Proof.
  intros H.
  apply jsstring_eqb_eq.
  apply (forall_range (fun d => JsString.eqb (toString d) [48 + d]) 0 10);
    [vm_compute; reflexivity | lia].
Qed.

Lemma firstn_succ_nth {A} (d : A) (l : list A) (i : nat) :
  (i < List.length l)%nat -> firstn (S i) l = firstn i l ++ [nth i l d].
Proof.
  revert i; induction l as [|x l IH]; intros i Hi; simpl in Hi; [lia|].
  destruct i as [|i]; [reflexivity|].
  cbn [firstn nth app]. f_equal. rewrite <- IH by lia. reflexivity.
Qed.

End StringFacts.

(** Rewrite the length test of a guard from a fact on [List.length]. *)
Ltac length_guard H :=
  let E := fresh "E" in
  match type of H with
  | List.length ?s = ?n =>
      pose proof (length_is s n H) as E;
      let z := eval cbv in (Z.of_nat n) in
      change (Z.of_nat n) with z in E; rewrite E; clear E
  | List.length ?s <> ?n =>
      pose proof (length_is_not s n H) as E;
      let z := eval cbv in (Z.of_nat n) in
      change (Z.of_nat n) with z in E; rewrite E; clear E
  end.

(** ** The check digit *)

Section CheckDigit.
Import Isin.

Lemma is_digit_range c : is_digit c = true <-> 48 <= c <= 57.
Proof. unfold is_digit. rewrite andb_true_iff, !Z.leb_le. tauto. Qed.

Lemma is_upper_range c : is_upper c = true <-> 65 <= c <= 90.
Proof. unfold is_upper. rewrite andb_true_iff, !Z.leb_le. tauto. Qed.

Lemma is_lower_range c : is_lower c = true <-> 97 <= c <= 122.
Proof. unfold is_lower. rewrite andb_true_iff, !Z.leb_le. tauto. Qed.

(** One character: the code's numeral, read back digit by digit, is the
    specification's. *)
Lemma charToNumeral_spec c :
  validChar c = true ->
  exists numeral, charToNumeral c = inr numeral /\
                  map NumberOfDigit numeral = spec_numeral c /\
                  digitList (spec_numeral c).
Proof.
  unfold validChar. rewrite orb_true_iff. intros [Hd | Hu].
  - pose proof (proj1 (is_digit_range c) Hd) as R.
    exists [c]. unfold charToNumeral, spec_numeral. rewrite Hd.
    replace (is_upper c) with false
      by (symmetry; unfold is_upper; apply andb_false_iff; left;
          apply Z.leb_gt; lia).
    repeat split. constructor; [lia | constructor].
  - pose proof (proj1 (is_upper_range c) Hu) as R.
    exists (toString (c - 65 + 10)). unfold charToNumeral. rewrite Hu.
    split; [reflexivity|].
    pose (P := fun c =>
      JsString.eqb (map NumberOfDigit (toString (c - 65 + 10))) (spec_numeral c)
      && forallb (fun d => (0 <=? d) && (d <=? 9)) (spec_numeral c)).
    assert (HP : P c = true).
    { apply (forall_range P 65 26); [vm_compute; reflexivity | lia]. }
    unfold P in HP. apply andb_true_iff in HP. destruct HP as [H1 H2].
    split; [apply jsstring_eqb_eq; exact H1|].
    apply Forall_forall. intros d Hin.
    rewrite forallb_forall in H2. specialize (H2 d Hin).
    apply andb_true_iff in H2. rewrite !Z.leb_le in H2. lia.
Qed.

Lemma numericStringOf_spec s :
  forallb validChar s = true ->
  exists numericString,
    numericStringOf s = inr numericString /\
    map NumberOfDigit numericString = spec_digits s /\
    digitList (spec_digits s).
Proof.
  induction s as [|c s IH]; simpl; intros H.
  - exists []. repeat split. constructor.
  - apply andb_true_iff in H. destruct H as [Hc Hs].
    destruct (charToNumeral_spec c Hc) as (num & E1 & E2 & E3).
    destruct (IH Hs) as (ns & F1 & F2 & F3).
    exists (num ++ ns). rewrite E1, F1. split; [reflexivity|].
    split; [rewrite map_app; congruence|].
    apply Forall_app; split; assumption.
Qed.

Lemma luhnStep_spec p d :
  0 <= p -> 0 <= d ->
  luhnStep p d = if Z.odd p then spec_double d else d.
Proof.
  intros Hp Hd. unfold luhnStep, spec_double.
  rewrite Z.rem_mod_nonneg by lia.
  rewrite (Zmod_odd p).
  destruct (Z.odd p); simpl; [|reflexivity].
  replace (d * 2) with (2 * d) by lia.
  rewrite Z.rem_mod_nonneg by lia.
  rewrite Z.gtb_ltb. reflexivity.
Qed.

Lemma luhnLoop_spec digits : digitList digits ->
  forall n sum, (n <= List.length digits)%nat ->
  luhnLoop digits n sum =
  sum + spec_sum_from (Z.of_nat (List.length digits) - Z.of_nat n + 1)
          (rev (firstn n digits)).
Proof.
  intros Hds. induction n as [|i IH]; intros sum Hn.
  - simpl. lia.
  - cbn [luhnLoop]. rewrite IH by lia.
    rewrite (firstn_succ_nth 0) by lia.
    rewrite rev_app_distr. cbn [rev app spec_sum_from].
    assert (0 <= nth i digits 0).
    { unfold digitList in Hds. rewrite Forall_forall in Hds.
      apply (Hds (nth i digits 0)). apply nth_In. lia. }
    rewrite luhnStep_spec by lia.
    replace (Z.of_nat (List.length digits) - Z.of_nat (S i) + 1)
      with (Z.of_nat (List.length digits) - Z.of_nat i) by lia.
    lia.
Qed.

Lemma spec_double_nonneg d : 0 <= d -> 0 <= spec_double d.
Proof.
  intros H. unfold spec_double. destruct (9 <? 2 * d); [|lia].
  pose proof (Z.div_pos (2 * d) 10). pose proof (Z.mod_pos_bound (2 * d) 10).
  lia.
Qed.

Lemma spec_sum_from_nonneg l : digitList l -> forall p, 0 <= spec_sum_from p l.
Proof.
  induction 1 as [|d l Hd Hl IH]; intros p; simpl; [lia|].
  specialize (IH (p + 1)). pose proof (spec_double_nonneg d).
  destruct (Z.odd p); lia.
Qed.

Lemma spec_checkDigit_range s : 0 <= spec_checkDigit s <= 9.
Proof.
  unfold spec_checkDigit. pose proof (Z.mod_pos_bound
    (10 - spec_sum_from 1 (rev (spec_digits s)) mod 10) 10). lia.
Qed.

(** The code computes the specification's digit on every well-formed base. *)
Lemma computeIsinCheckDigit_spec base :
  List.length base = 11%nat -> forallb validChar base = true ->
  computeIsinCheckDigit base = inr (spec_checkDigit base).
Proof.
  intros Hlen Hv. unfold computeIsinCheckDigit.
  length_guard Hlen. simpl negb. cbv iota.
  destruct (numericStringOf_spec base Hv) as (ns & E1 & E2 & E3).
  rewrite E1, E2. f_equal.
  rewrite luhnLoop_spec by (assumption || lia).
  rewrite firstn_all, Z.sub_diag. cbn [Z.add].
  unfold spec_checkDigit.
  assert (0 <= spec_sum_from 1 (rev (spec_digits base))).
  { apply spec_sum_from_nonneg. unfold digitList. apply Forall_rev. exact E3. }
  rewrite (Z.rem_mod_nonneg (spec_sum_from _ _)) by lia.
  pose proof (Z.mod_pos_bound (spec_sum_from 1 (rev (spec_digits base))) 10).
  rewrite Z.rem_mod_nonneg by lia. reflexivity.
Qed.

End CheckDigit.

(** ** Failures of [computeIsinCheckDigit] *)

Section CheckDigitErrors.
Import Isin.

Lemma charToNumeral_invalid c :
  validChar c = false ->
  charToNumeral c = throws (js "Invalid character in ISIN: " ++ [c]).
Proof.
  unfold validChar, charToNumeral. intros H.
  apply orb_false_iff in H. destruct H as [-> ->]. reflexivity.
Qed.

Lemma charToNumeral_valid c :
  validChar c = true -> exists numeral, charToNumeral c = inr numeral.
Proof.
  intros H. destruct (charToNumeral_spec c H) as (n & E & _). eauto.
Qed.

(** The first character outside [0-9A-Z] is the one reported. *)
Lemma numericStringOf_invalid s :
  forallb validChar s = false ->
  exists pre c post,
    s = pre ++ c :: post /\ forallb validChar pre = true /\
    validChar c = false /\
    numericStringOf s = throws (js "Invalid character in ISIN: " ++ [c]).
Proof.
  induction s as [|c s IH]; simpl; [discriminate|].
  intros H. destruct (validChar c) eqn:Hc.
  - simpl in H. destruct (IH H) as (pre & c' & post & -> & Hpre & Hc' & E).
    exists (c :: pre), c', post. simpl. rewrite Hc, Hpre.
    destruct (charToNumeral_valid c Hc) as (n & ->). rewrite E.
    repeat split; reflexivity || assumption.
  - exists [], c, s. rewrite (charToNumeral_invalid c Hc).
    repeat split; reflexivity || assumption.
Qed.

Lemma computeIsinCheckDigit_wrong_length base :
  List.length base <> 11%nat ->
  computeIsinCheckDigit base =
  throws (js "Base must be exactly 11 characters (country code + NSIN)").
Proof.
  intros H. unfold computeIsinCheckDigit.
  length_guard H. reflexivity.
Qed.

Lemma computeIsinCheckDigit_invalid_char base :
  List.length base = 11%nat -> forallb validChar base = false ->
  exists pre c post,
    base = pre ++ c :: post /\ forallb validChar pre = true /\
    validChar c = false /\
    computeIsinCheckDigit base =
    throws (js "Invalid character in ISIN: " ++ [c]).
Proof.
  intros Hlen Hv. unfold computeIsinCheckDigit.
  length_guard Hlen. simpl negb. cbv iota.
  destruct (numericStringOf_invalid base Hv) as (pre & c & post & H1 & H2 & H3 & H4).
  exists pre, c, post. rewrite H4. repeat split; assumption.
Qed.

End CheckDigitErrors.

(** ** [validateIsin] and [cusipToIsin] *)

Section Validation.
Import Isin.

Lemma twoUpperLetters_prefix isin :
  (2 <= List.length isin)%nat ->
  twoUpperLetters (substring0 2 isin) =
  is_upper (nth 0 isin 0) && is_upper (nth 1 isin 0).
Proof.
  destruct isin as [|a [|b rest]]; simpl; intros H; try lia. reflexivity.
Qed.

(** [validateIsin], branch by branch. *)
Lemma validateIsin_unfold isin :
  validateIsin isin =
  if negb (List.length isin =? 12)%nat then
    mkResult false (Some (js "ISIN must be exactly 12 characters"))
  else if negb (is_upper (nth 0 isin 0) && is_upper (nth 1 isin 0)) then
    mkResult false
      (Some (js "ISIN must start with 2 uppercase letters (country code)"))
  else if negb (is_digit (nth 11 isin 0)) then
    mkResult false (Some (js "Check digit must be a number"))
  else
    match computeIsinCheckDigit (firstn 11 isin) with
    | inr d =>
        if d =? nth 11 isin 0 - 48 then mkResult true None
        else mkResult false (Some (js "Invalid check digit"))
    | inl e => mkResult false (Some (message e))
    end.
Proof.
  unfold validateIsin.
  destruct (Nat.eqb_spec (List.length isin) 12) as [Hlen | Hlen].
  - length_guard Hlen. cbn [negb].
    cbv beta iota zeta.
    rewrite twoUpperLetters_prefix by lia.
    destruct (is_upper (nth 0 isin 0) && is_upper (nth 1 isin 0));
      cbn [negb]; cbv iota; [|reflexivity].
    unfold parseIntChar, substring0.
    destruct (is_digit (nth 11 isin 0)); cbn [negb]; cbv iota; [|reflexivity].
    destruct (computeIsinCheckDigit (firstn 11 isin)) as [e | d]; [reflexivity|].
    destruct (d =? nth 11 isin 0 - 48); reflexivity.
  - length_guard Hlen. reflexivity.
Qed.

Lemma firstn_11_length (isin : jsstring) :
  List.length isin = 12%nat -> List.length (firstn 11 isin) = 11%nat.
Proof. intros H. rewrite length_firstn. lia. Qed.

End Validation.

Section IsinClaims.
Import Isin.

(** [validateIsin] in the terms of the specification: the four checks in
    order, and the error of an unexpected character in between. *)
Lemma validateIsin_well_formed_base isin :
  List.length isin = 12%nat ->
  is_upper (nth 0 isin 0) && is_upper (nth 1 isin 0) = true ->
  is_digit (nth 11 isin 0) = true ->
  forallb validChar (firstn 11 isin) = true ->
  validateIsin isin =
  if spec_checkDigit (firstn 11 isin) =? nth 11 isin 0 - 48
  then mkResult true None
  else mkResult false (Some (js "Invalid check digit")).
Proof.
  intros Hlen Hup Hdig Hv. rewrite validateIsin_unfold.
  rewrite (proj2 (Nat.eqb_eq _ _) Hlen), Hup, Hdig. cbn [negb].
  rewrite computeIsinCheckDigit_spec
    by (apply firstn_11_length; assumption) || assumption.
  reflexivity.
Qed.

Lemma validateIsin_bad_base isin :
  List.length isin = 12%nat ->
  is_upper (nth 0 isin 0) && is_upper (nth 1 isin 0) = true ->
  is_digit (nth 11 isin 0) = true ->
  forallb validChar (firstn 11 isin) = false ->
  exists c, In c (firstn 11 isin) /\ validChar c = false /\
    validateIsin isin =
    mkResult false (Some (js "Invalid character in ISIN: " ++ [c])).
Proof.
  intros Hlen Hup Hdig Hv. rewrite validateIsin_unfold.
  rewrite (proj2 (Nat.eqb_eq _ _) Hlen), Hup, Hdig. cbn [negb].
  destruct (computeIsinCheckDigit_invalid_char (firstn 11 isin)
              (firstn_11_length isin Hlen) Hv)
    as (pre & c & post & E & _ & Hc & ->).
  exists c. split; [rewrite E; apply in_elt|]. split; [exact Hc|reflexivity].
Qed.

(** C1. For every 11-character string of ASCII digits and uppercase
    letters, [computeIsinCheckDigit] returns the digit of the specification's
    algorithm ([spec_checkDigit]: numerals concatenated, every digit at an odd
    position from the right doubled and reduced, all summed, then
    [(10 - sum mod 10) mod 10]); and it returns 5, 5 and 4 on the bases of
    Apple, Microsoft and Tesla. *)
Theorem computeIsinCheckDigit_follows_algorithm :
  (forall base : jsstring,
      List.length base = 11%nat -> forallb validChar base = true ->
      computeIsinCheckDigit base = inr (spec_checkDigit base)) /\
  computeIsinCheckDigit (js "US037833100") = inr 5 /\
  computeIsinCheckDigit (js "US594918104") = inr 5 /\
  computeIsinCheckDigit (js "US88160R101") = inr 4.
Proof.
  split; [exact computeIsinCheckDigit_spec|].
  repeat split; vm_compute; reflexivity.
Qed.

Lemma computeIsinCheckDigit_follows_algorithm_witness :
  computeIsinCheckDigit (js "US88160R101") =
  inr (spec_checkDigit (js "US88160R101")).
Proof.
  apply (proj1 computeIsinCheckDigit_follows_algorithm); reflexivity.
Defined.

(** C8, as stated, fails: a 10-character base violates the precondition and
    is rejected by the length guard, whose error is not the one of an
    invalid character. *)
Lemma computeIsinCheckDigit_length_error_not_invalid_character :
  violatesPrecondition (js "US03783310") /\
  exists e, computeIsinCheckDigit (js "US03783310") = inl e /\
            baseLengthError e /\ ~ invalidCharacterError e.
Proof.
  split; [left; vm_compute; discriminate|].
  eexists. split; [vm_compute; reflexivity|].
  split; [reflexivity|].
  intros [c H]. vm_compute in H. discriminate H.
Qed.

(** C8, amended.  [computeIsinCheckDigit] fails on every input outside its
    precondition: with the length error when the input is not 11 characters
    long, and otherwise with the invalid-character error naming the first
    character that is neither an ASCII digit nor an ASCII uppercase
    letter. *)
Theorem computeIsinCheckDigit_rejects_bad_input :
  forall base : jsstring,
    violatesPrecondition base ->
    exists e,
      computeIsinCheckDigit base = inl e /\
      (List.length base <> 11%nat -> baseLengthError e) /\
      (List.length base = 11%nat ->
       invalidCharacterError e /\
       exists pre c post,
         base = pre ++ c :: post /\ forallb validChar pre = true /\
         validChar c = false /\
         message e = js "Invalid character in ISIN: " ++ [c]).
Proof.
  intros base Hbad.
  destruct (Nat.eq_dec (List.length base) 11) as [Hlen | Hlen].
  - destruct Hbad as [Hbad | Hbad]; [contradiction|].
    destruct (computeIsinCheckDigit_invalid_char base Hlen Hbad)
      as (pre & c & post & E & Hpre & Hc & ->).
    eexists. split; [reflexivity|]. split; [contradiction|].
    intros _. split; [exists c; reflexivity|].
    exists pre, c, post. repeat split; assumption.
  - rewrite (computeIsinCheckDigit_wrong_length base Hlen).
    eexists. split; [reflexivity|]. split; [reflexivity | contradiction].
Qed.

Lemma computeIsinCheckDigit_rejects_bad_input_witness :
  exists e,
    computeIsinCheckDigit (js "US03783!100") = inl e /\
    (List.length (js "US03783!100") <> 11%nat -> baseLengthError e) /\
    (List.length (js "US03783!100") = 11%nat ->
     invalidCharacterError e /\
     exists pre c post,
       js "US03783!100" = pre ++ c :: post /\ forallb validChar pre = true /\
       validChar c = false /\
       message e = js "Invalid character in ISIN: " ++ [c]).
Proof.
  apply (computeIsinCheckDigit_rejects_bad_input (js "US03783!100")).
  right. reflexivity.
Defined.

(** C7. [validateIsin] is total and returns a structured result: either
    [valid = true] without an error, or [valid = false] with a reason.  It
    accepts exactly the well-formed strings whose check digit matches, and
    gives each failure class its own reason: length other than 12; first two
    characters not both uppercase letters; last character not a digit; check
    digit of the first 11 characters different from the 12th.  The four
    reasons are pairwise different, and ["US0378331006"] is rejected with
    ["Invalid check digit"]. *)
Theorem validateIsin_structured_reasons :
  (forall isin : jsstring,
      (valid (validateIsin isin) = true /\ error (validateIsin isin) = None) \/
      (valid (validateIsin isin) = false /\
       exists reason, error (validateIsin isin) = Some reason)) /\
  (forall isin : jsstring,
      valid (validateIsin isin) = true <->
      List.length isin = 12%nat /\
      is_upper (nth 0 isin 0) && is_upper (nth 1 isin 0) = true /\
      is_digit (nth 11 isin 0) = true /\
      forallb validChar (firstn 11 isin) = true /\
      spec_checkDigit (firstn 11 isin) = nth 11 isin 0 - 48) /\
  (forall isin : jsstring,
      List.length isin <> 12%nat ->
      validateIsin isin =
      mkResult false (Some (js "ISIN must be exactly 12 characters"))) /\
  (forall isin : jsstring,
      List.length isin = 12%nat ->
      is_upper (nth 0 isin 0) && is_upper (nth 1 isin 0) = false ->
      validateIsin isin =
      mkResult false
        (Some (js "ISIN must start with 2 uppercase letters (country code)"))) /\
  (forall isin : jsstring,
      List.length isin = 12%nat ->
      is_upper (nth 0 isin 0) && is_upper (nth 1 isin 0) = true ->
      is_digit (nth 11 isin 0) = false ->
      validateIsin isin =
      mkResult false (Some (js "Check digit must be a number"))) /\
  (forall isin : jsstring,
      List.length isin = 12%nat ->
      is_upper (nth 0 isin 0) && is_upper (nth 1 isin 0) = true ->
      is_digit (nth 11 isin 0) = true ->
      forallb validChar (firstn 11 isin) = true ->
      spec_checkDigit (firstn 11 isin) <> nth 11 isin 0 - 48 ->
      validateIsin isin = mkResult false (Some (js "Invalid check digit"))) /\
  NoDup [js "ISIN must be exactly 12 characters";
         js "ISIN must start with 2 uppercase letters (country code)";
         js "Check digit must be a number";
         js "Invalid check digit"] /\
  validateIsin (js "US0378331006") =
  mkResult false (Some (js "Invalid check digit")).
Proof.
  assert (L : forall isin, List.length isin <> 12%nat ->
            validateIsin isin =
            mkResult false (Some (js "ISIN must be exactly 12 characters"))).
  { intros isin H. rewrite validateIsin_unfold.
    rewrite (proj2 (Nat.eqb_neq _ _) H). reflexivity. }
  assert (C : forall isin, List.length isin = 12%nat ->
            is_upper (nth 0 isin 0) && is_upper (nth 1 isin 0) = false ->
            validateIsin isin =
            mkResult false
              (Some (js "ISIN must start with 2 uppercase letters (country code)"))).
  { intros isin H1 H2. rewrite validateIsin_unfold.
    rewrite (proj2 (Nat.eqb_eq _ _) H1), H2. reflexivity. }
  assert (D : forall isin, List.length isin = 12%nat ->
            is_upper (nth 0 isin 0) && is_upper (nth 1 isin 0) = true ->
            is_digit (nth 11 isin 0) = false ->
            validateIsin isin =
            mkResult false (Some (js "Check digit must be a number"))).
  { intros isin H1 H2 H3. rewrite validateIsin_unfold.
    rewrite (proj2 (Nat.eqb_eq _ _) H1), H2, H3. reflexivity. }
  assert (cases : forall isin : jsstring,
    (List.length isin <> 12%nat) \/
    (List.length isin = 12%nat /\
     is_upper (nth 0 isin 0) && is_upper (nth 1 isin 0) = false) \/
    (List.length isin = 12%nat /\
     is_upper (nth 0 isin 0) && is_upper (nth 1 isin 0) = true /\
     is_digit (nth 11 isin 0) = false) \/
    (List.length isin = 12%nat /\
     is_upper (nth 0 isin 0) && is_upper (nth 1 isin 0) = true /\
     is_digit (nth 11 isin 0) = true /\
     forallb validChar (firstn 11 isin) = false) \/
    (List.length isin = 12%nat /\
     is_upper (nth 0 isin 0) && is_upper (nth 1 isin 0) = true /\
     is_digit (nth 11 isin 0) = true /\
     forallb validChar (firstn 11 isin) = true)).
  { intros isin.
    destruct (Nat.eq_dec (List.length isin) 12); [|tauto].
    destruct (is_upper (nth 0 isin 0) && is_upper (nth 1 isin 0)); [|tauto].
    destruct (is_digit (nth 11 isin 0)); [|tauto].
    destruct (forallb validChar (firstn 11 isin)); tauto. }
  split; [|split; [|split; [exact L|split; [exact C|split; [exact D|split;
    [|split]]]]]].
  - intros isin.
    destruct (cases isin) as [H | [[H1 H2] | [(H1 & H2 & H3) |
      [(H1 & H2 & H3 & H4) | (H1 & H2 & H3 & H4)]]]].
    + rewrite L by assumption. right. cbn [valid error]. eauto.
    + rewrite C by assumption. right. cbn [valid error]. eauto.
    + rewrite D by assumption. right. cbn [valid error]. eauto.
    + destruct (validateIsin_bad_base isin H1 H2 H3 H4) as (c & _ & _ & ->).
      right. cbn [valid error]. eauto.
    + rewrite validateIsin_well_formed_base by assumption.
      destruct (_ =? _); [left | right]; cbn [valid error]; eauto.
  - intros isin.
    destruct (cases isin) as [H | [[H1 H2] | [(H1 & H2 & H3) |
      [(H1 & H2 & H3 & H4) | (H1 & H2 & H3 & H4)]]]].
    + rewrite L by assumption. cbn [valid error]. split; [discriminate | tauto].
    + rewrite C by assumption. cbn [valid error].
      split; [discriminate | intros (_ & E & _); congruence].
    + rewrite D by assumption. cbn [valid error].
      split; [discriminate | intros (_ & _ & E & _); congruence].
    + destruct (validateIsin_bad_base isin H1 H2 H3 H4) as (c & _ & _ & ->).
      cbn [valid error]. split; [discriminate | intros (_ & _ & _ & E & _); congruence].
    + rewrite validateIsin_well_formed_base by assumption.
      destruct (Z.eqb_spec (spec_checkDigit (firstn 11 isin))
                  (nth 11 isin 0 - 48)); cbn [valid error].
      * tauto.
      * split; [discriminate | tauto].
  - intros isin H1 H2 H3 H4 H5.
    rewrite validateIsin_well_formed_base by assumption.
    rewrite (proj2 (Z.eqb_neq _ _) H5). reflexivity.
  - repeat constructor; simpl; intros H;
      repeat (destruct H as [H | H]; [vm_compute in H; discriminate H|]);
      exact H.
  - vm_compute. reflexivity.
Qed.

Lemma validateIsin_structured_reasons_witness :
  valid (validateIsin (js "US0378331005")) = true /\
  validateIsin (js "US037833100") =
  mkResult false (Some (js "ISIN must be exactly 12 characters")) /\
  validateIsin (js "us0378331005") =
  mkResult false
    (Some (js "ISIN must start with 2 uppercase letters (country code)")) /\
  validateIsin (js "US037833100X") =
  mkResult false (Some (js "Check digit must be a number")) /\
  validateIsin (js "US0378331006") =
  mkResult false (Some (js "Invalid check digit")).
Proof.
  pose proof validateIsin_structured_reasons
    as (_ & Hiff & Hlen & Hcc & Hdig & Hchk & _ & _).
  split; [apply Hiff; repeat split; reflexivity|].
  split; [apply Hlen; vm_compute; discriminate|].
  split; [apply Hcc; reflexivity|].
  split; [apply Hdig; reflexivity|].
  apply Hchk; try reflexivity. vm_compute. discriminate.
Defined.

End IsinClaims.

Section RoundTrip.
Import Isin.

Lemma firstn_app_exact {A} (l r : list A) (n : nat) :
  List.length l = n -> firstn n (l ++ r) = l.
Proof.
  intros <-. rewrite firstn_app, firstn_all, Nat.sub_diag. simpl.
  apply app_nil_r.
Qed.

Lemma nth_app_exact {A} (l : list A) (x d : A) (n : nat) :
  List.length l = n -> nth n (l ++ [x]) d = x.
Proof. intros <-. apply nth_middle. Qed.

Lemma toUpperCase_valid s :
  forallb alnumChar s = true -> forallb validChar (toUpperCase s) = true.
Proof.
  unfold toUpperCase. induction s as [|c s IH]; simpl; [reflexivity|].
  intros H. apply andb_true_iff in H. destruct H as [Hc Hs].
  rewrite (IH Hs), andb_true_r.
  unfold alnumChar in Hc. unfold validChar.
  destruct (is_lower c) eqn:Hl.
  - apply is_lower_range in Hl. apply orb_true_iff. right.
    apply is_upper_range. lia.
  - rewrite orb_false_r in Hc. rewrite orb_comm. exact Hc.
Qed.

Lemma toUpperCase_length s : List.length (toUpperCase s) = List.length s.
Proof. apply length_map. Qed.

(** C4. For every 9-character alphanumeric CUSIP, in any letter case,
    [cusipToIsin] returns ["US"], then the CUSIP in upper case, then the
    character of the check digit the specification's algorithm gives for
    those 11 characters; and [validateIsin] accepts the result. *)
Theorem cusipToIsin_round_trip :
  forall cusip : jsstring,
    List.length cusip = 9%nat ->
    forallb alnumChar cusip = true ->
    let base := js "US" ++ toUpperCase cusip in
    let isin := base ++ [48 + spec_checkDigit base] in
    0 <= spec_checkDigit base <= 9 /\
    computeIsinCheckDigit base = inr (spec_checkDigit base) /\
    cusipToIsin cusip = inr isin /\
    validateIsin isin = mkResult true None.
Proof.
  intros cusip Hlen Haln base isin.
  assert (Hblen : List.length base = 11%nat).
  { unfold base. rewrite length_app, toUpperCase_length, Hlen. reflexivity. }
  assert (Hbv : forallb validChar base = true).
  { unfold base. rewrite forallb_app, toUpperCase_valid by assumption.
    reflexivity. }
  pose proof (spec_checkDigit_range base) as Hr.
  pose proof (computeIsinCheckDigit_spec base Hblen Hbv) as Hc.
  split; [exact Hr|]. split; [exact Hc|]. split.
  - unfold cusipToIsin.
    length_guard Hlen. cbn [negb].
    assert (Ha : alphanumeric cusip = true).
    { unfold alphanumeric. apply andb_true_iff. split; [|exact Haln].
      destruct cusip; [discriminate Hlen | reflexivity]. }
    rewrite Ha. cbn [negb]. cbv zeta. fold base. rewrite Hc.
    rewrite toString_digit by exact Hr. reflexivity.
  - assert (H12 : List.length isin = 12%nat).
    { unfold isin. rewrite length_app, Hblen. reflexivity. }
    assert (Hf : firstn 11 isin = base)
      by (apply firstn_app_exact; exact Hblen).
    assert (Hn : nth 11 isin 0 = 48 + spec_checkDigit base)
      by (apply nth_app_exact; exact Hblen).
    rewrite validateIsin_well_formed_base.
    + rewrite Hf, Hn.
      replace (48 + spec_checkDigit base - 48) with (spec_checkDigit base)
        by lia.
      rewrite Z.eqb_refl. reflexivity.
    + exact H12.
    + unfold isin, base. change (js "US") with [85; 83]. reflexivity.
    + rewrite Hn. apply is_digit_range. lia.
    + rewrite Hf. exact Hbv.
Qed.

Lemma cusipToIsin_round_trip_witness :
  cusipToIsin (js "88160r101") = inr (js "US88160R1014") /\
  validateIsin (js "US88160R1014") = mkResult true None.
Proof.
  pose proof (cusipToIsin_round_trip (js "88160r101") eq_refl eq_refl)
    as (_ & _ & H1 & H2).
  split; [exact H1 | exact H2].
Defined.

End RoundTrip.

(** ** Identifier tables *)

Section TableFacts.
Import Db.
Context {K : Type} (eqb : K -> K -> bool).
Hypothesis eqb_eq : forall a b, eqb a b = true <-> a = b.

Lemma key_eqb_refl (k : K) : eqb k k = true.
Proof. apply eqb_eq. reflexivity. Qed.

Lemma existsb_key_In (k : K) (tbl : list (ident_row K)) :
  existsb (fun r => eqb (key r) k) tbl = true <-> In k (map key tbl).
Proof.
  rewrite existsb_exists, in_map_iff. split.
  - intros (r & Hin & E). apply eqb_eq in E. eauto.
  - intros (r & E & Hin). exists r. split; [exact Hin|]. apply eqb_eq. exact E.
Qed.

Lemma selectSecurityId_None (k : K) (tbl : list (ident_row K)) :
  selectSecurityId eqb k tbl = None <-> ~ In k (map key tbl).
Proof.
  unfold selectSecurityId. rewrite <- existsb_key_In.
  induction tbl as [|r tbl IH]; simpl.
  - split; [discriminate | reflexivity].
  - destruct (eqb (key r) k); simpl.
    + split; [discriminate | intros H; exfalso; apply H; reflexivity].
    + exact IH.
Qed.

Lemma selectSecurityId_Some (k : K) (tbl : list (ident_row K)) (sid : Z) :
  selectSecurityId eqb k tbl = Some sid ->
  exists r, In r tbl /\ key r = k /\ security_id r = sid.
Proof.
  unfold selectSecurityId.
  destruct (find _ tbl) as [r|] eqn:F; simpl; [|discriminate].
  intros [= <-]. apply find_some in F. destruct F as [Hin E].
  apply eqb_eq in E. eauto.
Qed.

(** After the upsert the probe on [k] answers the id just written. *)
Lemma selectSecurityId_upsert k sid src ts (tbl : list (ident_row K)) :
  selectSecurityId eqb k (upsert eqb sid k src ts tbl) = Some sid.
Proof.
  unfold upsert, selectSecurityId.
  destruct (existsb _ tbl) eqn:Ex.
  - induction tbl as [|r tbl IH]; simpl in *; [discriminate|].
    destruct (eqb (key r) k) eqn:E; simpl.
    + rewrite E. reflexivity.
    + rewrite E. apply IH. exact Ex.
  - induction tbl as [|r tbl IH]; simpl in *.
    + rewrite key_eqb_refl. reflexivity.
    + apply orb_false_iff in Ex. destruct Ex as [E Ex].
      rewrite E. apply IH. exact Ex.
Qed.

(** An upsert of a key that has a row updates in place. *)
Lemma upsert_existing k sid src ts (tbl : list (ident_row K)) :
  In k (map key tbl) ->
  updatedInPlace k sid src ts tbl (upsert eqb sid k src ts tbl).
Proof.
  intros Hin. apply existsb_key_In in Hin. unfold upsert. rewrite Hin.
  unfold updatedInPlace. split; [apply length_map|]. split.
  - rewrite map_map. apply map_ext. intros r.
    destruct (eqb (key r) k); reflexivity.
  - split; intros n r Hn Hk; rewrite nth_error_map, Hn; simpl.
    + replace (eqb (key r) k) with false; [reflexivity|].
      symmetry. destruct (eqb (key r) k) eqn:E; [|reflexivity].
      apply eqb_eq in E. contradiction.
    + rewrite (proj2 (eqb_eq _ _) Hk). rewrite Hk. reflexivity.
Qed.

(** An upsert of a new key appends one row and touches no other. *)
Lemma upsert_new k sid src ts (tbl : list (ident_row K)) :
  ~ In k (map key tbl) ->
  upsert eqb sid k src ts tbl = tbl ++ [mkIdentRow sid k src ts].
Proof.
  intros Hin. unfold upsert.
  destruct (existsb _ tbl) eqn:Ex; [|reflexivity].
  apply existsb_key_In in Ex. contradiction.
Qed.

Lemma upsert_rows k sid src ts (tbl : list (ident_row K)) r :
  In r (upsert eqb sid k src ts tbl) ->
  (In r tbl /\ key r <> k) \/ (r = mkIdentRow sid k src ts).
Proof.
  unfold upsert. destruct (existsb _ tbl) eqn:Ex.
  - rewrite in_map_iff. intros (r0 & E & Hin).
    destruct (eqb (key r0) k) eqn:Ek.
    + apply eqb_eq in Ek. right. rewrite <- E, Ek. reflexivity.
    + left. subst r0. split; [exact Hin|].
      intros Hk. apply eqb_eq in Hk. congruence.
  - rewrite in_app_iff. intros [Hin | [<- | []]]; [left | right; reflexivity].
    split; [exact Hin|]. intros Hk.
    assert (In k (map key tbl)) by (rewrite <- Hk; apply in_map; exact Hin).
    apply existsb_key_In in H. congruence.
Qed.

(** A second upsert of the same key, id and provenance moves the time only. *)
Lemma upsert_twice k sid src t1 t2 (tbl : list (ident_row K)) :
  map forgetRowTime (upsert eqb sid k src t2 (upsert eqb sid k src t1 tbl)) =
  map forgetRowTime (upsert eqb sid k src t1 tbl).
Proof.
  set (T := upsert eqb sid k src t1 tbl).
  assert (HT : forall r, In r T -> eqb (key r) k = true ->
                         security_id r = sid /\ i_source r = src).
  { intros r Hin E. apply eqb_eq in E.
    destruct (upsert_rows _ _ _ _ _ _ Hin) as [[_ Hk] | ->];
      [contradiction | split; reflexivity]. }
  assert (Ex : existsb (fun r => eqb (key r) k) T = true).
  { apply existsb_key_In.
    destruct (selectSecurityId_Some k T sid
                (selectSecurityId_upsert k sid src t1 tbl)) as (r & Hin & E & _).
    rewrite <- E. apply in_map. exact Hin. }
  unfold upsert at 1. rewrite Ex. rewrite map_map.
  apply map_ext_in. intros r Hin.
  destruct (eqb (key r) k) eqn:E; [|reflexivity].
  destruct (HT r Hin E) as [E1 E2]. unfold forgetRowTime. simpl.
  rewrite E1, E2. reflexivity.
Qed.

Lemma upsertIf_twice x sid src t1 t2 (tbl : list (ident_row K)) :
  map forgetRowTime (upsertIf eqb x sid src t2 (upsertIf eqb x sid src t1 tbl)) =
  map forgetRowTime (upsertIf eqb x sid src t1 tbl).
Proof. destruct x; simpl; [apply upsert_twice | reflexivity]. Qed.

End TableFacts.

(** ** The store *)

Section StoreFacts.
Import Db.

Lemma ticker_key_eqb_eq (a b : ticker_key) : ticker_key_eqb a b = true <-> a = b.
Proof.
  unfold ticker_key_eqb. rewrite andb_true_iff, !jsstring_eqb_eq.
  destruct a, b; simpl. split; [intros [-> ->]; reflexivity|].
  intros [= -> ->]. split; reflexivity.
Qed.

Lemma nextRowId_above rows s : In s rows -> id s < nextRowId rows.
Proof.
  unfold nextRowId. induction rows as [|x rows IH]; cbn [fold_right map In];
    [tauto|].
  intros [-> | Hin]; [lia|]. specialize (IH Hin). lia.
Qed.

Lemma nextRowId_positive rows : 1 <= nextRowId rows.
Proof.
  unfold nextRowId.
  assert (0 <= fold_right Z.max 0 (map id rows)); [|lia].
  induction rows; cbn [fold_right map]; lia.
Qed.

Lemma nextRowId_fresh rows : ~ In (nextRowId rows) (map id rows).
Proof.
  rewrite in_map_iff. intros (s & E & Hin).
  pose proof (nextRowId_above rows s Hin). lia.
Qed.

Lemma updateSecurity_ids security ts sid rows :
  map id (updateSecurity security ts sid rows) = map id rows.
Proof.
  unfold updateSecurity. rewrite map_map. apply map_ext.
  intros s. destruct (id s =? sid); reflexivity.
Qed.

(** What [db_ok] says of a probe that answers. *)
Lemma references_probe {K} (eqb : K -> K -> bool) rows tbl k sid :
  forallb (fun s => 1 <=? id s) rows = true ->
  references rows tbl = true ->
  selectSecurityId eqb k tbl = Some sid ->
  1 <= sid /\ In sid (map id rows).
Proof.
  intros Hpos Href. unfold selectSecurityId.
  destruct (find _ tbl) as [r|] eqn:F; simpl; [|discriminate].
  intros [= <-]. apply find_some in F. destruct F as [Hin _].
  unfold references in Href. rewrite forallb_forall in Href.
  specialize (Href r Hin). apply existsb_exists in Href.
  destruct Href as (s & Hs & E). apply Z.eqb_eq in E.
  rewrite forallb_forall in Hpos. specialize (Hpos s Hs).
  apply Z.leb_le in Hpos. split; [lia|].
  rewrite <- E. apply in_map. exact Hs.
Qed.

Lemma db_ok_parts db :
  db_ok db = true ->
  forallb (fun s => 1 <=? id s) (securities db) = true /\
  uniqueIds (securities db) = true /\
  references (securities db) (identifiers_ticker db) = true /\
  references (securities db) (identifiers_isin db) = true /\
  references (securities db) (identifiers_cusip db) = true /\
  references (securities db) (identifiers_cik db) = true /\
  uniqueKeys ticker_key_eqb (identifiers_ticker db) = true /\
  uniqueKeys JsString.eqb (identifiers_isin db) = true /\
  uniqueKeys JsString.eqb (identifiers_cusip db) = true /\
  uniqueKeys JsString.eqb (identifiers_cik db) = true.
Proof. unfold db_ok. rewrite !andb_true_iff. tauto. Qed.

Lemma probeTicker_ok db security sid :
  db_ok db = true -> probeTicker db security = Some sid ->
  1 <= sid /\ In sid (map id (securities db)).
Proof.
  intros Hok. apply db_ok_parts in Hok. apply references_probe; tauto.
Qed.

Lemma probeIsin_ok db security sid :
  db_ok db = true -> probeIsin db security = Some sid ->
  1 <= sid /\ In sid (map id (securities db)).
Proof.
  intros Hok. apply db_ok_parts in Hok. unfold probeIsin.
  destruct (orNull (isin security)); [|discriminate].
  apply references_probe; tauto.
Qed.

Lemma probeCusip_ok db security sid :
  db_ok db = true -> probeCusip db security = Some sid ->
  1 <= sid /\ In sid (map id (securities db)).
Proof.
  intros Hok. apply db_ok_parts in Hok. unfold probeCusip.
  destruct (orNull (cusip security)); [|discriminate].
  apply references_probe; tauto.
Qed.

Lemma notId_positive sid : 1 <= sid -> notId (Some sid) = false.
Proof. intros H. simpl. apply Z.eqb_neq. lia. Qed.

(** The code's chain of guarded probes is the first answer of the three. *)
Lemma findExisting_first_match db security :
  db_ok db = true ->
  findExisting db security =
  match probeTicker db security with
  | Some s => Some s
  | None =>
      match probeIsin db security with
      | Some s => Some s
      | None => probeCusip db security
      end
  end.
Proof.
  intros Hok.
  pose proof (probeTicker_ok db security) as HT.
  pose proof (probeIsin_ok db security) as HI.
  unfold findExisting. fold (probeTicker db security).
  unfold probeIsin, probeCusip in *.
  destruct (probeTicker db security) as [s|].
  - destruct (HT s Hok eq_refl) as [Hs _].
    rewrite (notId_positive s Hs).
    destruct (orNull (isin security)); destruct (orNull (cusip security));
      rewrite ?(notId_positive s Hs); reflexivity.
  - destruct (orNull (isin security)) as [i|].
    + cbn [notId].
      destruct (selectSecurityId JsString.eqb i (identifiers_isin db))
        as [s|] eqn:E.
      * destruct (HI s Hok eq_refl) as [Hs _].
        destruct (orNull (cusip security));
          rewrite ?(notId_positive s Hs); reflexivity.
      * destruct (orNull (cusip security)) as [c|]; [|reflexivity].
        cbn [notId].
        destruct (selectSecurityId JsString.eqb c (identifiers_cusip db));
          reflexivity.
    + destruct (orNull (cusip security)) as [c|]; [|reflexivity].
      cbn [notId].
      destruct (selectSecurityId JsString.eqb c (identifiers_cusip db));
        reflexivity.
Qed.

Lemma findExisting_ok db security sid :
  db_ok db = true -> findExisting db security = Some sid ->
  1 <= sid /\ In sid (map id (securities db)).
Proof.
  intros Hok. rewrite findExisting_first_match by exact Hok.
  destruct (probeTicker db security) as [s|] eqn:ET.
  - intros [= <-]. eapply probeTicker_ok; eassumption.
  - destruct (probeIsin db security) as [s|] eqn:EI.
    + intros [= <-]. eapply probeIsin_ok; eassumption.
    + apply probeCusip_ok. exact Hok.
Qed.

Lemma insertSecurity_found db security ts sid :
  findExisting db security = Some sid -> 1 <= sid ->
  insertSecurity db security ts =
  (upsertAll db security (updateSecurity security ts sid (securities db)) sid ts,
   sid).
Proof.
  intros E Hs. unfold insertSecurity. rewrite E, (notId_positive sid Hs).
  reflexivity.
Qed.

Lemma insertSecurity_new db security ts :
  findExisting db security = None ->
  insertSecurity db security ts =
  (upsertAll db security
     (securities db ++
        [newSecurityRow security (nextRowId (securities db)) ts])
     (nextRowId (securities db)) ts,
   nextRowId (securities db)).
Proof. intros E. unfold insertSecurity. rewrite E. reflexivity. Qed.

(** Whatever the branch, the identifier tables are upserted with the
    returned id. *)
Lemma insertSecurity_tables db security ts :
  db_ok db = true ->
  exists securities',
    insertSecurity db security ts =
    (upsertAll db security securities'
       (snd (insertSecurity db security ts)) ts,
     snd (insertSecurity db security ts)) /\
    1 <= snd (insertSecurity db security ts).
Proof.
  intros Hok. destruct (findExisting db security) as [sid|] eqn:E.
  - destruct (findExisting_ok db security sid Hok E) as [Hs _].
    rewrite (insertSecurity_found db security ts sid E Hs).
    eexists. split; [reflexivity | exact Hs].
  - rewrite (insertSecurity_new db security ts E).
    eexists. split; [reflexivity | apply nextRowId_positive].
Qed.

End StoreFacts.

Section ProbeOrder.
Import Db.

Lemma insertSecurity_attaches db security ts :
  db_ok db = true ->
  let db' := fst (insertSecurity db security ts) in
  let sid := snd (insertSecurity db security ts) in
  probeTicker db' security = Some sid /\
  (orNull (isin security) <> None -> probeIsin db' security = Some sid) /\
  (orNull (cusip security) <> None -> probeCusip db' security = Some sid).
Proof.
  intros Hok db' sid.
  destruct (insertSecurity_tables db security ts Hok) as (secs & E & _).
  fold sid in E. unfold db'. rewrite E. cbn [fst].
  unfold probeTicker, probeIsin, probeCusip, upsertAll.
  cbn [identifiers_ticker identifiers_isin identifiers_cusip].
  split; [apply selectSecurityId_upsert, ticker_key_eqb_eq|].
  split; intros H.
  - destruct (orNull (isin security)); [|contradiction].
    apply selectSecurityId_upsert, jsstring_eqb_eq.
  - destruct (orNull (cusip security)); [|contradiction].
    apply selectSecurityId_upsert, jsstring_eqb_eq.
Qed.

Lemma insertSecurity_existing db security ts s :
  db_ok db = true -> findExisting db security = Some s ->
  snd (insertSecurity db security ts) = s /\
  In s (map id (securities db)) /\
  map id (securities (fst (insertSecurity db security ts))) =
  map id (securities db).
Proof.
  intros Hok E. destruct (findExisting_ok db security s Hok E) as [Hs Hin].
  rewrite (insertSecurity_found db security ts s E Hs). cbn [fst snd].
  split; [reflexivity|]. split; [exact Hin|].
  apply updateSecurity_ids.
Qed.

(** C2. [insertSecurity] finds the Security to attach to by three probes in
    order: (ticker, exchange); then, if that found nothing, the ISIN when
    one is supplied; then, if that found nothing either, the CUSIP when one
    is supplied.  The first probe that answers gives the id returned, no
    Security row is added, and that id is one of the existing rows.  If no
    probe answers, one Security row is appended with a fresh id, which is
    returned.  In every case the identifiers of the record point at the
    returned id afterwards.  (An identifier is supplied when it is present
    and not the empty string; the database satisfies the schema.) *)
Theorem insertSecurity_probe_order :
  forall db security ts,
    db_ok db = true ->
    let db' := fst (insertSecurity db security ts) in
    let sid := snd (insertSecurity db security ts) in
    (forall s, probeTicker db security = Some s ->
       sid = s /\ In s (map id (securities db)) /\
       map id (securities db') = map id (securities db)) /\
    (forall s, probeTicker db security = None ->
       probeIsin db security = Some s ->
       sid = s /\ In s (map id (securities db)) /\
       map id (securities db') = map id (securities db)) /\
    (forall s, probeTicker db security = None ->
       probeIsin db security = None ->
       probeCusip db security = Some s ->
       sid = s /\ In s (map id (securities db)) /\
       map id (securities db') = map id (securities db)) /\
    (probeTicker db security = None ->
     probeIsin db security = None ->
     probeCusip db security = None ->
     ~ In sid (map id (securities db)) /\
     securities db' = securities db ++ [newSecurityRow security sid ts]) /\
    probeTicker db' security = Some sid /\
    (orNull (isin security) <> None -> probeIsin db' security = Some sid) /\
    (orNull (cusip security) <> None -> probeCusip db' security = Some sid).
Proof.
  intros db security ts Hok db' sid.
  pose proof (findExisting_first_match db security Hok) as F.
  split; [|split; [|split; [|split]]].
  - intros s E. rewrite E in F.
    apply insertSecurity_existing; assumption.
  - intros s E1 E2. rewrite E1, E2 in F.
    apply insertSecurity_existing; assumption.
  - intros s E1 E2 E3. rewrite E1, E2, E3 in F.
    apply insertSecurity_existing; assumption.
  - intros E1 E2 E3. rewrite E1, E2, E3 in F.
    unfold sid, db'. rewrite (insertSecurity_new db security ts F).
    cbn [fst snd upsertAll securities].
    split; [apply nextRowId_fresh | reflexivity].
  - apply insertSecurity_attaches. exact Hok.
Qed.

Lemma insertSecurity_probe_order_witness :
  snd (insertSecurity
         (fst (insertSecurity
                 (fst (insertSecurity initDatabase
                         (listing "Apple Inc." "AAPL" "NASDAQ" "US0378331005")
                         100))
                 (listing "Microsoft" "MSFT" "NASDAQ" "US5949181045") 200))
         (listing "Apple" "AAPL" "NASDAQ" "US5949181045") 300) = 1.
Proof.
  pose proof (insertSecurity_probe_order
    (fst (insertSecurity
            (fst (insertSecurity initDatabase
                    (listing "Apple Inc." "AAPL" "NASDAQ" "US0378331005") 100))
            (listing "Microsoft" "MSFT" "NASDAQ" "US5949181045") 200))
    (listing "Apple" "AAPL" "NASDAQ" "US5949181045") 300 eq_refl)
    as (H & _).
  destruct (H 1 eq_refl) as (E & _). exact E.
Defined.

End ProbeOrder.

(** ** The schema is an invariant of the store *)

Section SchemaFacts.
Import Db.

Lemma idsPositive_iff rows :
  forallb (fun s => 1 <=? id s) rows = true <->
  (forall i, In i (map id rows) -> 1 <= i).
Proof.
  rewrite forallb_forall. split.
  - intros H i Hin. apply in_map_iff in Hin. destruct Hin as (s & <- & Hs).
    apply Z.leb_le, H, Hs.
  - intros H s Hs. apply Z.leb_le, H, in_map, Hs.
Qed.

Lemma uniqueIds_iff rows : uniqueIds rows = true <-> NoDup (map id rows).
Proof.
  induction rows as [|s rows IH]; simpl.
  - split; [constructor | reflexivity].
  - rewrite andb_true_iff, negb_true_iff, NoDup_cons_iff, IH.
    assert (E : existsb (fun s' => id s' =? id s) rows = false <->
                ~ In (id s) (map id rows)).
    { rewrite <- not_true_iff_false, existsb_exists, in_map_iff.
      split; intros H (x & A & B); apply H; exists x.
      - split; [exact B | apply Z.eqb_eq; exact A].
      - split; [apply Z.eqb_eq; exact B | exact A]. }
    rewrite E. reflexivity.
Qed.

Lemma references_iff {K} rows (tbl : list (ident_row K)) :
  references rows tbl = true <-> refersTo (map id rows) tbl.
Proof.
  unfold references, refersTo. rewrite forallb_forall.
  split; intros H r Hr; specialize (H r Hr).
  - apply existsb_exists in H. destruct H as (s & Hs & E).
    apply Z.eqb_eq in E. rewrite <- E. apply in_map, Hs.
  - apply in_map_iff in H. destruct H as (s & E & Hs).
    apply existsb_exists. exists s. split; [exact Hs | apply Z.eqb_eq, E].
Qed.

Lemma uniqueKeys_iff {K} (eqb : K -> K -> bool)
    (eqb_eq : forall a b, eqb a b = true <-> a = b) (tbl : list (ident_row K)) :
  uniqueKeys eqb tbl = true <-> NoDup (map key tbl).
Proof.
  induction tbl as [|r tbl IH]; simpl.
  - split; [constructor | reflexivity].
  - rewrite andb_true_iff, negb_true_iff, NoDup_cons_iff, IH.
    rewrite <- not_true_iff_false, (existsb_key_In eqb eqb_eq). reflexivity.
Qed.

Lemma db_ok_schema db : db_ok db = true <-> schema db.
Proof.
  unfold db_ok, schema. rewrite !andb_true_iff.
  rewrite idsPositive_iff, uniqueIds_iff, !references_iff.
  rewrite (uniqueKeys_iff _ ticker_key_eqb_eq).
  rewrite !(uniqueKeys_iff _ jsstring_eqb_eq). tauto.
Qed.

Lemma upsert_keys_NoDup {K} (eqb : K -> K -> bool)
    (eqb_eq : forall a b, eqb a b = true <-> a = b) k sid src ts
    (tbl : list (ident_row K)) :
  NoDup (map key tbl) -> NoDup (map key (upsert eqb sid k src ts tbl)).
Proof.
  intros H. destruct (existsb (fun r => eqb (key r) k) tbl) eqn:Ex.
  - apply (existsb_key_In eqb eqb_eq) in Ex.
    destruct (upsert_existing eqb eqb_eq k sid src ts tbl Ex) as (_ & -> & _).
    exact H.
  - assert (Hn : ~ In k (map key tbl)).
    { rewrite <- (existsb_key_In eqb eqb_eq). congruence. }
    rewrite (upsert_new eqb eqb_eq k sid src ts tbl Hn), map_app.
    apply NoDup_app; [exact H | repeat constructor; simpl; tauto |].
    intros a Ha [<- | []]. contradiction.
Qed.

Lemma upsert_refersTo {K} (eqb : K -> K -> bool)
    (eqb_eq : forall a b, eqb a b = true <-> a = b) k sid src ts
    (tbl : list (ident_row K)) ids ids' :
  refersTo ids tbl -> incl ids ids' -> In sid ids' ->
  refersTo ids' (upsert eqb sid k src ts tbl).
Proof.
  intros H Hincl Hsid r Hr.
  destruct (upsert_rows eqb eqb_eq k sid src ts tbl r Hr) as [[Hin _] | ->].
  - apply Hincl, H, Hin.
  - exact Hsid.
Qed.

Lemma upsertIf_keys_NoDup x sid src ts (tbl : list (ident_row jsstring)) :
  NoDup (map key tbl) ->
  NoDup (map key (upsertIf JsString.eqb x sid src ts tbl)).
Proof.
  destruct x; simpl; [apply upsert_keys_NoDup, jsstring_eqb_eq | tauto].
Qed.

Lemma upsertIf_refersTo x sid src ts (tbl : list (ident_row jsstring)) ids ids' :
  refersTo ids tbl -> incl ids ids' -> In sid ids' ->
  refersTo ids' (upsertIf JsString.eqb x sid src ts tbl).
Proof.
  destruct x; simpl.
  - apply upsert_refersTo, jsstring_eqb_eq.
  - intros H Hincl _ r Hr. apply Hincl, H, Hr.
Qed.

Lemma schema_upsertAll db security secs sid ts :
  schema db ->
  (forall i, In i (map id secs) -> 1 <= i) ->
  NoDup (map id secs) ->
  incl (map id (securities db)) (map id secs) ->
  In sid (map id secs) ->
  schema (upsertAll db security secs sid ts).
Proof.
  intros (_ & _ & R1 & R2 & R3 & R4 & U1 & U2 & U3 & U4) Hpos Hnd Hincl Hsid.
  unfold schema, upsertAll.
  cbn [securities identifiers_ticker identifiers_isin identifiers_cusip
       identifiers_cik].
  repeat split; try assumption.
  - eapply upsert_refersTo; eauto using ticker_key_eqb_eq.
  - eapply upsertIf_refersTo; eauto.
  - eapply upsertIf_refersTo; eauto.
  - eapply upsertIf_refersTo; eauto.
  - apply upsert_keys_NoDup; [apply ticker_key_eqb_eq | exact U1].
  - apply upsertIf_keys_NoDup; exact U2.
  - apply upsertIf_keys_NoDup; exact U3.
  - apply upsertIf_keys_NoDup; exact U4.
Qed.

(** [insertSecurity] keeps the schema. *)
Lemma db_ok_insertSecurity db security ts :
  db_ok db = true -> db_ok (fst (insertSecurity db security ts)) = true.
Proof.
  intros Hok. pose proof (proj1 (db_ok_schema db) Hok) as Hs.
  apply db_ok_schema.
  destruct (findExisting db security) as [sid|] eqn:E.
  - destruct (findExisting_ok db security sid Hok E) as [Hpos Hin].
    rewrite (insertSecurity_found db security ts sid E Hpos). cbn [fst].
    destruct Hs as (P & N & _).
    apply schema_upsertAll; rewrite ?updateSecurity_ids;
      auto using incl_refl.
    apply db_ok_schema; exact Hok.
  - rewrite (insertSecurity_new db security ts E). cbn [fst].
    destruct Hs as (P & N & _).
    apply schema_upsertAll; rewrite ?map_app; cbn [map newSecurityRow id].
    + apply db_ok_schema; exact Hok.
    + intros i Hi. apply in_app_iff in Hi. destruct Hi as [Hi | [<- | []]];
        [apply P, Hi | apply nextRowId_positive].
    + apply NoDup_app; [exact N | repeat constructor; simpl; tauto |].
      intros a Ha [<- | []]. exact (nextRowId_fresh _ Ha).
    + apply incl_appl, incl_refl.
    + apply in_app_iff. right. left. reflexivity.
Qed.

(** Every database the program builds satisfies the schema. *)
Lemma reachable_db_ok db : reachable db -> db_ok db = true.
Proof.
  induction 1 as [|db security ts _ IH]; [reflexivity|].
  apply db_ok_insertSecurity, IH.
Qed.

End SchemaFacts.

Section UpsertClaims.
Import Db.

Lemma rowCounts_forgetTimestamps db :
  rowCounts (forgetTimestamps db) = rowCounts db.
Proof.
  unfold rowCounts, forgetTimestamps.
  cbn [securities identifiers_ticker identifiers_isin identifiers_cusip
       identifiers_cik].
  rewrite !length_map. reflexivity.
Qed.

(** Updating a Security whose descriptive fields already are the record's
    moves [updated_at] only. *)
Lemma updateSecurity_same security ts sid rows :
  (forall s, In s rows -> id s = sid ->
     s_name s = name security /\
     s_security_type s = orNull (security_type security) /\
     s_market_sector s = orNull (market_sector security)) ->
  map forgetSecurityTime (updateSecurity security ts sid rows) =
  map forgetSecurityTime rows.
Proof.
  intros H. unfold updateSecurity. rewrite map_map.
  apply map_ext_in. intros s Hs.
  destruct (Z.eqb_spec (id s) sid) as [E | E]; [|reflexivity].
  destruct (H s Hs E) as (E1 & E2 & E3).
  unfold forgetSecurityTime. simpl. rewrite E1, E2, E3. reflexivity.
Qed.

Lemma updateSecurity_fields security ts sid rows s :
  In s (updateSecurity security ts sid rows) -> id s = sid ->
  s_name s = name security /\
  s_security_type s = orNull (security_type security) /\
  s_market_sector s = orNull (market_sector security).
Proof.
  unfold updateSecurity. rewrite in_map_iff. intros (s0 & E & _) Hid.
  destruct (Z.eqb_spec (id s0) sid) as [E0 | E0].
  - subst s. simpl. repeat split.
  - subst s. contradiction.
Qed.

Lemma upsertAll_twice db security secs secs' sid t1 t2 :
  map forgetSecurityTime secs' = map forgetSecurityTime secs ->
  forgetTimestamps
    (upsertAll (upsertAll db security secs sid t1) security secs' sid t2) =
  forgetTimestamps (upsertAll db security secs sid t1).
Proof.
  intros H. unfold forgetTimestamps, upsertAll.
  cbn [securities identifiers_ticker identifiers_isin identifiers_cusip
       identifiers_cik].
  rewrite H.
  rewrite (upsert_twice ticker_key_eqb ticker_key_eqb_eq).
  rewrite !(upsertIf_twice JsString.eqb jsstring_eqb_eq).
  reflexivity.
Qed.

(** The second of two calls with one record finds the Security of the
    first and changes nothing but times. *)
Lemma insertSecurity_twice db security t1 t2 :
  db_ok db = true ->
  snd (insertSecurity (fst (insertSecurity db security t1)) security t2) =
  snd (insertSecurity db security t1) /\
  forgetTimestamps
    (fst (insertSecurity (fst (insertSecurity db security t1)) security t2)) =
  forgetTimestamps (fst (insertSecurity db security t1)).
Proof.
  intros Hok.
  pose proof (db_ok_insertSecurity db security t1 Hok) as Hok1.
  destruct (insertSecurity_attaches db security t1 Hok) as (HT & _).
  pose proof (findExisting_first_match _ security Hok1) as F.
  rewrite HT in F.
  destruct (findExisting_ok _ security _ Hok1 F) as [Hpos _].
  rewrite (insertSecurity_found _ security t2 _ F Hpos). cbn [fst snd].
  split; [reflexivity|]. clear HT F Hok1.
  destruct (findExisting db security) as [sid|] eqn:E.
  - destruct (findExisting_ok db security sid Hok E) as [Hs _].
    rewrite (insertSecurity_found db security t1 sid E Hs). cbn [fst snd].
    cbn [upsertAll securities]. apply upsertAll_twice.
    apply updateSecurity_same. intros s Hin Hid.
    eapply updateSecurity_fields; eassumption.
  - rewrite (insertSecurity_new db security t1 E). cbn [fst snd].
    cbn [upsertAll securities]. apply upsertAll_twice.
    apply updateSecurity_same. intros s Hin Hid.
    apply in_app_iff in Hin. destruct Hin as [Hin | [<- | []]].
    + pose proof (nextRowId_above _ s Hin). lia.
    + repeat split.
Qed.

(** C3. Two calls of [insertSecurity] in succession with one record: the
    second returns the id of the first, leaves the row count of [securities]
    and of each identifier table (ticker, ISIN, CUSIP, CIK) as the first
    call left it, and changes nothing but [updated_at] and [fetched_at]. *)
Theorem insertSecurity_idempotent :
  forall db security t1 t2,
    db_ok db = true ->
    let first := insertSecurity db security t1 in
    let second := insertSecurity (fst first) security t2 in
    snd second = snd first /\
    rowCounts (fst second) = rowCounts (fst first) /\
    forgetTimestamps (fst second) = forgetTimestamps (fst first).
Proof.
  intros db security t1 t2 Hok first second.
  destruct (insertSecurity_twice db security t1 t2 Hok) as [E1 E2].
  fold first in E1, E2. fold second in E1, E2.
  split; [exact E1|]. split; [|exact E2].
  rewrite <- (rowCounts_forgetTimestamps (fst second)), E2.
  apply rowCounts_forgetTimestamps.
Qed.

Lemma insertSecurity_idempotent_witness :
  rowCounts
    (fst (insertSecurity
            (fst (insertSecurity initDatabase (apple (js "fmp")) 100))
            (apple (js "fmp")) 200)) =
  (1%nat, 1%nat, 1%nat, 1%nat, 0%nat).
Proof.
  destruct (insertSecurity_idempotent initDatabase (apple (js "fmp")) 100 200
              eq_refl) as (_ & E & _).
  exact E.
Defined.

(** C5, as stated, fails: the row of an ISIN observed again under the ticker
    of another Security keeps its place and its value, but its Security
    reference moves from 2 to 1, not only its provenance and time. *)
Lemma insertSecurity_repoints_existing_row :
  let db :=
    fst (insertSecurity
           (fst (insertSecurity initDatabase
                   (listing "Apple Inc." "AAPL" "NASDAQ" "US0378331005") 100))
           (listing "Microsoft" "MSFT" "NASDAQ" "US5949181045") 200) in
  let db' :=
    fst (insertSecurity db (listing "Apple" "AAPL" "NASDAQ" "US5949181045")
           300) in
  db_ok db = true /\
  exists before after,
    nth_error (identifiers_isin db) 1 = Some before /\
    key before = js "US5949181045" /\
    nth_error (identifiers_isin db') 1 = Some after /\
    key after = js "US5949181045" /\
    security_id before = 2 /\ security_id after = 1 /\
    ~ onlyProvenanceAndTime before after.
Proof.
  split; [reflexivity|].
  eexists. eexists.
  split; [vm_compute; reflexivity|]. split; [reflexivity|].
  split; [vm_compute; reflexivity|]. split; [reflexivity|].
  split; [reflexivity|]. split; [reflexivity|].
  intros [H _]. discriminate H.
Qed.

(** C5, amended.  When [insertSecurity] is given an identifier that already
    has a row in its table (a (ticker, exchange) pair, an ISIN, a CUSIP or a
    CIK), that row is updated in place: the table keeps its row count and
    its keys, every other row is untouched, and the row of the identifier
    gets the returned Security id, the record's provenance and the call's
    time, whatever source wrote it before.  Primary keys stay unique, so no
    second row for one value exists afterwards. *)
Theorem insertSecurity_updates_in_place :
  forall db security ts,
    db_ok db = true ->
    let db' := fst (insertSecurity db security ts) in
    let sid := snd (insertSecurity db security ts) in
    let src := source security in
    (In (ticker security, exchange security)
        (map key (identifiers_ticker db)) ->
     updatedInPlace (ticker security, exchange security) sid src ts
       (identifiers_ticker db) (identifiers_ticker db')) /\
    (forall i, orNull (isin security) = Some i ->
       In i (map key (identifiers_isin db)) ->
       updatedInPlace i sid src ts (identifiers_isin db) (identifiers_isin db')) /\
    (forall c, orNull (cusip security) = Some c ->
       In c (map key (identifiers_cusip db)) ->
       updatedInPlace c sid src ts
         (identifiers_cusip db) (identifiers_cusip db')) /\
    (forall k, orNull (cik security) = Some k ->
       In k (map key (identifiers_cik db)) ->
       updatedInPlace k sid src ts (identifiers_cik db) (identifiers_cik db')) /\
    NoDup (map key (identifiers_ticker db')) /\
    NoDup (map key (identifiers_isin db')) /\
    NoDup (map key (identifiers_cusip db')) /\
    NoDup (map key (identifiers_cik db')).
Proof.
  intros db security ts Hok db' sid src.
  pose proof (db_ok_insertSecurity db security ts Hok) as Hok'.
  apply db_ok_schema in Hok'. fold db' in Hok'.
  destruct Hok' as (_ & _ & _ & _ & _ & _ & U1 & U2 & U3 & U4).
  destruct (insertSecurity_tables db security ts Hok) as (secs & E & _).
  fold sid in E.
  assert (Edb : db' = upsertAll db security secs sid ts)
    by (unfold db'; rewrite E; reflexivity).
  split; [|split; [|split; [|split; [|repeat split; assumption]]]];
    clear U1 U2 U3 U4.
  - intros Hin. rewrite Edb. cbn [upsertAll identifiers_ticker].
    apply upsert_existing; [apply ticker_key_eqb_eq | exact Hin].
  - intros i Hi Hin. rewrite Edb. cbn [upsertAll identifiers_isin].
    rewrite Hi. apply upsert_existing; [apply jsstring_eqb_eq | exact Hin].
  - intros c Hc Hin. rewrite Edb. cbn [upsertAll identifiers_cusip].
    rewrite Hc. apply upsert_existing; [apply jsstring_eqb_eq | exact Hin].
  - intros k Hk Hin. rewrite Edb. cbn [upsertAll identifiers_cik].
    rewrite Hk. apply upsert_existing; [apply jsstring_eqb_eq | exact Hin].
Qed.

Lemma insertSecurity_updates_in_place_witness :
  nth_error
    (identifiers_isin
       (fst (insertSecurity
               (fst (insertSecurity initDatabase (apple (js "fmp")) 100))
               (apple (js "sec")) 200))) 0 =
  Some (mkIdentRow 1 (js "US0378331005") (js "sec") 200).
Proof.
  destruct (insertSecurity_updates_in_place
              (fst (insertSecurity initDatabase (apple (js "fmp")) 100))
              (apple (js "sec")) 200 eq_refl)
    as (_ & H & _).
  destruct (H (js "US0378331005") eq_refl (or_introl eq_refl))
    as (_ & _ & _ & Hrow).
  exact (Hrow 0%nat _ eq_refl eq_refl).
Defined.

(** C6. From an empty store, after [insertSecurity] of Apple's record:
    [lookupByTicker("AAPL", "NASDAQ")] returns a record with isin
    US0378331005 and cusip 037833100; [lookupByIsin("US0378331005")] returns
    a record with ticker AAPL; [lookupByCusip("037833100")] returns a record
    with the id of both, the one [insertSecurity] returned. *)
Theorem end_to_end_read_your_writes :
  forall (src : jsstring) (ts : Z),
    let db := fst (insertSecurity initDatabase (apple src) ts) in
    let sid := snd (insertSecurity initDatabase (apple src) ts) in
    let byTicker := lookupByTicker db (js "AAPL") (Some (js "NASDAQ")) in
    let byIsin := lookupByIsin db (js "US0378331005") in
    let byCusip := lookupByCusip db (js "037833100") in
    option_map r_isin byTicker = Some (Some (js "US0378331005")) /\
    option_map r_cusip byTicker = Some (Some (js "037833100")) /\
    option_map r_ticker byIsin = Some (Some (js "AAPL")) /\
    option_map r_id byCusip = Some sid /\
    option_map r_id byTicker = Some sid /\
    option_map r_id byIsin = Some sid.
Proof.
  intros src ts. repeat split; vm_compute; reflexivity.
Qed.

End UpsertClaims.

(** ** Lookups *)

Section LookupFacts.
Import Db.

Lemma get_flat_map {A B} (f : A -> list B) (l : list A) x l' y ys :
  l = x :: l' -> f x = y :: ys -> get (flat_map f l) = Some y.
Proof. intros -> E. simpl. rewrite E. reflexivity. Qed.

Lemma leftJoin_cons {K} sid (tbl : list (ident_row K)) :
  exists o rest, leftJoin sid tbl = o :: rest.
Proof.
  unfold leftJoin. destruct (filter _ tbl) as [|r rows]; simpl; eauto.
Qed.

(** The three left joins always yield a row. *)
Lemma leftJoins_cons {K1 K2 K3 T}
    (t1 : list (ident_row K1)) (t2 : list (ident_row K2))
    (t3 : list (ident_row K3)) sid
    (row : option (ident_row K1) -> option (ident_row K2) ->
           option (ident_row K3) -> T) :
  exists a b c rest,
    flat_map (fun a => flat_map (fun b => map (fun c => row a b c)
                                            (leftJoin sid t3))
                         (leftJoin sid t2))
      (leftJoin sid t1) = row a b c :: rest.
Proof.
  destruct (leftJoin_cons sid t1) as (a & ra & ->).
  destruct (leftJoin_cons sid t2) as (b & rb & ->).
  destruct (leftJoin_cons sid t3) as (c & rc & ->).
  exists a, b, c. simpl. eauto.
Qed.

Lemma filter_nil_iff {A} (f : A -> bool) (l : list A) :
  filter f l = [] <-> forall x, In x l -> f x = false.
Proof.
  induction l as [|x l IH]; simpl; [tauto|].
  destruct (f x) eqn:E.
  - split; [discriminate|]. intros H. specialize (H x (or_introl eq_refl)).
    congruence.
  - rewrite IH. split; [intros H y [<- | Hy]; auto | auto].
Qed.

(** C9. Without an exchange argument (absent, or the empty string),
    [lookupByTicker] returns one record whenever a row of
    [identifiers_ticker] has the ticker, on whatever exchange: the record
    carries the ticker, and the exchange and Security id of such a row.  When
    no row has the ticker it returns [null], with or without an exchange. *)
Theorem lookupByTicker_exchange_optional :
  forall db ticker,
    db_ok db = true ->
    (forall exchange,
        orNull exchange = None ->
        (exists t, In t (identifiers_ticker db) /\ fst (key t) = ticker) ->
        exists r t,
          lookupByTicker db ticker exchange = Some r /\
          In t (identifiers_ticker db) /\ fst (key t) = ticker /\
          r_ticker r = Some ticker /\
          r_exchange r = Some (snd (key t)) /\
          r_id r = security_id t) /\
    (forall exchange,
        (forall t, In t (identifiers_ticker db) -> fst (key t) <> ticker) ->
        lookupByTicker db ticker exchange = None).
Proof.
  intros db ticker Hok. split.
  - intros exchange Hex (t0 & Hin0 & Hk0).
    unfold lookupByTicker. rewrite Hex.
    set (where_ := fun t : ident_row ticker_key =>
                     JsString.eqb (fst (key t)) ticker).
    destruct (filter where_ (identifiers_ticker db)) as [|t rows] eqn:F.
    { exfalso. rewrite filter_nil_iff in F. specialize (F t0 Hin0).
      unfold where_ in F. rewrite Hk0, jsstring_eqb_refl in F. discriminate. }
    assert (Ht : In t (identifiers_ticker db) /\ where_ t = true).
    { apply filter_In. rewrite F. left. reflexivity. }
    destruct Ht as [Hin Hw]. unfold where_ in Hw. apply jsstring_eqb_eq in Hw.
    apply db_ok_schema in Hok. destruct Hok as (_ & _ & R & _).
    specialize (R t Hin). apply in_map_iff in R. destruct R as (s0 & Es0 & Hs0).
    destruct (joinSecurity (security_id t) (securities db)) as [|s srows] eqn:J.
    { exfalso. unfold joinSecurity in J. rewrite filter_nil_iff in J.
      specialize (J s0 Hs0). rewrite Es0, Z.eqb_refl in J. discriminate. }
    assert (Hs : id s = security_id t).
    { assert (In s (joinSecurity (security_id t) (securities db)))
        by (rewrite J; left; reflexivity).
      unfold joinSecurity in H. apply filter_In in H. destruct H as [_ H].
      apply Z.eqb_eq in H. symmetry. exact H. }
    destruct (leftJoins_cons (identifiers_isin db) (identifiers_cusip db)
                (identifiers_cik db) (id s)
                (fun i c k => (t, s, i, c, k))) as (i & c & k & rest & E).
    erewrite get_flat_map; [| reflexivity |].
    2:{ rewrite J. cbn [flat_map]. rewrite E. cbn [app]. reflexivity. }
    eexists. exists t. split; [reflexivity|]. cbn [r_ticker r_exchange r_id].
    rewrite Hw. repeat split; assumption.
  - intros exchange Hnone. unfold lookupByTicker.
    match goal with
    | |- context [filter ?w (identifiers_ticker db)] =>
        assert (F : filter w (identifiers_ticker db) = [])
    end.
    { apply filter_nil_iff. intros t Hin. specialize (Hnone t Hin).
      apply jsstring_eqb_neq in Hnone. rewrite Hnone.
      destruct (orNull exchange); reflexivity. }
    rewrite F. reflexivity.
Qed.

Lemma lookupByTicker_exchange_optional_witness :
  (exists r,
      lookupByTicker (fst (insertSecurity initDatabase (apple (js "fmp")) 100))
        (js "AAPL") None = Some r /\
      r_ticker r = Some (js "AAPL")) /\
  lookupByTicker (fst (insertSecurity initDatabase (apple (js "fmp")) 100))
    (js "MSFT") None = None.
Proof.
  destruct (lookupByTicker_exchange_optional
              (fst (insertSecurity initDatabase (apple (js "fmp")) 100))
              (js "AAPL") eq_refl) as (Hfound & _).
  destruct (lookupByTicker_exchange_optional
              (fst (insertSecurity initDatabase (apple (js "fmp")) 100))
              (js "MSFT") eq_refl) as (_ & Hnone).
  split.
  - destruct (Hfound None eq_refl
                (ex_intro _ (mkIdentRow 1 (js "AAPL", js "NASDAQ") (js "fmp") 100)
                   (conj (or_introl eq_refl) eq_refl)))
      as (r & t & E & _ & _ & Et & _).
    exists r. split; [exact E | exact Et].
  - apply Hnone. intros t [<- | []]. vm_compute. discriminate.
Defined.

End LookupFacts.

(** ** The FMP client *)

Section FmpClaims.
Import Fmp.

(** C10. Once the call has a response (so the API key was not blank),
    [fetchTickerProfile] throws [FmpRateLimitError] when the status is 429,
    and also when the status is 200 and the body is a one-element array
    whose element is an object with a string [message] containing
    ["rate limit"].  That error is not a plain [FmpApiError] (its name
    differs and its status code is 429), and in neither case is a security
    record returned. *)
Theorem fetchTickerProfile_rate_limited :
  forall (ticker apiKey : jsstring) (response : Response),
    negb (truthy apiKey) || trim_is_empty apiKey = false ->
    (status response = 429 \/
     (status response = 200 /\
      exists fields m,
        json_ response = inr (JArray [JObject fields]) /\
        lookup (js "message") fields = Some (JString m) /\
        includes (js "rate limit") m = true)) ->
    fetchTickerProfile ticker apiKey (Fetched response) =
    inl (FmpRateLimitError rateLimitMessage) /\
    (forall data, fetchTickerProfile ticker apiKey (Fetched response) <>
                  inr data) /\
    (forall m c, errorName (FmpRateLimitError rateLimitMessage) <>
                 errorName (FmpApiError m c)) /\
    statusCodeOf (FmpRateLimitError rateLimitMessage) = Some 429.
Proof.
  intros ticker apiKey response Hkey Hcase.
  assert (E : fetchTickerProfile ticker apiKey (Fetched response) =
              inl (FmpRateLimitError rateLimitMessage)).
  { unfold fetchTickerProfile. rewrite Hkey.
    destruct Hcase as [H429 | (H200 & fields & m & Hbody & Hmsg & Hinc)].
    - unfold ok. rewrite H429. reflexivity.
    - unfold ok. rewrite H200, Hbody. cbn [Z.leb Z.compare andb negb].
      unfold rateLimitBody. rewrite Hmsg, Hinc. reflexivity. }
  split; [exact E|]. split; [intros data; rewrite E; discriminate|].
  split; [|reflexivity].
  intros m c H. vm_compute in H. discriminate H.
Qed.

Lemma fetchTickerProfile_rate_limited_witness :
  fetchTickerProfile (js "AAPL") (js "demo")
    (Fetched (mkResponse 429 (js "Too Many Requests") (inl (js "")))) =
  inl (FmpRateLimitError rateLimitMessage) /\
  fetchTickerProfile (js "AAPL") (js "demo")
    (Fetched
       (mkResponse 200 (js "OK")
          (inr (JArray
                  [JObject [(js "message",
                             JString (js "You have hit the rate limit."))]])))) =
  inl (FmpRateLimitError rateLimitMessage).
Proof.
  split.
  - apply (fetchTickerProfile_rate_limited (js "AAPL") (js "demo")
             (mkResponse 429 (js "Too Many Requests") (inl (js "")))).
    + reflexivity.
    + left. reflexivity.
  - apply (fetchTickerProfile_rate_limited (js "AAPL") (js "demo")
             (mkResponse 200 (js "OK")
                (inr (JArray
                        [JObject [(js "message",
                                   JString (js "You have hit the rate limit."))]])))).
    + reflexivity.
    + right. split; [reflexivity|].
      exists [(js "message", JString (js "You have hit the rate limit."))],
             (js "You have hit the rate limit.").
      repeat split; reflexivity.
Defined.

End FmpClaims.

(** * Further properties of the code *)

(** ** [isin.ts]: what a result implies *)

Section IsinMore.
Import Isin.

Lemma numericStringOf_first_invalid pre c post :
  forallb validChar pre = true -> validChar c = false ->
  numericStringOf (pre ++ c :: post) =
  throws (js "Invalid character in ISIN: " ++ [c]).
Proof.
  intros Hpre Hc. induction pre as [|x pre IH]; simpl.
  - rewrite (charToNumeral_invalid c Hc). reflexivity.
  - simpl in Hpre. apply andb_true_iff in Hpre. destruct Hpre as [Hx Hpre].
    destruct (charToNumeral_valid x Hx) as (n & ->).
    rewrite (IH Hpre). reflexivity.
Qed.

Lemma computeIsinCheckDigit_Some base d :
  computeIsinCheckDigit base = inr d ->
  List.length base = 11%nat /\ forallb validChar base = true.
Proof.
  intros H.
  destruct (Nat.eq_dec (List.length base) 11) as [Hlen | Hlen].
  - split; [exact Hlen|].
    destruct (forallb validChar base) eqn:Hv; [reflexivity|].
    destruct (computeIsinCheckDigit_invalid_char base Hlen Hv)
      as (pre & c & post & _ & _ & _ & E).
    rewrite E in H. discriminate H.
  - rewrite (computeIsinCheckDigit_wrong_length base Hlen) in H.
    discriminate H.
Qed.

Lemma validateIsin_valid_iff isin :
  valid (validateIsin isin) = true <->
  List.length isin = 12%nat /\
  is_upper (nth 0 isin 0) && is_upper (nth 1 isin 0) = true /\
  is_digit (nth 11 isin 0) = true /\
  forallb validChar (firstn 11 isin) = true /\
  spec_checkDigit (firstn 11 isin) = nth 11 isin 0 - 48.
Proof.
  rewrite validateIsin_unfold.
  destruct (Nat.eqb_spec (List.length isin) 12) as [Hlen | Hlen]; cbn [negb].
  2:{ split; [discriminate | tauto]. }
  destruct (is_upper (nth 0 isin 0) && is_upper (nth 1 isin 0)); cbn [negb].
  2:{ split; [discriminate | intros (_ & E & _); discriminate E]. }
  destruct (is_digit (nth 11 isin 0)); cbn [negb].
  2:{ split; [discriminate | intros (_ & _ & E & _); discriminate E]. }
  destruct (forallb validChar (firstn 11 isin)) eqn:Hv.
  - rewrite computeIsinCheckDigit_spec
      by (apply firstn_11_length; assumption) || assumption.
    destruct (Z.eqb_spec (spec_checkDigit (firstn 11 isin))
                (nth 11 isin 0 - 48)); cbn [valid].
    + tauto.
    + split; [discriminate | tauto].
  - destruct (computeIsinCheckDigit_invalid_char (firstn 11 isin)
                (firstn_11_length isin Hlen) Hv)
      as (pre & c & post & _ & _ & _ & ->).
    cbn [valid]. split; [discriminate | intros (_ & _ & _ & E & _)].
    discriminate E.
Qed.

(** X1. Whenever [computeIsinCheckDigit] returns, its input was 11
    characters over [0-9A-Z], and the value is the specification's digit,
    between 0 and 9. *)
Theorem computeIsinCheckDigit_returns_only_digits :
  forall (base : jsstring) (d : Z),
    computeIsinCheckDigit base = inr d ->
    List.length base = 11%nat /\ forallb validChar base = true /\
    d = spec_checkDigit base /\ 0 <= d <= 9.
Proof.
  intros base d H.
  destruct (computeIsinCheckDigit_Some base d H) as [Hlen Hv].
  rewrite (computeIsinCheckDigit_spec base Hlen Hv) in H.
  injection H as <-.
  repeat split; try assumption; apply spec_checkDigit_range.
Qed.

Lemma computeIsinCheckDigit_returns_only_digits_witness :
  List.length (js "GB000237400") = 11%nat /\
  forallb validChar (js "GB000237400") = true /\
  6 = spec_checkDigit (js "GB000237400") /\ 0 <= 6 <= 9.
Proof.
  apply (computeIsinCheckDigit_returns_only_digits (js "GB000237400") 6).
  vm_compute. reflexivity.
Defined.

(** X2. A 12-character string with a country code and a final digit whose
    first 11 characters contain a character outside [0-9A-Z] (a lowercase
    letter, say) is rejected with the message of the exception
    [computeIsinCheckDigit] threw, which names the first such character. *)
Theorem validateIsin_reports_invalid_character :
  forall (isin pre post : jsstring) (c : Z),
    List.length isin = 12%nat ->
    is_upper (nth 0 isin 0) && is_upper (nth 1 isin 0) = true ->
    is_digit (nth 11 isin 0) = true ->
    firstn 11 isin = pre ++ c :: post ->
    forallb validChar pre = true ->
    validChar c = false ->
    validateIsin isin =
    mkResult false (Some (js "Invalid character in ISIN: " ++ [c])).
Proof.
  intros isin pre post c Hlen Hup Hdig Hsplit Hpre Hc.
  rewrite validateIsin_unfold.
  rewrite (proj2 (Nat.eqb_eq _ _) Hlen), Hup, Hdig. cbn [negb].
  unfold computeIsinCheckDigit.
  pose proof (firstn_11_length isin Hlen) as H11. length_guard H11.
  cbn [negb]. rewrite Hsplit, numericStringOf_first_invalid by assumption.
  reflexivity.
Qed.

Lemma validateIsin_reports_invalid_character_witness :
  validateIsin (js "US88160r1014") =
  mkResult false (Some (js "Invalid character in ISIN: r")).
Proof.
  apply (validateIsin_reports_invalid_character
           (js "US88160r1014") (js "US88160") (js "101") 114);
    reflexivity.
Defined.

(** X3. For a well-formed 11-character base (two uppercase letters, then
    characters over [0-9A-Z]) exactly one 12th character makes
    [validateIsin] accept: the digit of [computeIsinCheckDigit]. *)
Theorem validateIsin_unique_check_digit :
  forall (base : jsstring) (c : Z),
    List.length base = 11%nat ->
    forallb validChar base = true ->
    is_upper (nth 0 base 0) && is_upper (nth 1 base 0) = true ->
    (valid (validateIsin (base ++ [c])) = true <->
     computeIsinCheckDigit base = inr (c - 48) /\ 48 <= c <= 57).
Proof.
  intros base c Hlen Hv Hup.
  rewrite validateIsin_valid_iff.
  rewrite (firstn_app_exact base [c] 11 Hlen).
  rewrite (nth_app_exact base c 0 11 Hlen).
  rewrite (computeIsinCheckDigit_spec base Hlen Hv).
  rewrite length_app, Hlen. cbn [List.length Nat.add].
  rewrite !app_nth1 by lia.
  rewrite is_digit_range.
  split.
  - intros (_ & _ & Hd & _ & E). split; [rewrite E; reflexivity | exact Hd].
  - intros [E Hd]. injection E as E. tauto.
Qed.

Lemma validateIsin_unique_check_digit_witness :
  valid (validateIsin (js "US037833100" ++ [53])) = true <->
  computeIsinCheckDigit (js "US037833100") = inr (53 - 48) /\ 48 <= 53 <= 57.
Proof.
  apply (validateIsin_unique_check_digit (js "US037833100") 53); reflexivity.
Defined.

End IsinMore.

(** ** [isin.ts]: the check digit catches a wrong digit *)

Section Luhn.
Import Isin.

Lemma spec_sum_from_app p l1 l2 :
  spec_sum_from p (l1 ++ l2) =
  spec_sum_from p l1 + spec_sum_from (p + Z.of_nat (List.length l1)) l2.
Proof.
  revert p. induction l1 as [|d l1 IH]; intros p.
  - cbn [app spec_sum_from List.length Z.of_nat]. rewrite Z.add_0_r. reflexivity.
  - cbn [app spec_sum_from List.length]. rewrite IH.
    replace (p + 1 + Z.of_nat (List.length l1))
      with (p + Z.of_nat (S (List.length l1))) by lia.
    lia.
Qed.

Lemma spec_digits_app a b : spec_digits (a ++ b) = spec_digits a ++ spec_digits b.
Proof. apply flat_map_app. Qed.

(** Doubling-and-reducing is one-to-one on the ten digits, modulo 10. *)
Lemma weight_injective (odd : bool) x y :
  0 <= x <= 9 -> 0 <= y <= 9 -> x <> y ->
  ((if odd then spec_double x else x) - (if odd then spec_double y else y))
    mod 10 <> 0.
Proof.
  intros Hx Hy Hne.
  pose (P := fun x => forallb (fun y =>
    (x =? y) ||
    (negb ((spec_double x - spec_double y) mod 10 =? 0) &&
     negb ((x - y) mod 10 =? 0)))
    (map Z.of_nat (seq 0 10))).
  assert (HP : P x = true)
    by (apply (forall_range P 0 10); [vm_compute; reflexivity | lia]).
  unfold P in HP.
  pose proof (forall_range _ 0 10 HP y ltac:(lia)) as H. cbv beta in H.
  apply orb_true_iff in H. destruct H as [H | H]; [apply Z.eqb_eq in H; lia|].
  apply andb_true_iff in H. destruct H as [H1 H2].
  apply negb_true_iff, Z.eqb_neq in H1. apply negb_true_iff, Z.eqb_neq in H2.
  destruct odd; assumption.
Qed.

Lemma checkDigit_separates s s' :
  (s - s') mod 10 <> 0 ->
  (10 - s mod 10) mod 10 <> (10 - s' mod 10) mod 10.
Proof.
  intros H E. apply H. clear H.
  Z.div_mod_to_equations. lia.
Qed.

Lemma spec_checkDigit_replace pre post c c' :
  is_digit c = true -> is_digit c' = true -> c <> c' ->
  spec_checkDigit (pre ++ c :: post) <> spec_checkDigit (pre ++ c' :: post).
Proof.
  intros Hc Hc' Hne. unfold spec_checkDigit. apply checkDigit_separates.
  rewrite !spec_digits_app.
  change (c :: post) with ([c] ++ post). change (c' :: post) with ([c'] ++ post).
  rewrite !spec_digits_app.
  assert (E : forall x, is_digit x = true -> spec_digits [x] = [x - 48]).
  { intros x Hx. unfold spec_digits, spec_numeral. simpl. rewrite Hx.
    reflexivity. }
  rewrite (E c Hc), (E c' Hc'). rewrite !rev_app_distr.
  cbn [rev app]. rewrite <- !app_assoc. cbn [app].
  rewrite !spec_sum_from_app. cbn [spec_sum_from].
  apply is_digit_range in Hc. apply is_digit_range in Hc'.
  pose proof (weight_injective
    (Z.odd (1 + Z.of_nat (List.length (rev (spec_digits post)))))
    (c - 48) (c' - 48) ltac:(lia) ltac:(lia) ltac:(lia)) as W.
  match goal with
  | |- (?a + (?x + ?b) - (?a + (?y + ?b))) mod 10 <> 0 =>
      replace (a + (x + b) - (a + (y + b))) with (x - y) by lia
  end.
  exact W.
Qed.

(** X4. Replacing any one digit of an ISIN that [validateIsin] accepts by a
    different digit, the check digit included, gives a string it rejects
    with ["Invalid check digit"]. *)
Theorem validateIsin_detects_wrong_digit :
  forall (pre post : jsstring) (c c' : Z),
    valid (validateIsin (pre ++ c :: post)) = true ->
    is_digit c = true -> is_digit c' = true -> c <> c' ->
    validateIsin (pre ++ c' :: post) =
    mkResult false (Some (js "Invalid check digit")).
Proof.
  intros pre post c c' Hvalid Hc Hc' Hne.
  apply validateIsin_valid_iff in Hvalid.
  destruct Hvalid as (Hlen & Hup & Hdig & Hv & Hcd).
  rewrite length_app in Hlen. cbn [List.length] in Hlen.
  assert (Hpre2 : (2 <= List.length pre)%nat).
  { apply andb_true_iff in Hup. destruct Hup as [U0 U1].
    apply is_digit_range in Hc.
    destruct pre as [|a [|b pre]]; cbn [List.length]; try lia.
    - cbn [app nth] in U0. apply is_upper_range in U0. lia.
    - cbn [app nth] in U1. apply is_upper_range in U1. lia. }
  assert (Hlen' : List.length (pre ++ c' :: post) = 12%nat)
    by (rewrite length_app; cbn [List.length]; lia).
  assert (Hup' : is_upper (nth 0 (pre ++ c' :: post) 0) &&
                 is_upper (nth 1 (pre ++ c' :: post) 0) = true).
  { rewrite !app_nth1 in Hup |- * by lia. exact Hup. }
  destruct (Nat.eq_dec (List.length pre) 11) as [H11 | H11].
  - (* the check digit itself *)
    assert (post = []) by (destruct post; [reflexivity | cbn in Hlen; lia]).
    subst post.
    rewrite (firstn_app_exact pre [c] 11 H11) in Hv, Hcd.
    rewrite (nth_app_exact pre c 0 11 H11) in Hcd.
    rewrite validateIsin_well_formed_base; try assumption.
    + rewrite (firstn_app_exact pre [c'] 11 H11).
      rewrite (nth_app_exact pre c' 0 11 H11).
      replace (spec_checkDigit pre =? c' - 48) with false; [reflexivity|].
      symmetry. apply Z.eqb_neq. lia.
    + rewrite (nth_app_exact pre c' 0 11 H11). exact Hc'.
    + rewrite (firstn_app_exact pre [c'] 11 H11). exact Hv.
  - (* a digit of the base *)
    assert (Hf : forall x, firstn 11 (pre ++ x :: post) =
                           pre ++ x :: firstn (10 - List.length pre) post).
    { intros x. rewrite firstn_app, firstn_all2 by lia.
      replace (11 - List.length pre)%nat
        with (S (10 - List.length pre)) by lia.
      reflexivity. }
    assert (Hn : forall x, nth 11 (pre ++ x :: post) 0 =
                           nth (10 - List.length pre) post 0).
    { intros x. rewrite app_nth2 by lia.
      replace (11 - List.length pre)%nat
        with (S (10 - List.length pre)) by lia.
      reflexivity. }
    rewrite Hf in Hv, Hcd. rewrite Hn in Hdig, Hcd.
    rewrite validateIsin_well_formed_base; try assumption.
    + rewrite Hf, Hn.
      replace (_ =? _) with false; [reflexivity|].
      symmetry. apply Z.eqb_neq. rewrite <- Hcd.
      apply not_eq_sym, spec_checkDigit_replace; assumption.
    + rewrite Hn. exact Hdig.
    + rewrite Hf. rewrite forallb_app in Hv |- *.
      apply andb_true_iff in Hv. destruct Hv as [V1 V2].
      cbn [forallb] in V2 |- *. apply andb_true_iff in V2.
      destruct V2 as [_ V2]. rewrite V1, V2.
      unfold validChar. rewrite Hc'. reflexivity.
Qed.

Lemma validateIsin_detects_wrong_digit_witness :
  validateIsin (js "US03" ++ 56 :: js "8331005") =
  mkResult false (Some (js "Invalid check digit")).
Proof.
  apply (validateIsin_detects_wrong_digit (js "US03") (js "8331005") 55 56).
  - reflexivity.
  - reflexivity.
  - reflexivity.
  - discriminate.
Defined.

End Luhn.

(** ** [isin.ts]: [cusipToIsin] *)

Section CusipMore.
Import Isin.

Lemma alphanumeric_iff cusip :
  List.length cusip = 9%nat ->
  alphanumeric cusip = forallb alnumChar cusip.
Proof.
  intros H. unfold alphanumeric.
  destruct cusip; [discriminate H | reflexivity].
Qed.

Lemma cusipToIsin_value cusip :
  List.length cusip = 9%nat -> forallb alnumChar cusip = true ->
  cusipToIsin cusip =
  inr ((js "US" ++ toUpperCase cusip) ++
       [48 + spec_checkDigit (js "US" ++ toUpperCase cusip)]).
Proof.
  intros Hlen Haln. unfold cusipToIsin. length_guard Hlen. cbn [negb].
  rewrite (alphanumeric_iff cusip Hlen), Haln. cbn [negb]. cbv zeta.
  rewrite computeIsinCheckDigit_spec.
  - rewrite toString_digit by apply spec_checkDigit_range. reflexivity.
  - rewrite length_app, toUpperCase_length, Hlen. reflexivity.
  - rewrite forallb_app, toUpperCase_valid by assumption. reflexivity.
Qed.

Lemma toUpperCase_fixed s :
  forallb validChar s = true -> toUpperCase s = s.
Proof.
  unfold toUpperCase. induction s as [|c s IH]; simpl; [reflexivity|].
  intros H. apply andb_true_iff in H. destruct H as [Hc Hs].
  rewrite (IH Hs). f_equal.
  destruct (is_lower c) eqn:Hl; [|reflexivity].
  apply is_lower_range in Hl. unfold validChar in Hc.
  apply orb_true_iff in Hc.
  destruct Hc as [Hc | Hc];
    [apply is_digit_range in Hc | apply is_upper_range in Hc]; lia.
Qed.

Lemma validChar_alnumChar s :
  forallb validChar s = true -> forallb alnumChar s = true.
Proof.
  rewrite !forallb_forall. intros H c Hc. specialize (H c Hc).
  unfold validChar in H. unfold alnumChar.
  destruct (is_upper c), (is_digit c), (is_lower c); simpl in *; congruence.
Qed.

Lemma substring_2_11 (s : jsstring) :
  List.length s = 12%nat -> JsText.substring s 2 11 = firstn 9 (skipn 2 s).
Proof.
  intros H. unfold JsText.substring, JsString.length. rewrite H. reflexivity.
Qed.

(** X5. [cusipToIsin] returns exactly when its argument is 9 characters
    over [A-Za-z0-9].  A wrong length is reported before the characters are
    looked at, and the exceptions of [computeIsinCheckDigit] never come
    through. *)
Theorem cusipToIsin_outcomes :
  forall cusip : jsstring,
    (List.length cusip <> 9%nat ->
     cusipToIsin cusip = throws (js "CUSIP must be exactly 9 characters")) /\
    (List.length cusip = 9%nat -> forallb alnumChar cusip = false ->
     cusipToIsin cusip = throws (js "CUSIP contains invalid characters")) /\
    ((exists isin, cusipToIsin cusip = inr isin) <->
     List.length cusip = 9%nat /\ forallb alnumChar cusip = true).
Proof.
  intros cusip.
  assert (A : List.length cusip <> 9%nat ->
              cusipToIsin cusip = throws (js "CUSIP must be exactly 9 characters")).
  { intros H. unfold cusipToIsin. length_guard H. reflexivity. }
  assert (B : List.length cusip = 9%nat -> forallb alnumChar cusip = false ->
              cusipToIsin cusip = throws (js "CUSIP contains invalid characters")).
  { intros H1 H2. unfold cusipToIsin. length_guard H1. cbn [negb].
    rewrite (alphanumeric_iff cusip H1), H2. reflexivity. }
  split; [exact A|]. split; [exact B|].
  split.
  - intros [isin E].
    destruct (Nat.eq_dec (List.length cusip) 9) as [H | H].
    + split; [exact H|].
      destruct (forallb alnumChar cusip) eqn:Ha; [reflexivity|].
      rewrite (B H eq_refl) in E. discriminate E.
    + rewrite (A H) in E. discriminate E.
  - intros [H1 H2]. rewrite (cusipToIsin_value cusip H1 H2). eauto.
Qed.

Lemma cusipToIsin_outcomes_witness :
  cusipToIsin (js "03783!1") = throws (js "CUSIP must be exactly 9 characters") /\
  cusipToIsin (js "037833!00") = throws (js "CUSIP contains invalid characters") /\
  exists isin, cusipToIsin (js "037833100") = inr isin.
Proof.
  split; [|split].
  - apply (cusipToIsin_outcomes (js "03783!1")). vm_compute. discriminate.
  - apply (cusipToIsin_outcomes (js "037833!00")); reflexivity.
  - apply (cusipToIsin_outcomes (js "037833100")). split; reflexivity.
Defined.

(** X6. [cusipToIsin] does not depend on letter case: an alphanumeric CUSIP
    and its upper-case form give the same ISIN.  That ISIN is 12 characters
    over [0-9A-Z], and its characters 2 to 10 ([isin.substring(2, 11)]) are
    the upper-case CUSIP. *)
Theorem cusipToIsin_case_insensitive :
  forall cusip : jsstring,
    List.length cusip = 9%nat -> forallb alnumChar cusip = true ->
    exists isin,
      cusipToIsin cusip = inr isin /\
      cusipToIsin (toUpperCase cusip) = inr isin /\
      List.length isin = 12%nat /\
      forallb validChar isin = true /\
      JsText.substring isin 2 11 = toUpperCase cusip.
Proof.
  intros cusip Hlen Haln.
  pose proof (toUpperCase_valid cusip Haln) as Hv.
  pose proof (toUpperCase_length cusip) as Hl. rewrite Hlen in Hl.
  eexists. split; [apply cusipToIsin_value; assumption|].
  split.
  - rewrite cusipToIsin_value;
      [| exact Hl | apply validChar_alnumChar; exact Hv].
    rewrite (toUpperCase_fixed _ Hv). reflexivity.
  - assert (L12 : List.length
                    ((js "US" ++ toUpperCase cusip) ++
                     [48 + spec_checkDigit (js "US" ++ toUpperCase cusip)]) =
                  12%nat)
      by (rewrite !length_app, Hl; reflexivity).
    split; [exact L12|]. split.
    + rewrite !forallb_app, Hv. cbn [forallb].
      pose proof (spec_checkDigit_range (js "US" ++ toUpperCase cusip)).
      unfold validChar at 2.
      rewrite (proj2 (is_digit_range _)) by lia. reflexivity.
    + rewrite (substring_2_11 _ L12), <- app_assoc.
      change (js "US") with [85; 83]. cbn [app skipn].
      apply firstn_app_exact. exact Hl.
Qed.

Lemma cusipToIsin_case_insensitive_witness :
  exists isin,
    cusipToIsin (js "88160r101") = inr isin /\
    cusipToIsin (toUpperCase (js "88160r101")) = inr isin /\
    List.length isin = 12%nat /\
    forallb validChar isin = true /\
    JsText.substring isin 2 11 = toUpperCase (js "88160r101").
Proof.
  apply (cusipToIsin_case_insensitive (js "88160r101")); reflexivity.
Defined.

(** X7. An ISIN that [validateIsin] accepts and that starts with ["US"] is
    what [cusipToIsin] rebuilds from its characters 2 to 10. *)
Theorem cusipToIsin_rebuilds_valid_US_isin :
  forall isin : jsstring,
    valid (validateIsin isin) = true ->
    firstn 2 isin = js "US" ->
    cusipToIsin (JsText.substring isin 2 11) = inr isin.
Proof.
  intros isin Hvalid HUS.
  apply validateIsin_valid_iff in Hvalid.
  destruct Hvalid as (Hlen & _ & Hdig & Hv & Hcd).
  pose proof (substring_2_11 isin Hlen) as Hsub.
  assert (Hbase : firstn 11 isin = js "US" ++ firstn 9 (skipn 2 isin)).
  { rewrite <- HUS. rewrite <- (firstn_skipn 2 isin) at 1.
    rewrite firstn_app, firstn_firstn. cbn [Nat.min].
    rewrite length_firstn, Hlen. reflexivity. }
  assert (Hwhole : isin = firstn 11 isin ++ [nth 11 isin 0]).
  { rewrite <- (firstn_skipn 11 isin) at 1. f_equal.
    assert (L : List.length (skipn 11 isin) = 1%nat)
      by (rewrite length_skipn; lia).
    rewrite <- (firstn_skipn 11 isin) at 2.
    rewrite app_nth2 by (rewrite length_firstn; lia).
    rewrite length_firstn, Hlen. cbn [Nat.min Nat.sub].
    destruct (skipn 11 isin) as [|x [|y l]]; try discriminate L. reflexivity. }
  rewrite Hbase in Hv. change (js "US") with [85; 83] in Hv.
  cbn [app forallb] in Hv.
  apply andb_true_iff in Hv. destruct Hv as [_ Hv].
  apply andb_true_iff in Hv. destruct Hv as [_ Hv].
  rewrite Hsub, cusipToIsin_value.
  - rewrite (toUpperCase_fixed _ Hv), <- Hbase, Hcd.
    replace (48 + (nth 11 isin 0 - 48)) with (nth 11 isin 0) by lia.
    rewrite <- Hwhole. reflexivity.
  - rewrite length_firstn, length_skipn. lia.
  - apply validChar_alnumChar. exact Hv.
Qed.

Lemma cusipToIsin_rebuilds_valid_US_isin_witness :
  cusipToIsin (JsText.substring (js "US5949181045") 2 11) =
  inr (js "US5949181045").
Proof.
  apply (cusipToIsin_rebuilds_valid_US_isin (js "US5949181045")); reflexivity.
Defined.

End CusipMore.

(** ** [db.ts]: what a lookup returns *)

Section LookupRows.
Import Db DbViews.

Lemma leftJoins_hd {K1 K2 K3 T}
    (t1 : list (ident_row K1)) (t2 : list (ident_row K2))
    (t3 : list (ident_row K3)) sid
    (row : option (ident_row K1) -> option (ident_row K2) ->
           option (ident_row K3) -> T) :
  get (flat_map (fun a => flat_map (fun b => map (fun c => row a b c)
                                                (leftJoin sid t3))
                             (leftJoin sid t2))
         (leftJoin sid t1)) =
  Some (row (sibling sid t1) (sibling sid t2) (sibling sid t3)).
Proof.
  unfold sibling.
  destruct (leftJoin_cons sid t1) as (a & ra & ->).
  destruct (leftJoin_cons sid t2) as (b & rb & ->).
  destruct (leftJoin_cons sid t3) as (c & rc & ->).
  reflexivity.
Qed.

(** In a list without two elements of one key, the elements of a key are
    one. *)
Lemma filter_unique {A B} (g : A -> B) (f : A -> bool) (l : list A) (a : A) :
  NoDup (map g l) -> In a l ->
  (forall x, In x l -> (f x = true <-> g x = g a)) ->
  filter f l = [a].
Proof.
  induction l as [|x l IH]; intros Hnd Hin Hf; [contradiction|].
  cbn [map] in Hnd. apply NoDup_cons_iff in Hnd. destruct Hnd as [Hx Hnd].
  cbn [filter]. destruct Hin as [-> | Hin].
  - rewrite (proj2 (Hf a (or_introl eq_refl)) eq_refl). f_equal.
    apply filter_nil_iff. intros y Hy.
    destruct (f y) eqn:E; [|reflexivity].
    apply (Hf y (or_intror Hy)) in E. exfalso. apply Hx.
    rewrite <- E. apply in_map, Hy.
  - destruct (f x) eqn:E.
    + apply (Hf x (or_introl eq_refl)) in E. exfalso. apply Hx.
      rewrite E. apply in_map, Hin.
    + apply IH; [exact Hnd | exact Hin |].
      intros y Hy. apply Hf. right. exact Hy.
Qed.

Lemma joinSecurity_unique db sid :
  db_ok db = true -> In sid (map id (securities db)) ->
  exists s, In s (securities db) /\ id s = sid /\
            joinSecurity sid (securities db) = [s].
Proof.
  intros Hok Hin. apply db_ok_schema in Hok. destruct Hok as (_ & Hnd & _).
  apply in_map_iff in Hin. destruct Hin as (s & Hs & Hin).
  exists s. split; [exact Hin|]. split; [exact Hs|].
  unfold joinSecurity. apply (filter_unique id); [exact Hnd | exact Hin|].
  intros x _. rewrite Z.eqb_eq, Hs. split; congruence.
Qed.

Lemma truthy_orNull e : truthy e = true -> orNull (Some e) = Some e.
Proof. intros H. simpl. rewrite H. reflexivity. Qed.

(** [lookupByTicker] with an exchange, when the pair has a row. *)
Lemma lookupByTicker_row db ticker e t :
  db_ok db = true -> truthy e = true ->
  In t (identifiers_ticker db) -> key t = (ticker, e) ->
  exists s,
    In s (securities db) /\ id s = security_id t /\
    lookupByTicker db ticker (Some e) =
    Some (mkSecurityResult (id s) (s_name s) (Some ticker) (Some e)
            (column self (sibling (id s) (identifiers_isin db)))
            (column self (sibling (id s) (identifiers_cusip db)))
            (column self (sibling (id s) (identifiers_cik db)))
            (orNull (s_security_type s)) (orNull (s_market_sector s))
            (js "db") (fetched_at t)).
Proof.
  intros Hok He Hin Hk.
  pose proof (proj1 (db_ok_schema db) Hok) as (_ & _ & R & _ & _ & _ & U & _).
  destruct (joinSecurity_unique db (security_id t) Hok (R t Hin))
    as (s & Hs & Hid & J).
  exists s. split; [exact Hs|]. split; [exact Hid|].
  unfold lookupByTicker. rewrite (truthy_orNull e He).
  rewrite (filter_unique key _ _ t U Hin).
  - cbn [flat_map]. rewrite J. cbn [flat_map]. rewrite !app_nil_r.
    rewrite leftJoins_hd. rewrite Hk. reflexivity.
  - intros x _. rewrite andb_true_iff, !jsstring_eqb_eq, Hk.
    destruct (key x) as [a b]. cbn [fst snd].
    split; [intros [-> ->]; reflexivity | intros [= -> ->]; tauto].
Qed.

Lemma lookupByTicker_no_row db ticker e :
  truthy e = true ->
  ~ In (ticker, e) (map key (identifiers_ticker db)) ->
  lookupByTicker db ticker (Some e) = None.
Proof.
  intros He Hn. unfold lookupByTicker. rewrite (truthy_orNull e He).
  match goal with
  | |- context [filter ?w (identifiers_ticker db)] =>
      assert (F : filter w (identifiers_ticker db) = [])
  end.
  { apply filter_nil_iff. intros x Hx.
    destruct (JsString.eqb (fst (key x)) ticker &&
              JsString.eqb (snd (key x)) e) eqn:E; [|reflexivity].
    apply andb_true_iff in E. rewrite !jsstring_eqb_eq in E.
    exfalso. apply Hn. apply in_map_iff. exists x. split; [|exact Hx].
    destruct (key x). cbn [fst snd] in E. destruct E as [-> ->]. reflexivity. }
  rewrite F. reflexivity.
Qed.

Lemma lookupByIsin_row db isin i :
  db_ok db = true -> In i (identifiers_isin db) -> key i = isin ->
  exists s,
    In s (securities db) /\ id s = security_id i /\
    lookupByIsin db isin =
    Some (mkSecurityResult (id s) (s_name s)
            (column fst (sibling (id s) (identifiers_ticker db)))
            (column snd (sibling (id s) (identifiers_ticker db)))
            (Some isin)
            (column self (sibling (id s) (identifiers_cusip db)))
            (column self (sibling (id s) (identifiers_cik db)))
            (orNull (s_security_type s)) (orNull (s_market_sector s))
            (js "db") (fetched_at i)).
Proof.
  intros Hok Hin Hk.
  pose proof (proj1 (db_ok_schema db) Hok)
    as (_ & _ & _ & R & _ & _ & _ & U & _).
  destruct (joinSecurity_unique db (security_id i) Hok (R i Hin))
    as (s & Hs & Hid & J).
  exists s. split; [exact Hs|]. split; [exact Hid|].
  unfold lookupByIsin.
  rewrite (filter_unique key _ _ i U Hin).
  - cbn [flat_map]. rewrite J. cbn [flat_map]. rewrite !app_nil_r.
    rewrite leftJoins_hd. rewrite Hk. reflexivity.
  - intros x _. rewrite jsstring_eqb_eq, Hk. reflexivity.
Qed.

Lemma lookupByCusip_row db cusip c :
  db_ok db = true -> In c (identifiers_cusip db) -> key c = cusip ->
  exists s,
    In s (securities db) /\ id s = security_id c /\
    lookupByCusip db cusip =
    Some (mkSecurityResult (id s) (s_name s)
            (column fst (sibling (id s) (identifiers_ticker db)))
            (column snd (sibling (id s) (identifiers_ticker db)))
            (column self (sibling (id s) (identifiers_isin db)))
            (Some cusip)
            (column self (sibling (id s) (identifiers_cik db)))
            (orNull (s_security_type s)) (orNull (s_market_sector s))
            (js "db") (fetched_at c)).
Proof.
  intros Hok Hin Hk.
  pose proof (proj1 (db_ok_schema db) Hok)
    as (_ & _ & _ & _ & R & _ & _ & _ & U & _).
  destruct (joinSecurity_unique db (security_id c) Hok (R c Hin))
    as (s & Hs & Hid & J).
  exists s. split; [exact Hs|]. split; [exact Hid|].
  unfold lookupByCusip.
  rewrite (filter_unique key _ _ c U Hin).
  - cbn [flat_map]. rewrite J. cbn [flat_map]. rewrite !app_nil_r.
    rewrite leftJoins_hd. rewrite Hk. reflexivity.
  - intros x _. rewrite jsstring_eqb_eq, Hk. reflexivity.
Qed.

Lemma lookup_by_value_no_row (tbl : list (ident_row jsstring)) v :
  ~ In v (map key tbl) -> filter (fun r => JsString.eqb (key r) v) tbl = [].
Proof.
  intros Hn. apply filter_nil_iff. intros x Hx.
  destruct (JsString.eqb (key x) v) eqn:E; [|reflexivity].
  apply jsstring_eqb_eq in E. exfalso. apply Hn. rewrite <- E.
  apply in_map, Hx.
Qed.

End LookupRows.

(** ** [db.ts]: inserting, then looking up *)

Section InsertLookup.
Import Db DbViews.

Lemma NoDup_map_eq {A B} (g : A -> B) (l : list A) a b :
  NoDup (map g l) -> In a l -> In b l -> g a = g b -> a = b.
Proof.
  induction l as [|x l IH]; intros Hnd Ha Hb E; [contradiction|].
  cbn [map] in Hnd. apply NoDup_cons_iff in Hnd. destruct Hnd as [Hx Hnd].
  destruct Ha as [-> | Ha], Hb as [-> | Hb].
  - reflexivity.
  - exfalso. apply Hx. rewrite E. apply in_map, Hb.
  - exfalso. apply Hx. rewrite <- E. apply in_map, Ha.
  - apply IH; assumption.
Qed.

Lemma selectSecurityId_unique {K} (eqb : K -> K -> bool)
    (eqb_eq : forall a b, eqb a b = true <-> a = b)
    (tbl : list (ident_row K)) r :
  NoDup (map key tbl) -> In r tbl ->
  selectSecurityId eqb (key r) tbl = Some (security_id r).
Proof.
  intros Hnd Hin.
  destruct (selectSecurityId eqb (key r) tbl) as [sid|] eqn:E.
  - destruct (selectSecurityId_Some eqb eqb_eq _ _ _ E) as (r' & Hin' & Hk & Hs).
    rewrite (NoDup_map_eq key tbl r' r Hnd Hin' Hin Hk) in Hs.
    rewrite Hs. reflexivity.
  - apply (selectSecurityId_None eqb eqb_eq) in E. exfalso. apply E.
    apply in_map, Hin.
Qed.

Lemma upsert_In_new {K} (eqb : K -> K -> bool)
    (eqb_eq : forall a b, eqb a b = true <-> a = b) k sid src ts
    (tbl : list (ident_row K)) :
  In (mkIdentRow sid k src ts) (upsert eqb sid k src ts tbl).
Proof.
  destruct (selectSecurityId_Some eqb eqb_eq k _ sid
              (selectSecurityId_upsert eqb eqb_eq k sid src ts tbl))
    as (r & Hin & Hk & _).
  destruct (upsert_rows eqb eqb_eq k sid src ts tbl r Hin) as [[_ Hne] | E].
  - contradiction.
  - rewrite <- E. exact Hin.
Qed.

Lemma orNull_idempotent x : orNull (orNull x) = orNull x.
Proof.
  destruct x as [s|]; [|reflexivity]. simpl.
  destruct (truthy s) eqn:E; [|reflexivity]. simpl. rewrite E. reflexivity.
Qed.

(** The Security row of the returned id carries the record's descriptive
    fields. *)
Lemma insertSecurity_security_fields db security ts s :
  db_ok db = true ->
  In s (securities (fst (insertSecurity db security ts))) ->
  id s = snd (insertSecurity db security ts) ->
  s_name s = name security /\
  s_security_type s = orNull (security_type security) /\
  s_market_sector s = orNull (market_sector security).
Proof.
  intros Hok. destruct (findExisting db security) as [sid|] eqn:E.
  - destruct (findExisting_ok db security sid Hok E) as [Hs _].
    rewrite (insertSecurity_found db security ts sid E Hs).
    cbn [fst snd upsertAll securities]. apply updateSecurity_fields.
  - rewrite (insertSecurity_new db security ts E).
    cbn [fst snd upsertAll securities]. intros Hin Hid.
    apply in_app_iff in Hin. destruct Hin as [Hin | [<- | []]].
    + pose proof (nextRowId_above _ s Hin). lia.
    + repeat split.
Qed.

(** X8. [insertSecurity] keeps the schema: after it primary keys are still
    unique and every identifier row still refers to a Security row; the id
    it returns is at least 1 and names a row of [securities]. *)
Theorem insertSecurity_keeps_schema :
  forall db security ts,
    db_ok db = true ->
    db_ok (fst (insertSecurity db security ts)) = true /\
    1 <= snd (insertSecurity db security ts) /\
    In (snd (insertSecurity db security ts))
       (map id (securities (fst (insertSecurity db security ts)))).
Proof.
  intros db security ts Hok.
  pose proof (db_ok_insertSecurity db security ts Hok) as Hok'.
  split; [exact Hok'|].
  destruct (insertSecurity_attaches db security ts Hok) as (HT & _).
  apply (probeTicker_ok _ security _ Hok' HT).
Qed.

Lemma insertSecurity_keeps_schema_witness :
  db_ok (fst (insertSecurity initDatabase (apple (js "fmp")) 100)) = true /\
  1 <= snd (insertSecurity initDatabase (apple (js "fmp")) 100) /\
  In (snd (insertSecurity initDatabase (apple (js "fmp")) 100))
     (map id (securities (fst (insertSecurity initDatabase (apple (js "fmp")) 100)))).
Proof.
  apply (insertSecurity_keeps_schema initDatabase (apple (js "fmp")) 100).
  reflexivity.
Defined.

(** X9. Read your writes, for every record and every database that
    satisfies the schema: after [insertSecurity], [lookupByTicker] with the
    record's ticker and (non-empty) exchange, [lookupByIsin] with its ISIN
    and [lookupByCusip] with its CUSIP, when supplied, each return a record
    with the returned id, the record's name and the time of the call. *)
Theorem lookups_after_insertSecurity :
  forall db security ts,
    db_ok db = true ->
    let db' := fst (insertSecurity db security ts) in
    let sid := snd (insertSecurity db security ts) in
    (truthy (exchange security) = true ->
     exists r,
       lookupByTicker db' (ticker security) (Some (exchange security)) = Some r /\
       r_id r = sid /\ r_name r = name security /\
       r_ticker r = Some (ticker security) /\
       r_exchange r = Some (exchange security) /\
       r_security_type r = orNull (security_type security) /\
       r_market_sector r = orNull (market_sector security) /\
       r_fetched_at r = ts) /\
    (forall i, orNull (isin security) = Some i ->
     exists r,
       lookupByIsin db' i = Some r /\
       r_id r = sid /\ r_name r = name security /\ r_isin r = Some i /\
       r_fetched_at r = ts) /\
    (forall c, orNull (cusip security) = Some c ->
     exists r,
       lookupByCusip db' c = Some r /\
       r_id r = sid /\ r_name r = name security /\ r_cusip r = Some c /\
       r_fetched_at r = ts).
Proof.
  intros db security ts Hok db' sid.
  pose proof (db_ok_insertSecurity db security ts Hok) as Hok'. fold db' in Hok'.
  pose proof (insertSecurity_security_fields db security ts) as Hf.
  fold db' sid in Hf.
  destruct (insertSecurity_tables db security ts Hok) as (secs & E & _).
  fold sid in E.
  assert (Edb : db' = upsertAll db security secs sid ts)
    by (unfold db'; rewrite E; reflexivity).
  split; [|split].
  - intros He.
    assert (Hin : In (mkIdentRow sid (ticker security, exchange security)
                        (source security) ts) (identifiers_ticker db')).
    { rewrite Edb. cbn [upsertAll identifiers_ticker].
      apply upsert_In_new, ticker_key_eqb_eq. }
    destruct (lookupByTicker_row db' _ _ _ Hok' He Hin eq_refl)
      as (s & Hs & Hid & ->).
    cbn [security_id] in Hid.
    destruct (Hf s Hok Hs Hid) as (F1 & F2 & F3).
    eexists. split; [reflexivity|].
    cbn [r_id r_name r_ticker r_exchange r_security_type r_market_sector
         r_fetched_at fetched_at].
    rewrite F1, F2, F3, !orNull_idempotent. repeat split. exact Hid.
  - intros i Hi.
    assert (Hin : In (mkIdentRow sid i (source security) ts)
                     (identifiers_isin db')).
    { rewrite Edb. cbn [upsertAll identifiers_isin]. rewrite Hi.
      apply upsert_In_new, jsstring_eqb_eq. }
    destruct (lookupByIsin_row db' i _ Hok' Hin eq_refl)
      as (s & Hs & Hid & ->).
    cbn [security_id] in Hid.
    destruct (Hf s Hok Hs Hid) as (F1 & _).
    eexists. split; [reflexivity|].
    cbn [r_id r_name r_isin r_fetched_at fetched_at].
    rewrite F1. repeat split. exact Hid.
  - intros c Hc.
    assert (Hin : In (mkIdentRow sid c (source security) ts)
                     (identifiers_cusip db')).
    { rewrite Edb. cbn [upsertAll identifiers_cusip]. rewrite Hc.
      apply upsert_In_new, jsstring_eqb_eq. }
    destruct (lookupByCusip_row db' c _ Hok' Hin eq_refl)
      as (s & Hs & Hid & ->).
    cbn [security_id] in Hid.
    destruct (Hf s Hok Hs Hid) as (F1 & _).
    eexists. split; [reflexivity|].
    cbn [r_id r_name r_cusip r_fetched_at fetched_at].
    rewrite F1. repeat split. exact Hid.
Qed.

Lemma lookups_after_insertSecurity_witness :
  exists r,
    lookupByIsin
      (fst (insertSecurity
              (fst (insertSecurity initDatabase
                      (listing "Apple Inc." "AAPL" "NASDAQ" "US0378331005") 100))
              (listing "Apple" "AAPL" "XETRA" "US0378331005") 200))
      (js "US0378331005") = Some r /\
    r_id r = 1 /\ r_name r = js "Apple" /\
    r_isin r = Some (js "US0378331005") /\ r_fetched_at r = 200.
Proof.
  destruct (lookups_after_insertSecurity
              (fst (insertSecurity initDatabase
                      (listing "Apple Inc." "AAPL" "NASDAQ" "US0378331005") 100))
              (listing "Apple" "AAPL" "XETRA" "US0378331005") 200 eq_refl)
    as (_ & H & _).
  exact (H (js "US0378331005") eq_refl).
Defined.

(** X10. A lookup finds what the matching probe of [insertSecurity] finds:
    on a database that satisfies the schema, [lookupByIsin],
    [lookupByCusip] and [lookupByTicker] with a non-empty exchange return a
    record with the Security id of the row of that key, and [null] exactly
    when the key has no row. *)
Theorem lookups_agree_with_probes :
  forall db,
    db_ok db = true ->
    (forall i, option_map r_id (lookupByIsin db i) =
               selectSecurityId JsString.eqb i (identifiers_isin db)) /\
    (forall c, option_map r_id (lookupByCusip db c) =
               selectSecurityId JsString.eqb c (identifiers_cusip db)) /\
    (forall t e, truthy e = true ->
               option_map r_id (lookupByTicker db t (Some e)) =
               selectSecurityId ticker_key_eqb (t, e) (identifiers_ticker db)) /\
    (forall i, lookupByIsin db i = None <->
               ~ In i (map key (identifiers_isin db))) /\
    (forall c, lookupByCusip db c = None <->
               ~ In c (map key (identifiers_cusip db))) /\
    (forall t e, truthy e = true ->
               (lookupByTicker db t (Some e) = None <->
                ~ In (t, e) (map key (identifiers_ticker db)))).
Proof.
  intros db Hok.
  pose proof (proj1 (db_ok_schema db) Hok)
    as (_ & _ & _ & _ & _ & _ & U1 & U2 & U3 & _).
  assert (A : forall i, option_map r_id (lookupByIsin db i) =
                        selectSecurityId JsString.eqb i (identifiers_isin db)).
  { intros i.
    destruct (selectSecurityId JsString.eqb i (identifiers_isin db))
      as [sid|] eqn:E.
    - destruct (selectSecurityId_Some _ jsstring_eqb_eq _ _ _ E)
        as (r & Hin & Hk & Hs).
      destruct (lookupByIsin_row db i r Hok Hin Hk) as (s & _ & Hid & ->).
      cbn [option_map r_id]. congruence.
    - apply (selectSecurityId_None _ jsstring_eqb_eq) in E.
      unfold lookupByIsin. rewrite (lookup_by_value_no_row _ _ E). reflexivity. }
  assert (B : forall c, option_map r_id (lookupByCusip db c) =
                        selectSecurityId JsString.eqb c (identifiers_cusip db)).
  { intros c.
    destruct (selectSecurityId JsString.eqb c (identifiers_cusip db))
      as [sid|] eqn:E.
    - destruct (selectSecurityId_Some _ jsstring_eqb_eq _ _ _ E)
        as (r & Hin & Hk & Hs).
      destruct (lookupByCusip_row db c r Hok Hin Hk) as (s & _ & Hid & ->).
      cbn [option_map r_id]. congruence.
    - apply (selectSecurityId_None _ jsstring_eqb_eq) in E.
      unfold lookupByCusip. rewrite (lookup_by_value_no_row _ _ E). reflexivity. }
  assert (C : forall t e, truthy e = true ->
                option_map r_id (lookupByTicker db t (Some e)) =
                selectSecurityId ticker_key_eqb (t, e) (identifiers_ticker db)).
  { intros t e He.
    destruct (selectSecurityId ticker_key_eqb (t, e) (identifiers_ticker db))
      as [sid|] eqn:E.
    - destruct (selectSecurityId_Some _ ticker_key_eqb_eq _ _ _ E)
        as (r & Hin & Hk & Hs).
      destruct (lookupByTicker_row db t e r Hok He Hin Hk) as (s & _ & Hid & ->).
      cbn [option_map r_id]. congruence.
    - apply (selectSecurityId_None _ ticker_key_eqb_eq) in E.
      rewrite (lookupByTicker_no_row db t e He E). reflexivity. }
  split; [exact A|]. split; [exact B|]. split; [exact C|].
  split; [|split].
  - intros i. rewrite <- (selectSecurityId_None _ jsstring_eqb_eq), <- A.
    destruct (lookupByIsin db i); simpl; split; congruence.
  - intros c. rewrite <- (selectSecurityId_None _ jsstring_eqb_eq), <- B.
    destruct (lookupByCusip db c); simpl; split; congruence.
  - intros t e He.
    rewrite <- (selectSecurityId_None _ ticker_key_eqb_eq), <- (C t e He).
    destruct (lookupByTicker db t (Some e)); simpl; split; congruence.
Qed.

Lemma lookups_agree_with_probes_witness :
  lookupByIsin (fst (insertSecurity initDatabase (apple (js "fmp")) 100))
    (js "US0000000000") = None.
Proof.
  destruct (lookups_agree_with_probes
              (fst (insertSecurity initDatabase (apple (js "fmp")) 100))
              eq_refl) as (_ & _ & _ & H & _).
  apply H. intros [E | []]. vm_compute in E. discriminate E.
Defined.

End InsertLookup.

(** ** [db.ts]: a new Security and the rest of the store *)

Section NewSecurity.
Import Db DbViews.

Lemma flat_map_ext_in {A B} (f g : A -> list B) (l : list A) :
  (forall x, In x l -> f x = g x) -> flat_map f l = flat_map g l.
Proof.
  induction l as [|x l IH]; intros H; [reflexivity|].
  cbn [flat_map]. rewrite (H x (or_introl eq_refl)), IH; [reflexivity|].
  intros y Hy. apply H. right. exact Hy.
Qed.

Lemma leftJoin_none {K} sid (tbl : list (ident_row K)) ids :
  refersTo ids tbl -> ~ In sid ids -> leftJoin sid tbl = [None].
Proof.
  intros R Hn. unfold leftJoin.
  replace (filter (fun r => sid =? security_id r) tbl) with (@nil (ident_row K));
    [reflexivity|].
  symmetry. apply filter_nil_iff. intros r Hr. apply Z.eqb_neq.
  intros E. apply Hn. rewrite E. apply R, Hr.
Qed.

Lemma leftJoin_app_other {K} sid (tbl : list (ident_row K)) r :
  security_id r <> sid -> leftJoin sid (tbl ++ [r]) = leftJoin sid tbl.
Proof.
  intros H. unfold leftJoin. rewrite filter_app. cbn [filter].
  rewrite (proj2 (Z.eqb_neq sid (security_id r))) by congruence.
  rewrite app_nil_r. reflexivity.
Qed.

Lemma joinSecurity_app_other sid rows s :
  id s <> sid -> joinSecurity sid (rows ++ [s]) = joinSecurity sid rows.
Proof.
  intros H. unfold joinSecurity. rewrite filter_app. cbn [filter].
  rewrite (proj2 (Z.eqb_neq sid (id s))) by congruence.
  rewrite app_nil_r. reflexivity.
Qed.

Lemma unknown_findExisting db security :
  db_ok db = true -> unknown db security -> findExisting db security = None.
Proof.
  intros Hok (E1 & E2 & E3).
  rewrite (findExisting_first_match db security Hok), E1, E2, E3. reflexivity.
Qed.

(** The database after a record with no identifier but its ticker created
    a Security. *)
Lemma insertSecurity_bare_new db security ts :
  db_ok db = true -> unknown db security -> bareListing security ->
  insertSecurity db security ts =
  (mkDatabase
     (securities db ++
        [newSecurityRow security (nextRowId (securities db)) ts])
     (identifiers_ticker db ++
        [mkIdentRow (nextRowId (securities db))
           (ticker security, exchange security) (source security) ts])
     (identifiers_isin db) (identifiers_cusip db) (identifiers_cik db),
   nextRowId (securities db)).
Proof.
  intros Hok Hun (B1 & B2 & B3).
  rewrite (insertSecurity_new db security ts (unknown_findExisting _ _ Hok Hun)).
  unfold upsertAll. rewrite B1, B2, B3. cbn [upsertIf].
  rewrite (upsert_new _ ticker_key_eqb_eq); [reflexivity|].
  destruct Hun as (E & _). unfold probeTicker in E.
  apply (selectSecurityId_None _ ticker_key_eqb_eq). exact E.
Qed.

(** X11. Partial data: when no probe matches a record that has neither
    ISIN, CUSIP nor CIK, [lookupByTicker] with its ticker and exchange
    afterwards returns the new Security with the record's name, type and
    sector, the time of the call, and [null] for isin, cusip and cik. *)
Theorem lookupByTicker_bare_new_listing :
  forall db security ts,
    db_ok db = true -> unknown db security -> bareListing security ->
    truthy (exchange security) = true ->
    lookupByTicker (fst (insertSecurity db security ts))
      (ticker security) (Some (exchange security)) =
    Some (mkSecurityResult (snd (insertSecurity db security ts))
            (name security) (Some (ticker security))
            (Some (exchange security)) None None None
            (orNull (security_type security))
            (orNull (market_sector security)) (js "db") ts).
Proof.
  intros db security ts Hok Hun Hbare He.
  pose proof (db_ok_insertSecurity db security ts Hok) as Hok'.
  pose proof (insertSecurity_security_fields db security ts) as Hf.
  rewrite (insertSecurity_bare_new db security ts Hok Hun Hbare) in *.
  cbn [fst snd] in *.
  set (sid := nextRowId (securities db)) in *.
  match type of Hok' with db_ok ?d = true => set (db' := d) in * end.
  assert (Hin : In (mkIdentRow sid (ticker security, exchange security)
                      (source security) ts) (identifiers_ticker db')).
  { cbn [db' identifiers_ticker]. apply in_app_iff. right. left. reflexivity. }
  destruct (lookupByTicker_row db' _ _ _ Hok' He Hin eq_refl)
    as (s & Hs & Hid & ->).
  cbn [security_id fetched_at] in *.
  destruct (Hf s Hok Hs Hid) as (F1 & F2 & F3).
  pose proof (proj1 (db_ok_schema db) Hok)
    as (_ & _ & _ & R2 & R3 & R4 & _).
  pose proof (nextRowId_fresh (securities db)) as Hfresh. fold sid in Hfresh.
  unfold sibling. cbn [db' identifiers_isin identifiers_cusip identifiers_cik].
  rewrite Hid.
  rewrite (leftJoin_none sid _ _ R2 Hfresh), (leftJoin_none sid _ _ R3 Hfresh),
    (leftJoin_none sid _ _ R4 Hfresh).
  cbn [hd column option_map orNull].
  rewrite F1, F2, F3, !orNull_idempotent. reflexivity.
Qed.

Lemma lookupByTicker_bare_new_listing_witness :
  lookupByTicker
    (fst (insertSecurity initDatabase
            (mkSecurityData (js "Example Company") (js "EXMPL") (js "NYSE")
               None None None None (js "test") None None) 100))
    (js "EXMPL") (Some (js "NYSE")) =
  Some (mkSecurityResult 1 (js "Example Company") (Some (js "EXMPL"))
          (Some (js "NYSE")) None None None None None (js "db") 100).
Proof.
  apply (lookupByTicker_bare_new_listing initDatabase
           (mkSecurityData (js "Example Company") (js "EXMPL") (js "NYSE")
              None None None None (js "test") None None) 100).
  - reflexivity.
  - repeat split.
  - repeat split.
  - reflexivity.
Defined.

(** X12. Independence: when such a record created a Security, every lookup
    whose key is not the record's (ticker, exchange) returns what it
    returned before: [lookupByTicker] for another ticker, or for the same
    ticker on another exchange, and [lookupByIsin] and [lookupByCusip] for
    every key. *)
Theorem new_listing_leaves_other_lookups :
  forall db security ts,
    db_ok db = true -> unknown db security -> bareListing security ->
    let db' := fst (insertSecurity db security ts) in
    (forall t ex,
        t <> ticker security \/
        (exists e, orNull ex = Some e /\ e <> exchange security) ->
        lookupByTicker db' t ex = lookupByTicker db t ex) /\
    (forall i, lookupByIsin db' i = lookupByIsin db i) /\
    (forall c, lookupByCusip db' c = lookupByCusip db c).
Proof.
  intros db security ts Hok Hun Hbare db'. unfold db'.
  rewrite (insertSecurity_bare_new db security ts Hok Hun Hbare). cbn [fst].
  pose proof (proj1 (db_ok_schema db) Hok)
    as (_ & _ & R1 & R2 & R3 & _).
  set (sid := nextRowId (securities db)).
  pose proof (nextRowId_fresh (securities db)) as Hfresh. fold sid in Hfresh.
  assert (Hsec : forall s, In s (securities db) -> id s <> sid).
  { intros s Hs E. apply Hfresh. rewrite <- E. apply in_map, Hs. }
  assert (Hjoin : forall {K} (tbl : list (ident_row K)) r,
             refersTo (map id (securities db)) tbl -> In r tbl ->
             joinSecurity (security_id r)
               (securities db ++ [newSecurityRow security sid ts]) =
             joinSecurity (security_id r) (securities db)).
  { intros K tbl r R Hr. apply joinSecurity_app_other. cbn [newSecurityRow id].
    intros E. apply Hfresh. rewrite E. apply R, Hr. }
  assert (Hleft : forall s, In s (securities db) ->
             leftJoin (id s)
               (identifiers_ticker db ++
                  [mkIdentRow sid (ticker security, exchange security)
                     (source security) ts]) =
             leftJoin (id s) (identifiers_ticker db)).
  { intros s Hs. apply leftJoin_app_other. cbn [security_id].
    apply not_eq_sym, Hsec, Hs. }
  split; [|split].
  - intros t ex Hother. unfold lookupByTicker.
    cbn [securities identifiers_ticker identifiers_isin identifiers_cusip
         identifiers_cik].
    rewrite filter_app. cbn [filter key fst snd].
    match goal with
    | |- context [if ?b then [_] else []] =>
        replace b with false
    end.
    2:{ symmetry. destruct Hother as [Hne | (e & -> & Hne)].
        - apply jsstring_eqb_neq in Hne.
          rewrite (proj2 (jsstring_eqb_neq (ticker security) t))
            by (intros E; apply jsstring_eqb_neq in Hne; congruence).
          destruct (orNull ex); reflexivity.
        - rewrite (proj2 (jsstring_eqb_neq (exchange security) e))
            by congruence.
          apply andb_false_r. }
    rewrite app_nil_r.
    match goal with
    | |- match get (flat_map ?f ?l) with _ => _ end =
         match get (flat_map ?g ?l) with _ => _ end =>
        rewrite (flat_map_ext_in f g l); [reflexivity|]
    end.
    intros t0 Ht0. apply filter_In in Ht0. destruct Ht0 as [Ht0 _].
    rewrite (Hjoin _ _ t0 R1 Ht0). reflexivity.
  - intros i. unfold lookupByIsin.
    cbn [securities identifiers_ticker identifiers_isin identifiers_cusip
         identifiers_cik].
    match goal with
    | |- match get (flat_map ?f ?l) with _ => _ end =
         match get (flat_map ?g ?l) with _ => _ end =>
        rewrite (flat_map_ext_in f g l); [reflexivity|]
    end.
    intros i0 Hi0. apply filter_In in Hi0. destruct Hi0 as [Hi0 _].
    rewrite (Hjoin _ _ i0 R2 Hi0).
    apply flat_map_ext_in. intros s Hs.
    unfold joinSecurity in Hs. apply filter_In in Hs. destruct Hs as [Hs _].
    rewrite (Hleft s Hs). reflexivity.
  - intros c. unfold lookupByCusip.
    cbn [securities identifiers_ticker identifiers_isin identifiers_cusip
         identifiers_cik].
    match goal with
    | |- match get (flat_map ?f ?l) with _ => _ end =
         match get (flat_map ?g ?l) with _ => _ end =>
        rewrite (flat_map_ext_in f g l); [reflexivity|]
    end.
    intros c0 Hc0. apply filter_In in Hc0. destruct Hc0 as [Hc0 _].
    rewrite (Hjoin _ _ c0 R3 Hc0).
    apply flat_map_ext_in. intros s Hs.
    unfold joinSecurity in Hs. apply filter_In in Hs. destruct Hs as [Hs _].
    rewrite (Hleft s Hs). reflexivity.
Qed.

Lemma new_listing_leaves_other_lookups_witness :
  lookupByTicker
    (fst (insertSecurity
            (fst (insertSecurity initDatabase
                    (bare "Example Corp (NYSE)" "EXM" "NYSE") 100))
            (bare "Example Ltd (LSE)" "EXM" "LSE") 200))
    (js "EXM") (Some (js "NYSE")) =
  lookupByTicker
    (fst (insertSecurity initDatabase (bare "Example Corp (NYSE)" "EXM" "NYSE")
            100))
    (js "EXM") (Some (js "NYSE")).
Proof.
  destruct (new_listing_leaves_other_lookups
              (fst (insertSecurity initDatabase
                      (bare "Example Corp (NYSE)" "EXM" "NYSE") 100))
              (bare "Example Ltd (LSE)" "EXM" "LSE") 200)
    as (H & _).
  - reflexivity.
  - repeat split.
  - repeat split.
  - apply H. right. exists (js "NYSE"). split; [reflexivity|].
    vm_compute. discriminate.
Defined.

(** X13. The CIK is not a probe: a record that no probe matches creates a
    new Security even when its CIK already has a row, and that row is moved
    from the Security that owned it to the new one. *)
Theorem insertSecurity_cik_is_not_a_probe :
  forall db security ts k owner,
    db_ok db = true -> unknown db security ->
    orNull (cik security) = Some k ->
    selectSecurityId JsString.eqb k (identifiers_cik db) = Some owner ->
    let db' := fst (insertSecurity db security ts) in
    let sid := snd (insertSecurity db security ts) in
    sid <> owner /\
    ~ In sid (map id (securities db)) /\
    In owner (map id (securities db)) /\
    selectSecurityId JsString.eqb k (identifiers_cik db') = Some sid /\
    List.length (identifiers_cik db') = List.length (identifiers_cik db).
Proof.
  intros db security ts k owner Hok Hun Hk Hown db' sid.
  unfold db', sid.
  rewrite (insertSecurity_new db security ts (unknown_findExisting _ _ Hok Hun)).
  cbn [fst snd upsertAll identifiers_cik]. rewrite Hk. cbn [upsertIf].
  pose proof (proj1 (db_ok_parts db Hok)) as Hpos.
  destruct (db_ok_parts db Hok) as (_ & _ & _ & _ & _ & R & _).
  destruct (references_probe JsString.eqb _ _ k owner Hpos R Hown) as [_ Hin].
  pose proof (nextRowId_fresh (securities db)) as Hfresh.
  split; [intros E; apply Hfresh; rewrite E; exact Hin|].
  split; [exact Hfresh|]. split; [exact Hin|].
  split; [apply selectSecurityId_upsert, jsstring_eqb_eq|].
  destruct (selectSecurityId_Some _ jsstring_eqb_eq _ _ _ Hown)
    as (r & Hr & Hkr & _).
  assert (Hkin : In k (map key (identifiers_cik db)))
    by (rewrite <- Hkr; apply in_map, Hr).
  destruct (upsert_existing JsString.eqb jsstring_eqb_eq k
              (nextRowId (securities db)) (source security) ts _ Hkin)
    as (L & _).
  exact L.
Qed.

Lemma insertSecurity_cik_is_not_a_probe_witness :
  selectSecurityId JsString.eqb (js "0001652044")
    (identifiers_cik
       (fst (insertSecurity
               (fst (insertSecurity initDatabase
                       (mkSecurityData (js "Alphabet Inc. Class A") (js "GOOGL")
                          (js "NASDAQ") None None (Some (js "0001652044")) None
                          (js "fmp") None None) 100))
               (mkSecurityData (js "Alphabet Inc. Class C") (js "GOOG")
                  (js "NASDAQ") None None (Some (js "0001652044")) None
                  (js "fmp") None None) 200))) = Some 2.
Proof.
  destruct (insertSecurity_cik_is_not_a_probe
              (fst (insertSecurity initDatabase
                      (mkSecurityData (js "Alphabet Inc. Class A") (js "GOOGL")
                         (js "NASDAQ") None None (Some (js "0001652044")) None
                         (js "fmp") None None) 100))
              (mkSecurityData (js "Alphabet Inc. Class C") (js "GOOG")
                 (js "NASDAQ") None None (Some (js "0001652044")) None
                 (js "fmp") None None) 200 (js "0001652044") 1)
    as (_ & _ & _ & H & _).
  - reflexivity.
  - repeat split.
  - reflexivity.
  - reflexivity.
  - exact H.
Defined.

(** ** [db.ts]: nothing is deleted *)

Lemma upsert_grown {K} (eqb : K -> K -> bool)
    (eqb_eq : forall a b, eqb a b = true <-> a = b) k sid src ts
    (tbl : list (Db.ident_row K)) :
  DbViews.grown k tbl (Db.upsert eqb sid k src ts tbl).
Proof.
  destruct (existsb (fun r => eqb (Db.key r) k) tbl) eqn:Ex.
  - apply (existsb_key_In eqb eqb_eq) in Ex.
    destruct (upsert_existing eqb eqb_eq k sid src ts tbl Ex)
      as (_ & Hkeys & Hother & _).
    split; [|exact Hother].
    exists []. rewrite app_nil_r. split; [exact Hkeys | simpl; lia].
  - assert (Hn : ~ In k (map Db.key tbl)).
    { rewrite <- (existsb_key_In eqb eqb_eq). congruence. }
    rewrite (upsert_new eqb eqb_eq k sid src ts tbl Hn). split.
    + exists [k]. rewrite map_app. split; [reflexivity | simpl; lia].
    + intros n r Hr _. rewrite nth_error_app1; [exact Hr|].
      apply nth_error_Some. congruence.
Qed.

Lemma upsertIf_grown x sid src ts (tbl : list (Db.ident_row jsstring)) :
  DbViews.grownIf x tbl (Db.upsertIf JsString.eqb x sid src ts tbl).
Proof.
  destruct x; simpl; [apply upsert_grown, jsstring_eqb_eq | reflexivity].
Qed.

(** X14. [insertSecurity] never deletes and never touches a stranger: on
    any database, every Security row keeps its position, id and
    [created_at], and is unchanged unless it has the returned id; at most
    one Security row is added; each identifier table gains at most one row,
    at the end, and every row whose key is not the record's is unchanged. *)
Theorem insertSecurity_never_deletes :
  forall db security ts,
    let db' := fst (Db.insertSecurity db security ts) in
    let sid := snd (Db.insertSecurity db security ts) in
    (exists added,
        map Db.id (Db.securities db') = map Db.id (Db.securities db) ++ added /\
        (List.length added <= 1)%nat) /\
    (forall n s, nth_error (Db.securities db) n = Some s ->
       exists s', nth_error (Db.securities db') n = Some s' /\
                  Db.id s' = Db.id s /\ Db.created_at s' = Db.created_at s /\
                  (Db.id s <> sid -> s' = s)) /\
    DbViews.grown (Db.ticker security, Db.exchange security)
      (Db.identifiers_ticker db) (Db.identifiers_ticker db') /\
    DbViews.grownIf (Db.orNull (Db.isin security))
      (Db.identifiers_isin db) (Db.identifiers_isin db') /\
    DbViews.grownIf (Db.orNull (Db.cusip security))
      (Db.identifiers_cusip db) (Db.identifiers_cusip db') /\
    DbViews.grownIf (Db.orNull (Db.cik security))
      (Db.identifiers_cik db) (Db.identifiers_cik db').
Proof.
  intros db security ts. unfold Db.insertSecurity.
  destruct (Db.notId (Db.findExisting db security)) eqn:N;
    cbn [fst snd Db.securities Db.identifiers_ticker Db.identifiers_isin
         Db.identifiers_cusip Db.identifiers_cik].
  - split.
    { exists [Db.nextRowId (Db.securities db)]. rewrite map_app.
      split; [reflexivity | simpl; lia]. }
    split.
    { intros n s Hs. exists s. rewrite nth_error_app1.
      - repeat split. exact Hs.
      - apply nth_error_Some. congruence. }
    split; [apply upsert_grown, ticker_key_eqb_eq|].
    split; [apply upsertIf_grown|]. split; apply upsertIf_grown.
  - split.
    { exists []. rewrite app_nil_r, updateSecurity_ids.
      split; [reflexivity | simpl; lia]. }
    split.
    { intros n s Hs. unfold Db.updateSecurity.
      rewrite nth_error_map, Hs. cbn [option_map].
      eexists. split; [reflexivity|].
      destruct (Z.eqb_spec (Db.id s)
                  match Db.findExisting db security with
                  | Some n0 => n0
                  | None => 0
                  end) as [E | E].
      - repeat split. intros H. contradiction.
      - repeat split. }
    split; [apply upsert_grown, ticker_key_eqb_eq|].
    split; [apply upsertIf_grown|]. split; apply upsertIf_grown.
Qed.

End NewSecurity.

(** ** [fmp.ts]: every way the call can end *)

Section FmpMore.
Import Fmp FmpViews.

Lemma dropWhile_nil_iff (s : jsstring) :
  JsText.dropWhile is_space s = [] <-> forallb is_space s = true.
Proof.
  induction s as [|c s IH]; simpl; [tauto|].
  destruct (is_space c); simpl; [exact IH|].
  split; discriminate.
Qed.

Lemma dropWhile_head (s : jsstring) c rest :
  JsText.dropWhile is_space s = c :: rest -> is_space c = false.
Proof.
  induction s as [|x s IH]; simpl; [discriminate|].
  destruct (is_space x) eqn:E; [exact IH|].
  intros [= <- _]. exact E.
Qed.

(** [apiKey.trim() === ""] is the test the model writes [trim_is_empty]. *)
Lemma trim_empty_iff (s : jsstring) :
  JsText.trim s = [] <-> trim_is_empty s = true.
Proof.
  unfold JsText.trim, trim_is_empty. split.
  - intros H. apply (f_equal (@rev Z)) in H. rewrite rev_involutive in H.
    cbn [rev] in H. apply dropWhile_nil_iff in H.
    destruct (JsText.dropWhile is_space s) as [|c rest] eqn:D.
    + apply dropWhile_nil_iff. exact D.
    + pose proof (dropWhile_head s c rest D) as Hc.
      rewrite forallb_forall in H.
      rewrite (H c) in Hc; [discriminate|].
      apply in_rev. rewrite rev_involutive. left. reflexivity.
  - intros H. apply dropWhile_nil_iff in H. rewrite H. reflexivity.
Qed.

Lemma keyAccepted_false_iff apiKey :
  keyAccepted apiKey = false <-> JsText.trim apiKey = [].
Proof.
  unfold keyAccepted. rewrite negb_false_iff, trim_empty_iff.
  destruct apiKey as [|c s]; [simpl; tauto|].
  cbn [truthy negb orb]. reflexivity.
Qed.

(** X15. An API key that is empty or white space only ([apiKey.trim()] is
    the empty string) is refused with ["API key is required"] and no
    status code, whatever the network would have answered. *)
Theorem fetchTickerProfile_requires_api_key :
  forall (ticker apiKey : jsstring) (net : FetchOutcome),
    JsText.trim apiKey = [] ->
    fetchTickerProfile ticker apiKey net =
    inl (FmpApiError (js "API key is required") None).
Proof.
  intros ticker apiKey net H. apply keyAccepted_false_iff in H.
  unfold keyAccepted in H. apply negb_false_iff in H.
  unfold fetchTickerProfile. rewrite H. reflexivity.
Qed.

Lemma fetchTickerProfile_requires_api_key_witness :
  fetchTickerProfile (js "AAPL") (js "   ")
    (Fetched (mkResponse 200 (js "OK") (inr (JArray [])))) =
  inl (FmpApiError (js "API key is required") None).
Proof.
  apply (fetchTickerProfile_requires_api_key (js "AAPL") (js "   ")).
  reflexivity.
Defined.

Lemma getProperty_property profile k :
  profile <> JNull -> getProperty profile (js k) = inr (property profile k).
Proof. destruct profile; intros H; try reflexivity. contradiction. Qed.

(** X16. [fetchTickerProfile] returns a record exactly when the key is
    accepted, the response has a 2xx status, and the body is a non-empty
    array that is not the rate-limit message and whose first element is not
    [null].  The record is read off that first element alone: [symbol],
    [companyName], [exchange], [isin], [cusip], [cik] and [sector], with
    source ["fmp"]. *)
Theorem fetchTickerProfile_returns_iff :
  forall (ticker apiKey : jsstring) (net : FetchOutcome) (data : SecurityData),
    fetchTickerProfile ticker apiKey net = inr data <->
    keyAccepted apiKey = true /\
    exists response profile rest,
      net = Fetched response /\ ok response = true /\
      json_ response = inr (JArray (profile :: rest)) /\
      rateLimitBody (profile :: rest) = false /\
      profile <> JNull /\ data = recordOf profile.
Proof.
  intros ticker apiKey net data. unfold fetchTickerProfile, keyAccepted.
  destruct (negb (truthy apiKey) || trim_is_empty apiKey); cbn [negb].
  { split; [discriminate | intros [H _]; discriminate H]. }
  destruct net as [m | e | response].
  1,2: split; [discriminate | intros (_ & r & p & rest & H & _); discriminate H].
  destruct (ok response) eqn:Hok; cbn [negb].
  2:{ split.
      - destruct (status response =? 429); [discriminate|].
        destruct ((status response =? 401) || (status response =? 403)).
        + destruct (invalidApiKeyBody _) as [x | []]; discriminate.
        + destruct (status response >=? 500); discriminate.
      - intros (_ & r & p & rest & [= <-] & H & _). congruence. }
  destruct (json_ response) as [e | v] eqn:Hjson.
  { split; [discriminate|].
    intros (_ & r & p & rest & [= <-] & _ & H & _). congruence. }
  destruct v as [| b | n | str | items | fields];
    try (split; [discriminate|];
         intros (_ & r & p & rest & [= <-] & _ & H & _); congruence).
  destruct (rateLimitBody items) eqn:Hrl.
  { split; [discriminate|].
    intros (_ & r & p & rest & [= <-] & _ & H & Hrl' & _). congruence. }
  destruct items as [|profile rest].
  { split; [discriminate|].
    intros (_ & r & p & rest & [= <-] & _ & H & _). congruence. }
  destruct profile as [| b | n | str | items | fields].
  { cbn [getProperty]. split; [discriminate|].
    intros (_ & r & p & rest' & [= <-] & _ & H & _ & Hp & _).
    exfalso. apply Hp. congruence. }
  all: cbn [getProperty]; split;
    [ intros [= <-]; split; [reflexivity|];
      eexists; eexists; eexists;
      repeat (split; [reflexivity || eassumption || discriminate|]);
      reflexivity
    | intros (_ & r & p & rest' & [= <-] & _ & H & _ & _ & ->);
      rewrite Hjson in H; injection H as H _; subst p; reflexivity ].
Qed.

Lemma fetchTickerProfile_returns_iff_witness :
  fetchTickerProfile (js "AAPL") (js "demo")
    (Fetched
       (mkResponse 200 (js "OK")
          (inr (JArray
                  [JObject [(js "symbol", JString (js "AAPL"));
                            (js "companyName", JString (js "Apple Inc."));
                            (js "exchange", JString (js "NASDAQ"));
                            (js "isin", JString (js "US0378331005"))];
                   JNull])))) =
  inr (mkSecurityData (Some (JString (js "AAPL")))
         (Some (JString (js "Apple Inc."))) (Some (JString (js "NASDAQ")))
         (js "fmp") (Some (JString (js "US0378331005"))) None None None).
Proof.
  apply (proj2 (fetchTickerProfile_returns_iff _ _ _ _)).
  split; [reflexivity|].
  eexists. eexists. eexists.
  split; [reflexivity|]. split; [reflexivity|]. split; [reflexivity|].
  split; [reflexivity|]. split; [discriminate | reflexivity].
Defined.

Lemma rateLimitBody_true_iff items :
  rateLimitBody items = true <->
  exists fields m,
    items = [JObject fields] /\
    lookup (js "message") fields = Some (JString m) /\
    includes (js "rate limit") m = true.
Proof.
  unfold rateLimitBody. split.
  - destruct items as [|[| | | | |fields] [|]]; try discriminate.
    destruct (lookup (js "message") fields) as [[| | |m| |]|] eqn:E;
      try discriminate.
    intros H. exists fields, m. repeat split; assumption.
  - intros (fields & m & -> & -> & H). exact H.
Qed.

Lemma invalidApiKeyBody_throws body e :
  invalidApiKeyBody body = inl e -> e = TypeError.
Proof.
  unfold invalidApiKeyBody.
  destruct body as [| | | | |fields]; cbn [getProperty];
    try discriminate; try (intros [= <-]; reflexivity).
  destruct (lookup (js "Error Message") fields) as [[| | | | |]|];
    try discriminate; intros [= <-]; reflexivity.
Qed.

(** X17. [FmpRateLimitError] is thrown in the two cases of rate limiting
    and in no other: the key was accepted, a response arrived, and either
    its status is 429, or its status is 2xx and its body is a one-element
    array holding an object whose string [message] contains
    ["rate limit"]. *)
Theorem fetchTickerProfile_rate_limit_only_when :
  forall (ticker apiKey : jsstring) (net : FetchOutcome) (m : jsstring),
    fetchTickerProfile ticker apiKey net = inl (FmpRateLimitError m) ->
    m = rateLimitMessage /\ keyAccepted apiKey = true /\
    exists response,
      net = Fetched response /\
      (status response = 429 \/
       (ok response = true /\
        exists fields msg,
          json_ response = inr (JArray [JObject fields]) /\
          lookup (js "message") fields = Some (JString msg) /\
          includes (js "rate limit") msg = true)).
Proof.
  intros ticker apiKey net m. unfold fetchTickerProfile, keyAccepted.
  destruct (negb (truthy apiKey) || trim_is_empty apiKey); [discriminate|].
  destruct net as [x | x | response]; try discriminate.
  destruct (ok response) eqn:Hok; cbn [negb].
  - destruct (json_ response) as [e | v] eqn:Hjson; [discriminate|].
    destruct v as [| b | n | str | items | fields]; try discriminate.
    destruct (rateLimitBody items) eqn:Hrl.
    + intros [= <-]. split; [reflexivity|]. split; [reflexivity|].
      exists response. split; [reflexivity|]. right. split; [exact Hok|].
      apply rateLimitBody_true_iff in Hrl.
      destruct Hrl as (fields & msg & -> & H1 & H2). eauto.
    + destruct items as [|profile rest]; [discriminate|].
      destruct (getProperty profile (js "symbol")) as [e|] eqn:G;
        [|discriminate].
      destruct profile; cbn [getProperty] in G; try discriminate.
      injection G as <-. discriminate.
  - destruct (Z.eqb_spec (status response) 429) as [E | E].
    + intros [= <-]. split; [reflexivity|]. split; [reflexivity|].
      exists response. split; [reflexivity|]. left. exact E.
    + destruct ((status response =? 401) || (status response =? 403)).
      * destruct (invalidApiKeyBody _) as [e | []] eqn:B; try discriminate.
        apply invalidApiKeyBody_throws in B. subst e. discriminate.
      * destruct (status response >=? 500); discriminate.
Qed.

Lemma fetchTickerProfile_rate_limit_only_when_witness :
  rateLimitMessage = rateLimitMessage /\ keyAccepted (js "demo") = true /\
  exists response,
    Fetched (mkResponse 429 (js "Too Many Requests") (inl (js ""))) =
    Fetched response /\
    (status response = 429 \/
     (ok response = true /\
      exists fields msg,
        json_ response = inr (JArray [JObject fields]) /\
        lookup (js "message") fields = Some (JString msg) /\
        includes (js "rate limit") msg = true)).
Proof.
  apply (fetchTickerProfile_rate_limit_only_when (js "AAPL") (js "demo")
           (Fetched (mkResponse 429 (js "Too Many Requests") (inl (js ""))))
           rateLimitMessage).
  reflexivity.
Defined.

(** X18. A response whose status is not 2xx never yields a record.  The call
    throws an error whose [statusCode] is the status of the response; the
    two exceptions are on 401 and 403, where a body recognised as an invalid
    API key is reported as 401 also on a 403, and where a [TypeError] of the
    runtime can escape. *)
Theorem fetchTickerProfile_http_error_status :
  forall (ticker apiKey : jsstring) (response : Response),
    keyAccepted apiKey = true ->
    ok response = false ->
    exists e,
      fetchTickerProfile ticker apiKey (Fetched response) = inl e /\
      (status response <> 401 -> status response <> 403 ->
       statusCodeOf e = Some (status response)) /\
      (status response = 401 ->
       e = TypeError \/ statusCodeOf e = Some 401) /\
      (status response = 403 ->
       e = TypeError \/ statusCodeOf e = Some 403 \/
       e = FmpApiError invalidKeyMessage (Some 401)).
Proof.
  intros ticker apiKey response Hkey Hok.
  unfold keyAccepted in Hkey. apply negb_true_iff in Hkey.
  unfold fetchTickerProfile. rewrite Hkey, Hok. cbn [negb].
  destruct (Z.eqb_spec (status response) 429) as [E429 | E429].
  { eexists. split; [reflexivity|]. cbn [statusCodeOf].
    split; [intros; congruence|]. split; intros; lia. }
  destruct (Z.eqb_spec (status response) 401) as [E401 | E401];
    [|destruct (Z.eqb_spec (status response) 403) as [E403 | E403]];
    cbn [orb].
  - destruct (invalidApiKeyBody _) as [e | []] eqn:B.
    + apply invalidApiKeyBody_throws in B. subst e.
      eexists. split; [reflexivity|]. split; [intros; contradiction|].
      split; intros; [left; reflexivity | lia].
    + eexists. split; [reflexivity|]. split; [intros; contradiction|].
      split; intros; [right; reflexivity | lia].
    + eexists. split; [reflexivity|]. split; [intros; contradiction|].
      split; intros; [right; cbn; congruence | lia].
  - destruct (invalidApiKeyBody _) as [e | []] eqn:B.
    + apply invalidApiKeyBody_throws in B. subst e.
      eexists. split; [reflexivity|]. split; [intros; contradiction|].
      split; intros; [lia | left; reflexivity].
    + eexists. split; [reflexivity|]. split; [intros; contradiction|].
      split; intros; [lia | right; right; reflexivity].
    + eexists. split; [reflexivity|]. split; [intros; contradiction|].
      split; intros; [lia | right; left; cbn; congruence].
  - destruct (status response >=? 500);
      (eexists; split; [reflexivity|]; cbn [statusCodeOf];
       split; [reflexivity|]; split; intros; contradiction).
Qed.

Lemma fetchTickerProfile_http_error_status_witness :
  exists e,
    fetchTickerProfile (js "AAPL") (js "demo")
      (Fetched (mkResponse 503 (js "Service Unavailable") (inl (js "")))) =
    inl e /\ statusCodeOf e = Some 503.
Proof.
  destruct (fetchTickerProfile_http_error_status (js "AAPL") (js "demo")
              (mkResponse 503 (js "Service Unavailable") (inl (js "")))
              eq_refl eq_refl) as (e & E & H & _).
  exists e. split; [exact E|]. apply H; discriminate.
Defined.

(** X19. On a 401 or 403 the body decides.  A body that is not JSON counts
    as an empty object and gives ["Authentication failed: HTTP <status>"]
    with the status; so does an object without ["Error Message"].  An object
    whose ["Error Message"] is a string containing ["Invalid API KEY"] gives
    the invalid-key error with code 401.  A body that is JSON [null] makes
    the property access throw a [TypeError], which is neither class of the
    module. *)
Theorem fetchTickerProfile_auth_failure :
  forall (ticker apiKey : jsstring) (response : Response),
    keyAccepted apiKey = true ->
    status response = 401 \/ status response = 403 ->
    let failed :=
      inl (FmpApiError
             (js "Authentication failed: HTTP " ++ toString (status response))
             (Some (status response))) in
    let result := fetchTickerProfile ticker apiKey (Fetched response) in
    (forall e, json_ response = inl e -> result = failed) /\
    (forall fields,
        json_ response = inr (JObject fields) ->
        lookup (js "Error Message") fields = None -> result = failed) /\
    (forall fields m,
        json_ response = inr (JObject fields) ->
        lookup (js "Error Message") fields = Some (JString m) ->
        result =
        if includes (js "Invalid API KEY") m
        then inl (FmpApiError invalidKeyMessage (Some 401))
        else failed) /\
    (json_ response = inr JNull -> result = inl TypeError).
Proof.
  intros ticker apiKey response Hkey Hst failed result.
  unfold keyAccepted in Hkey. apply negb_true_iff in Hkey.
  assert (E : result =
    match invalidApiKeyBody
            match json_ response with inr v => v | inl _ => JObject [] end with
    | inl e => inl e
    | inr true => inl (FmpApiError invalidKeyMessage (Some 401))
    | inr false => failed
    end).
  { unfold result, fetchTickerProfile. rewrite Hkey.
    assert (Hok : ok response = false)
      by (unfold ok; destruct Hst as [-> | ->]; reflexivity).
    rewrite Hok. cbn [negb].
    assert (H429 : (status response =? 429) = false)
      by (destruct Hst as [-> | ->]; reflexivity).
    assert (Hauth : (status response =? 401) || (status response =? 403) = true)
      by (destruct Hst as [-> | ->]; reflexivity).
    rewrite H429, Hauth. reflexivity. }
  rewrite E. split; [|split; [|split]].
  - intros e ->. reflexivity.
  - intros fields -> L. unfold invalidApiKeyBody. cbn [getProperty].
    rewrite L. reflexivity.
  - intros fields m -> L. unfold invalidApiKeyBody. cbn [getProperty].
    rewrite L. destruct (includes _ m); reflexivity.
  - intros ->. reflexivity.
Qed.

Lemma fetchTickerProfile_auth_failure_witness :
  fetchTickerProfile (js "AAPL") (js "demo")
    (Fetched (mkResponse 403 (js "Forbidden") (inr JNull))) = inl TypeError.
Proof.
  destruct (fetchTickerProfile_auth_failure (js "AAPL") (js "demo")
              (mkResponse 403 (js "Forbidden") (inr JNull)) eq_refl
              (or_intror eq_refl)) as (_ & _ & _ & H).
  apply H. reflexivity.
Defined.

(** X20. A 2xx response without a usable profile is an [FmpApiError]: an
    empty array means the ticker is unknown (code 404, the ticker in the
    message), and a body that is not an array, such as an object, is
    reported with its [typeof]. *)
Theorem fetchTickerProfile_no_profile :
  forall (ticker apiKey : jsstring) (response : Response),
    keyAccepted apiKey = true ->
    ok response = true ->
    (json_ response = inr (JArray []) ->
     fetchTickerProfile ticker apiKey (Fetched response) =
     inl (FmpApiError (js "Ticker not found: " ++ ticker) (Some 404))) /\
    (forall v, json_ response = inr v ->
       (forall items, v <> JArray items) ->
       fetchTickerProfile ticker apiKey (Fetched response) =
       inl (FmpApiError
              (js "Invalid response format: expected array, got " ++ typeof v)
              None)) /\
    (forall e, json_ response = inl e ->
       fetchTickerProfile ticker apiKey (Fetched response) =
       inl (FmpApiError (js "Failed to parse JSON response: " ++ e) None)).
Proof.
  intros ticker apiKey response Hkey Hok.
  unfold keyAccepted in Hkey. apply negb_true_iff in Hkey.
  unfold fetchTickerProfile. rewrite Hkey, Hok. cbn [negb].
  split; [|split].
  - intros ->. reflexivity.
  - intros v -> Hv. destruct v; try reflexivity.
    exfalso. exact (Hv items eq_refl).
  - intros e ->. reflexivity.
Qed.

Lemma fetchTickerProfile_no_profile_witness :
  fetchTickerProfile (js "NOPE") (js "demo")
    (Fetched (mkResponse 200 (js "OK") (inr (JArray [])))) =
  inl (FmpApiError (js "Ticker not found: NOPE") (Some 404)).
Proof.
  destruct (fetchTickerProfile_no_profile (js "NOPE") (js "demo")
              (mkResponse 200 (js "OK") (inr (JArray []))) eq_refl eq_refl)
    as (H & _).
  apply H. reflexivity.
Defined.

End FmpMore.

(** ** [cli.ts]: the format checks *)

Section CliFormats.
Import Isin Cli.

Lemma length_between (s : jsstring) :
  (JsString.length s <? 1) || (JsString.length s >? 10) = false <->
  (1 <= List.length s <= 10)%nat.
Proof.
  unfold JsString.length. rewrite orb_false_iff, Z.ltb_ge, Z.gtb_ltb, Z.ltb_ge.
  lia.
Qed.

(** X21. [validateTicker] returns [true] exactly on strings of 1 to 10
    characters over [A-Z0-9.-] that start with an uppercase letter, and
    never returns [false]: every other string is an exception.  The length
    is checked first, then the first character, then the rest. *)
Theorem validateTicker_accepts_iff :
  forall ticker : jsstring,
    (validateTicker ticker = inr true <->
     (1 <= List.length ticker <= 10)%nat /\
     is_upper (nth 0 ticker 0) = true /\
     forallb tickerChar ticker = true) /\
    validateTicker ticker <> inr false /\
    ((List.length ticker < 1 \/ 10 < List.length ticker)%nat ->
     validateTicker ticker =
     throws (js "Invalid ticker " ++ JsText.quoted ticker ++
             js ": must be 1-10 characters long")) /\
    ((1 <= List.length ticker <= 10)%nat ->
     is_upper (nth 0 ticker 0) = false ->
     validateTicker ticker =
     throws (js "Invalid ticker " ++ JsText.quoted ticker ++
             js ": must start with a letter")).
Proof.
  intros ticker. unfold validateTicker.
  destruct ((JsString.length ticker <? 1) || (JsString.length ticker >? 10))
    eqn:L.
  - assert (~ (1 <= List.length ticker <= 10)%nat)
      by (rewrite <- length_between; congruence).
    split; [split; [discriminate | tauto]|].
    split; [discriminate|]. split; [reflexivity | lia].
  - apply length_between in L.
    assert (Hs : startsWithLetter ticker = is_upper (nth 0 ticker 0)).
    { destruct ticker; [simpl in L; lia | reflexivity]. }
    assert (Ht : tickerChars ticker = forallb tickerChar ticker).
    { unfold tickerChars. destruct ticker; [simpl in L; lia | reflexivity]. }
    rewrite Hs, Ht.
    destruct (is_upper (nth 0 ticker 0)); cbn [negb].
    + destruct (forallb tickerChar ticker); cbn [negb].
      * split; [tauto|]. split; [discriminate|].
        split; [lia | discriminate].
      * split; [split; [discriminate | intros (_ & _ & H); discriminate H]|].
        split; [discriminate|]. split; [lia | discriminate].
    + split; [split; [discriminate | intros (_ & H & _); discriminate H]|].
      split; [discriminate|]. split; [lia | reflexivity].
Qed.

Lemma validateTicker_accepts_iff_witness :
  validateTicker (js "BRK-B") = inr true /\
  validateTicker (js "VERYLONGTICKER") =
  throws (js "Invalid ticker " ++ JsText.quoted (js "VERYLONGTICKER") ++
          js ": must be 1-10 characters long") /\
  validateTicker (js "aapl") =
  throws (js "Invalid ticker " ++ JsText.quoted (js "aapl") ++
          js ": must start with a letter").
Proof.
  split; [|split].
  - apply (proj1 (validateTicker_accepts_iff (js "BRK-B"))).
    split; [simpl; lia | split; reflexivity].
  - apply (validateTicker_accepts_iff (js "VERYLONGTICKER")). simpl. lia.
  - apply (validateTicker_accepts_iff (js "aapl")); [simpl; lia | reflexivity].
Defined.

Lemma firstn_11_split (s : jsstring) :
  List.length s = 12%nat -> firstn 11 s = firstn 2 s ++ firstn 9 (skipn 2 s).
Proof.
  intros H. rewrite <- (firstn_skipn 2 s) at 1.
  rewrite firstn_app, firstn_firstn. cbn [Nat.min].
  rewrite length_firstn, H. reflexivity.
Qed.

Lemma skipn_11_last (s : jsstring) :
  List.length s = 12%nat -> skipn 11 s = [nth 11 s 0].
Proof.
  intros H.
  assert (L : List.length (skipn 11 s) = 1%nat) by (rewrite length_skipn; lia).
  rewrite <- (firstn_skipn 11 s) at 2.
  rewrite app_nth2 by (rewrite length_firstn; lia).
  rewrite length_firstn, H. cbn [Nat.min Nat.sub].
  destruct (skipn 11 s) as [|x [|y l]]; try discriminate L. reflexivity.
Qed.

Lemma firstn_2_upper (s : jsstring) :
  (2 <= List.length s)%nat ->
  forallb is_upper (firstn 2 s) = is_upper (nth 0 s 0) && is_upper (nth 1 s 0).
Proof.
  destruct s as [|a [|b rest]]; simpl; intros H; try lia.
  rewrite andb_true_r. reflexivity.
Qed.

Lemma startsWithTwoLetters_nth (s : jsstring) :
  (2 <= List.length s)%nat ->
  startsWithTwoLetters s = is_upper (nth 0 s 0) && is_upper (nth 1 s 0).
Proof. destruct s as [|a [|b rest]]; simpl; intros H; try lia. reflexivity. Qed.

Lemma validateIsinFormat_iff (s : jsstring) :
  validateIsinFormat s = inr true <->
  List.length s = 12%nat /\
  is_upper (nth 0 s 0) && is_upper (nth 1 s 0) = true /\
  forallb validChar (firstn 9 (skipn 2 s)) = true /\
  is_digit (nth 11 s 0) = true.
Proof.
  unfold validateIsinFormat.
  destruct (Nat.eq_dec (List.length s) 12) as [H | H].
  - length_guard H. cbn [negb].
    rewrite (startsWithTwoLetters_nth s) by lia.
    unfold isinShape. rewrite (proj2 (Nat.eqb_eq _ _) H).
    rewrite (firstn_2_upper s) by lia. rewrite (skipn_11_last s H).
    cbn [forallb andb]. rewrite andb_true_r.
    destruct (is_upper (nth 0 s 0) && is_upper (nth 1 s 0)); cbn [negb andb].
    + destruct (forallb validChar (firstn 9 (skipn 2 s))); cbn [andb].
      * destruct (is_digit (nth 11 s 0)); cbn [negb].
        -- tauto.
        -- split; [discriminate | intros (_ & _ & _ & E); discriminate E].
      * split; [discriminate | intros (_ & _ & E & _); discriminate E].
    + split; [discriminate | intros (_ & E & _); discriminate E].
  - length_guard H. cbn [negb]. split; [discriminate | tauto].
Qed.

Lemma validateIsin_passes_format (s : jsstring) :
  valid (validateIsin s) = true -> validateIsinFormat s = inr true.
Proof.
  intros H. apply validateIsin_valid_iff in H.
  destruct H as (Hlen & Hup & Hdig & Hv & _).
  apply validateIsinFormat_iff.
  rewrite (firstn_11_split s Hlen), forallb_app in Hv.
  apply andb_true_iff in Hv. tauto.
Qed.

(** X22. The format check of the command line is weaker than validation:
    every string [validateIsin] accepts passes [validateIsinFormat], which
    accepts exactly two uppercase letters, nine characters over [0-9A-Z] and
    a digit, whatever that digit is. *)
Theorem validateIsinFormat_weaker_than_validateIsin :
  forall s : jsstring,
    (valid (validateIsin s) = true -> validateIsinFormat s = inr true) /\
    (validateIsinFormat s = inr true <->
     List.length s = 12%nat /\
     is_upper (nth 0 s 0) && is_upper (nth 1 s 0) = true /\
     forallb validChar (firstn 9 (skipn 2 s)) = true /\
     is_digit (nth 11 s 0) = true).
Proof.
  intros s. split; [|apply validateIsinFormat_iff].
  apply validateIsin_passes_format.
Qed.

Lemma validateIsinFormat_weaker_than_validateIsin_witness :
  validateIsinFormat (js "GB0002374006") = inr true /\
  validateIsinFormat (js "US0378331006") = inr true.
Proof.
  split.
  - apply (proj1 (validateIsinFormat_weaker_than_validateIsin
                    (js "GB0002374006"))). reflexivity.
  - apply (proj2 (validateIsinFormat_weaker_than_validateIsin
                    (js "US0378331006"))). repeat split; reflexivity.
Defined.

Lemma validateCusipFormat_iff (c : jsstring) :
  validateCusipFormat c = inr true <->
  List.length c = 9%nat /\ forallb validChar (firstn 8 c) = true /\
  forallb is_digit (skipn 8 c) = true.
Proof.
  unfold validateCusipFormat.
  destruct (Nat.eq_dec (List.length c) 9) as [H | H].
  - length_guard H. cbn [negb]. unfold cusipShape.
    rewrite (proj2 (Nat.eqb_eq _ _) H). cbn [andb].
    destruct (forallb validChar (firstn 8 c)); cbn [andb].
    + destruct (forallb is_digit (skipn 8 c)); cbn [negb].
      * tauto.
      * split; [discriminate | intros (_ & _ & E); discriminate E].
    + split; [discriminate | intros (_ & E & _); discriminate E].
  - length_guard H. cbn [negb]. split; [discriminate | tauto].
Qed.

Lemma validateIsin_completed base :
  List.length base = 11%nat -> forallb validChar base = true ->
  is_upper (nth 0 base 0) && is_upper (nth 1 base 0) = true ->
  validateIsin (base ++ [48 + spec_checkDigit base]) = mkResult true None.
Proof.
  intros Hlen Hv Hup.
  pose proof (spec_checkDigit_range base) as Hr.
  rewrite validateIsin_well_formed_base.
  - rewrite (firstn_app_exact base _ 11 Hlen), (nth_app_exact base _ 0 11 Hlen).
    replace (48 + spec_checkDigit base - 48) with (spec_checkDigit base) by lia.
    rewrite Z.eqb_refl. reflexivity.
  - rewrite length_app, Hlen. reflexivity.
  - rewrite !app_nth1 by lia. exact Hup.
  - rewrite (nth_app_exact base _ 0 11 Hlen). apply is_digit_range. lia.
  - rewrite (firstn_app_exact base _ 11 Hlen). exact Hv.
Qed.

(** X23. A CUSIP that passes [validateCusipFormat] is one [cusipToIsin]
    converts: the conversion returns an ISIN that [validateIsin] accepts,
    that passes [validateIsinFormat], and whose characters 2 to 10 are the
    CUSIP as given. *)
Theorem validateCusipFormat_then_cusipToIsin :
  forall cusip : jsstring,
    validateCusipFormat cusip = inr true ->
    exists isin,
      cusipToIsin cusip = inr isin /\
      validateIsin isin = mkResult true None /\
      validateIsinFormat isin = inr true /\
      JsText.substring isin 2 11 = cusip.
Proof.
  intros cusip H. apply validateCusipFormat_iff in H.
  destruct H as (Hlen & H8 & Hd).
  assert (Hv : forallb validChar cusip = true).
  { rewrite <- (firstn_skipn 8 cusip), forallb_app, H8. cbn [andb].
    rewrite forallb_forall in Hd |- *. intros x Hx.
    unfold validChar. rewrite (Hd x Hx). reflexivity. }
  pose proof (validChar_alnumChar cusip Hv) as Ha.
  set (base := js "US" ++ cusip).
  assert (Hb : List.length base = 11%nat)
    by (unfold base; rewrite length_app, Hlen; reflexivity).
  assert (Hbv : forallb validChar base = true)
    by (unfold base; rewrite forallb_app, Hv; reflexivity).
  assert (Hval : validateIsin (base ++ [48 + spec_checkDigit base]) =
                 mkResult true None)
    by (apply validateIsin_completed; [exact Hb | exact Hbv | reflexivity]).
  exists (base ++ [48 + spec_checkDigit base]).
  split.
  - rewrite (cusipToIsin_value cusip Hlen Ha), (toUpperCase_fixed cusip Hv).
    reflexivity.
  - split; [exact Hval|]. split.
    + apply validateIsin_passes_format.
      rewrite Hval. reflexivity.
    + rewrite substring_2_11 by (rewrite length_app, Hb; reflexivity).
      unfold base. rewrite <- app_assoc. change (js "US") with [85; 83].
      cbn [app skipn]. apply firstn_app_exact. exact Hlen.
Qed.

Lemma validateCusipFormat_then_cusipToIsin_witness :
  exists isin,
    cusipToIsin (js "88160R101") = inr isin /\
    validateIsin isin = mkResult true None /\
    validateIsinFormat isin = inr true /\
    JsText.substring isin 2 11 = js "88160R101".
Proof.
  apply (validateCusipFormat_then_cusipToIsin (js "88160R101")). reflexivity.
Defined.

End CliFormats.

(** ** [cli.ts]: [parseDesignator] *)

Section CliParse.
Import Isin Cli JsText.

Lemma indexOfFrom_first ch t v i :
  ~ In ch t -> indexOfFrom ch (t ++ ch :: v) i = i + Z.of_nat (List.length t).
Proof.
  revert i. induction t as [|c t IH]; intros i Hn.
  - cbn [app indexOfFrom List.length Z.of_nat]. rewrite Z.eqb_refl. lia.
  - cbn [app indexOfFrom List.length].
    destruct (Z.eqb_spec c ch) as [E | E].
    + exfalso. apply Hn. left. exact E.
    + rewrite IH by (intros H; apply Hn; right; exact H). lia.
Qed.

Lemma indexOfFrom_absent ch s i : ~ In ch s -> indexOfFrom ch s i = -1.
Proof.
  revert i. induction s as [|c s IH]; intros i Hn; [reflexivity|].
  cbn [indexOfFrom]. destruct (Z.eqb_spec c ch) as [E | E].
  - exfalso. apply Hn. left. exact E.
  - apply IH. intros H. apply Hn. right. exact H.
Qed.

(** The first occurrence of a character that occurs. *)
Lemma first_occurrence (ch : Z) (s : jsstring) :
  In ch s -> exists t v, s = t ++ ch :: v /\ ~ In ch t.
Proof.
  induction s as [|c s IH]; intros H; [contradiction|].
  destruct (Z.eq_dec c ch) as [-> | Hne].
  - exists [], s. split; [reflexivity | intros []].
  - destruct H as [H | H]; [contradiction|].
    destruct (IH H) as (t & v & -> & Hn).
    exists (c :: t), v. split; [reflexivity|].
    intros [E | E]; [contradiction | exact (Hn E)].
Qed.

Lemma substring_prefix (t v : jsstring) :
  substring (t ++ v) 0 (Z.of_nat (List.length t)) = t.
Proof.
  unfold substring, JsString.length. rewrite length_app.
  replace (Z.max 0 (Z.min 0 _)) with 0 by lia.
  replace (Z.max 0 (Z.min (Z.of_nat (List.length t)) _))
    with (Z.of_nat (List.length t)) by lia.
  replace (Z.min 0 (Z.of_nat (List.length t))) with 0 by lia.
  replace (Z.max 0 (Z.of_nat (List.length t))) with (Z.of_nat (List.length t))
    by lia.
  rewrite Z.sub_0_r, Nat2Z.id. cbn [Z.to_nat skipn].
  apply firstn_app_exact. reflexivity.
Qed.

Lemma substringFrom_suffix (t v : jsstring) :
  substringFrom (t ++ v) (Z.of_nat (List.length t)) = v.
Proof.
  unfold substringFrom, substring, JsString.length. rewrite length_app.
  set (a := List.length t). set (b := List.length v).
  replace (Z.max 0 (Z.min (Z.of_nat a) (Z.of_nat (a + b)))) with (Z.of_nat a)
    by lia.
  replace (Z.max 0 (Z.min (Z.of_nat (a + b)) (Z.of_nat (a + b))))
    with (Z.of_nat (a + b)) by lia.
  replace (Z.min (Z.of_nat a) (Z.of_nat (a + b))) with (Z.of_nat a) by lia.
  replace (Z.max (Z.of_nat a) (Z.of_nat (a + b))) with (Z.of_nat (a + b)) by lia.
  replace (Z.of_nat (a + b) - Z.of_nat a) with (Z.of_nat b) by lia.
  rewrite !Nat2Z.id. unfold a. rewrite skipn_app, skipn_all, Nat.sub_diag.
  cbn [app skipn]. apply firstn_all.
Qed.

Lemma arrayIncludes_In (a : list jsstring) x :
  arrayIncludes a x = true <-> In x a.
Proof.
  unfold arrayIncludes. rewrite existsb_exists. split.
  - intros (y & Hy & E). apply jsstring_eqb_eq in E. subst. exact Hy.
  - intros H. exists x. split; [exact H | apply jsstring_eqb_refl].
Qed.

Lemma eqb_nil (s : jsstring) : JsString.eqb s [] = true <-> s = [].
Proof. apply jsstring_eqb_eq. Qed.

Section WithCaseMapping.
Variables toLowerCase toUpperCase : jsstring -> jsstring.

(** [parseDesignator] on a string whose trimmed form has its first colon
    after [t]. *)
Lemma parseDesignator_split input t v :
  trim input = t ++ 58 :: v -> ~ In 58 t ->
  parseDesignator toLowerCase toUpperCase input =
  let type := toLowerCase (trim t) in
  let value := trim v in
  if JsString.eqb type [] then
    throws (js "Invalid designator format: " ++ quoted input ++
            js ". Type is empty.")
  else if JsString.eqb value [] then
    throws (js "Invalid designator format: " ++ quoted input ++
            js ". Value is empty.")
  else if negb (arrayIncludes validTypes type) then
    throws (js "Unknown designator type: " ++ quoted type ++
            js ". Supported types: ticker, isin, cusip")
  else inr (mkDesignator type (toUpperCase value)).
Proof.
  intros Hsplit Hn. unfold parseDesignator. rewrite Hsplit.
  unfold indexOf. rewrite (indexOfFrom_first 58 t v 0 Hn).
  replace (0 + Z.of_nat (List.length t) =? -1) with false
    by (symmetry; apply Z.eqb_neq; lia).
  cbv zeta. rewrite Z.add_0_l.
  rewrite substring_prefix.
  replace (t ++ 58 :: v) with ((t ++ [58]) ++ v)
    by (rewrite <- app_assoc; reflexivity).
  replace (Z.of_nat (List.length t) + 1)
    with (Z.of_nat (List.length (t ++ [58])))
    by (rewrite length_app; simpl; lia).
  rewrite substringFrom_suffix. reflexivity.
Qed.

(** X24. [parseDesignator] splits at the first colon of the trimmed input:
    what stands before it, trimmed and lower-cased, is the type, and
    everything after it, further colons included, trimmed and upper-cased,
    is the value.  It returns when both are non-empty and the type is one of
    ["ticker"], ["isin"], ["cusip"]. *)
Theorem parseDesignator_first_colon :
  forall input t v : jsstring,
    trim input = t ++ 58 :: v -> ~ In 58 t ->
    toLowerCase (trim t) <> [] -> trim v <> [] ->
    In (toLowerCase (trim t)) validTypes ->
    parseDesignator toLowerCase toUpperCase input =
    inr (mkDesignator (toLowerCase (trim t)) (toUpperCase (trim v))).
Proof.
  intros input t v Hsplit Hn Ht Hv Hin.
  rewrite (parseDesignator_split input t v Hsplit Hn). cbv zeta.
  rewrite (proj2 (jsstring_eqb_neq _ _) Ht), (proj2 (jsstring_eqb_neq _ _) Hv).
  rewrite (proj2 (arrayIncludes_In _ _) Hin). reflexivity.
Qed.

(** X25. The failures of [parseDesignator], in the order they are checked:
    no colon; an empty type, also when the value is empty too; an empty
    value; a type outside the three, quoted lower-cased in the message. *)
Theorem parseDesignator_errors :
  forall input : jsstring,
    (~ In 58 (trim input) ->
     parseDesignator toLowerCase toUpperCase input =
     throws (js "Invalid designator format: " ++ quoted input ++
             js ". Expected format: {type}:{value} (e.g., ticker:AAPL)")) /\
    (forall t v,
        trim input = t ++ 58 :: v -> ~ In 58 t ->
        (toLowerCase (trim t) = [] ->
         parseDesignator toLowerCase toUpperCase input =
         throws (js "Invalid designator format: " ++ quoted input ++
                 js ". Type is empty.")) /\
        (toLowerCase (trim t) <> [] -> trim v = [] ->
         parseDesignator toLowerCase toUpperCase input =
         throws (js "Invalid designator format: " ++ quoted input ++
                 js ". Value is empty.")) /\
        (toLowerCase (trim t) <> [] -> trim v <> [] ->
         ~ In (toLowerCase (trim t)) validTypes ->
         parseDesignator toLowerCase toUpperCase input =
         throws (js "Unknown designator type: " ++
                 quoted (toLowerCase (trim t)) ++
                 js ". Supported types: ticker, isin, cusip"))).
Proof.
  intros input. split.
  - intros Hn. unfold parseDesignator, indexOf.
    rewrite (indexOfFrom_absent 58 _ 0 Hn). reflexivity.
  - intros t v Hsplit Hn.
    rewrite (parseDesignator_split input t v Hsplit Hn). cbv zeta.
    split; [|split].
    + intros ->. reflexivity.
    + intros Ht ->. rewrite (proj2 (jsstring_eqb_neq _ _) Ht). reflexivity.
    + intros Ht Hv Hin.
      rewrite (proj2 (jsstring_eqb_neq _ _) Ht),
        (proj2 (jsstring_eqb_neq _ _) Hv).
      replace (arrayIncludes validTypes (toLowerCase (trim t))) with false;
        [reflexivity|].
      symmetry. destruct (arrayIncludes _ _) eqn:E; [|reflexivity].
      apply arrayIncludes_In in E. contradiction.
Qed.

(** X26. A designator that [parseDesignator] returns has one of the three
    types, so [validateDesignator] runs the check of that type on its value
    and never reaches its unknown-type exception. *)
Theorem parsed_designator_is_dispatched :
  forall (input : jsstring) (d : Designator),
    parseDesignator toLowerCase toUpperCase input = inr d ->
    (type d = js "ticker" /\ validateDesignator d = validateTicker (value d)) \/
    (type d = js "isin" /\ validateDesignator d = validateIsinFormat (value d)) \/
    (type d = js "cusip" /\ validateDesignator d = validateCusipFormat (value d)).
Proof.
  intros input d H.
  assert (Hin : In (type d) validTypes).
  { destruct (in_dec Z.eq_dec 58 (trim input)) as [Hc | Hc].
    - destruct (first_occurrence 58 _ Hc) as (t & v & Hsplit & Hn).
      rewrite (parseDesignator_split input t v Hsplit Hn) in H. cbv zeta in H.
      destruct (JsString.eqb (toLowerCase (trim t)) []); [discriminate|].
      destruct (JsString.eqb (trim v) []); [discriminate|].
      destruct (arrayIncludes validTypes (toLowerCase (trim t))) eqn:E;
        [|discriminate].
      cbn [negb] in H. injection H as <-. cbn [type].
      apply arrayIncludes_In. exact E.
    - unfold parseDesignator, indexOf in H.
      rewrite (indexOfFrom_absent 58 _ 0 Hc) in H. discriminate H. }
  unfold validateDesignator.
  destruct Hin as [E | [E | [E | []]]]; rewrite <- E.
  - left. split; reflexivity.
  - right. left. split; reflexivity.
  - right. right. split; reflexivity.
Qed.

End WithCaseMapping.

Lemma parseDesignator_first_colon_witness :
  parseDesignator asciiLower JsString.toUpperCase (js "  Ticker : brk-b  ") =
  inr (mkDesignator (js "ticker") (js "BRK-B")).
Proof.
  apply (parseDesignator_first_colon asciiLower JsString.toUpperCase
           (js "  Ticker : brk-b  ") (js "Ticker ") (js " brk-b")).
  - reflexivity.
  - vm_compute. intuition discriminate.
  - vm_compute. discriminate.
  - vm_compute. discriminate.
  - left. reflexivity.
Defined.

Lemma parseDesignator_errors_witness :
  parseDesignator asciiLower JsString.toUpperCase (js "AAPL") =
  throws (js "Invalid designator format: " ++ quoted (js "AAPL") ++
          js ". Expected format: {type}:{value} (e.g., ticker:AAPL)") /\
  parseDesignator asciiLower JsString.toUpperCase (js ":") =
  throws (js "Invalid designator format: " ++ quoted (js ":") ++
          js ". Type is empty.").
Proof.
  split.
  - apply (parseDesignator_errors asciiLower JsString.toUpperCase (js "AAPL")).
    vm_compute. intuition discriminate.
  - apply (proj2 (parseDesignator_errors asciiLower JsString.toUpperCase
                    (js ":")) [] []).
    + reflexivity.
    + intros [].
    + reflexivity.
Defined.

Lemma parsed_designator_is_dispatched_witness :
  (type (mkDesignator (js "isin") (js "US0378331005")) = js "ticker" /\
   validateDesignator (mkDesignator (js "isin") (js "US0378331005")) =
   validateTicker (js "US0378331005")) \/
  (type (mkDesignator (js "isin") (js "US0378331005")) = js "isin" /\
   validateDesignator (mkDesignator (js "isin") (js "US0378331005")) =
   validateIsinFormat (js "US0378331005")) \/
  (type (mkDesignator (js "isin") (js "US0378331005")) = js "cusip" /\
   validateDesignator (mkDesignator (js "isin") (js "US0378331005")) =
   validateCusipFormat (js "US0378331005")).
Proof.
  apply (parsed_designator_is_dispatched asciiLower JsString.toUpperCase
           (js "isin:us0378331005")).
  reflexivity.
Defined.

End CliParse.

(** ** [cli.ts] with [isin.ts]: a CUSIP from the command line *)

Section CliCusip.
Import Isin Cli JsText.

Lemma trim_fixed (a z : Z) (m : jsstring) :
  is_space a = false -> is_space z = false ->
  trim (a :: m ++ [z]) = a :: m ++ [z].
Proof.
  intros Ha Hz. unfold trim.
  assert (E1 : dropWhile is_space (a :: m ++ [z]) = a :: m ++ [z])
    by (cbn [dropWhile]; rewrite Ha; reflexivity).
  assert (E2 : rev (a :: m ++ [z]) = z :: rev m ++ [a])
    by (cbn [rev]; rewrite rev_app_distr; reflexivity).
  rewrite E1, E2. cbn [dropWhile]. rewrite Hz, <- E2.
  apply rev_involutive.
Qed.

Lemma alnumChar_facts c :
  alnumChar c = true -> is_space c = false /\ (0 <=? c) && (c <? 128) = true.
Proof.
  unfold alnumChar. rewrite !orb_true_iff.
  rewrite is_upper_range, is_lower_range, is_digit_range. intros H.
  split.
  - unfold is_space. repeat (apply orb_false_iff; split);
      try (apply andb_false_iff);
      rewrite ?Z.leb_gt, ?Z.eqb_neq; lia.
  - apply andb_true_iff. rewrite Z.leb_le, Z.ltb_lt. lia.
Qed.

Lemma last_split (v : jsstring) (n : nat) :
  List.length v = S n -> v = firstn n v ++ [nth n v 0].
Proof.
  intros H. rewrite <- (firstn_skipn n v) at 1. f_equal.
  assert (L : List.length (skipn n v) = 1%nat) by (rewrite length_skipn; lia).
  rewrite <- (firstn_skipn n v) at 2.
  rewrite app_nth2 by (rewrite length_firstn; lia).
  rewrite length_firstn, H.
  replace (n - Nat.min n (S n))%nat with 0%nat by lia.
  destruct (skipn n v) as [|x [|y l]]; try discriminate L. reflexivity.
Qed.

(** X27. The CUSIP path of the command line, for a runtime whose case
    mapping does on ASCII what ASCII case mapping does: for every 9-character
    CUSIP of eight ASCII letters or digits in any case and a final digit,
    [parseDesignator] of ["cusip:" + cusip] returns type ["cusip"] with the
    CUSIP in upper case, [validateDesignator] accepts it, and [cusipToIsin]
    of that value returns an ISIN that [validateIsin] accepts, the same ISIN
    as for the CUSIP as typed. *)
Theorem cli_cusip_path :
  forall (toLowerCase toUpperCase : jsstring -> jsstring) (cusip : jsstring),
    asciiCaseMapping toLowerCase toUpperCase ->
    List.length cusip = 9%nat ->
    forallb alnumChar (firstn 8 cusip) = true ->
    is_digit (nth 8 cusip 0) = true ->
    exists isin,
      parseDesignator toLowerCase toUpperCase (js "cusip:" ++ cusip) =
      inr (mkDesignator (js "cusip") (JsString.toUpperCase cusip)) /\
      validateDesignator
        (mkDesignator (js "cusip") (JsString.toUpperCase cusip)) = inr true /\
      cusipToIsin (JsString.toUpperCase cusip) = inr isin /\
      cusipToIsin cusip = inr isin /\
      validateIsin isin = mkResult true None.
Proof.
  intros lower upper cusip Hcase Hlen H8 Hd.
  pose proof (last_split cusip 8 Hlen) as Hsplit.
  assert (Hz : alnumChar (nth 8 cusip 0) = true)
    by (unfold alnumChar; rewrite Hd; apply orb_true_r).
  assert (Haln : forallb alnumChar cusip = true).
  { rewrite Hsplit, forallb_app, H8. cbn [forallb]. rewrite Hz. reflexivity. }
  destruct (firstn 8 cusip) as [|a m] eqn:F8.
  { apply (f_equal (@List.length Z)) in F8. rewrite length_firstn, Hlen in F8.
    discriminate F8. }
  assert (Ha : alnumChar a = true)
    by (cbn [forallb] in H8; apply andb_true_iff in H8; tauto).
  assert (Htrim : trim cusip = cusip).
  { rewrite Hsplit. cbn [app]. apply trim_fixed.
    - apply (alnumChar_facts a Ha).
    - apply (alnumChar_facts _ Hz). }
  assert (Hascii : isAscii cusip = true).
  { unfold isAscii. rewrite forallb_forall in Haln |- *. intros c Hc.
    apply (alnumChar_facts c (Haln c Hc)). }
  pose proof (toUpperCase_valid cusip Haln) as Hv.
  pose proof (toUpperCase_length cusip) as Hl. rewrite Hlen in Hl.
  set (U := JsString.toUpperCase cusip) in *.
  set (base := js "US" ++ U).
  assert (Hb : List.length base = 11%nat)
    by (unfold base; rewrite length_app, Hl; reflexivity).
  assert (Hbv : forallb validChar base = true)
    by (unfold base; rewrite forallb_app, Hv; reflexivity).
  exists (base ++ [48 + spec_checkDigit base]).
  split; [|split; [|split; [|split]]].
  - assert (Ht : trim (js "cusip:" ++ cusip) = js "cusip" ++ 58 :: cusip).
    { change (js "cusip:" ++ cusip) with (99 :: js "usip:" ++ cusip).
      rewrite Hsplit at 1 2. rewrite app_assoc.
      apply trim_fixed; [reflexivity | apply (alnumChar_facts _ Hz)]. }
    rewrite (parseDesignator_split lower upper _ (js "cusip") cusip Ht).
    2:{ vm_compute. intuition discriminate. }
    cbv zeta. change (trim (js "cusip")) with (js "cusip").
    destruct (Hcase (js "cusip") eq_refl) as [-> _].
    rewrite Htrim. destruct (Hcase cusip Hascii) as [_ ->].
    change (JsString.eqb (asciiLower (js "cusip")) []) with false.
    replace (JsString.eqb cusip []) with false
      by (symmetry; apply jsstring_eqb_neq; intros E; rewrite E in Hlen;
          discriminate Hlen).
    change (arrayIncludes validTypes (asciiLower (js "cusip"))) with true.
    reflexivity.
  - unfold validateDesignator. cbn [type value].
    change (JsString.eqb (js "cusip") (js "ticker")) with false.
    change (JsString.eqb (js "cusip") (js "isin")) with false.
    change (JsString.eqb (js "cusip") (js "cusip")) with true. cbv iota.
    apply validateCusipFormat_iff. split; [exact Hl|].
    assert (HU : U = JsString.toUpperCase (a :: m) ++
                     [nth 8 cusip 0]).
    { unfold U. rewrite Hsplit at 1. unfold JsString.toUpperCase.
      rewrite map_app. cbn [map]. f_equal.
      apply is_digit_range in Hd.
      replace (is_lower (nth 8 cusip 0)) with false; [reflexivity|].
      symmetry. unfold is_lower. apply andb_false_iff. left.
      apply Z.leb_gt. lia. }
    assert (L8 : List.length (JsString.toUpperCase (a :: m)) = 8%nat).
    { rewrite toUpperCase_length, <- F8, length_firstn, Hlen. reflexivity. }
    rewrite HU. rewrite (firstn_app_exact _ _ 8 L8).
    rewrite skipn_app, skipn_all2 by lia. rewrite L8. cbn [Nat.sub skipn app].
    split; [apply toUpperCase_valid; exact H8|].
    cbn [forallb]. rewrite Hd. reflexivity.
  - rewrite (cusipToIsin_value U Hl (validChar_alnumChar U Hv)).
    rewrite (toUpperCase_fixed U Hv). reflexivity.
  - rewrite (cusipToIsin_value cusip Hlen Haln). reflexivity.
  - apply validateIsin_completed; [exact Hb | exact Hbv | reflexivity].
Qed.

Lemma cli_cusip_path_witness :
  exists isin,
    parseDesignator asciiLower JsString.toUpperCase (js "cusip:" ++ js "88160r101") =
    inr (mkDesignator (js "cusip") (JsString.toUpperCase (js "88160r101"))) /\
    validateDesignator
      (mkDesignator (js "cusip") (JsString.toUpperCase (js "88160r101"))) =
    inr true /\
    cusipToIsin (JsString.toUpperCase (js "88160r101")) = inr isin /\
    cusipToIsin (js "88160r101") = inr isin /\
    validateIsin isin = mkResult true None.
Proof.
  apply (cli_cusip_path asciiLower JsString.toUpperCase (js "88160r101")).
  - intros s _. split; reflexivity.
  - reflexivity.
  - reflexivity.
  - reflexivity.
Defined.

End CliCusip.

Lemma insertSecurity_never_deletes_witness :
  exists s',
    nth_error
      (Db.securities
         (fst (Db.insertSecurity
                 (fst (Db.insertSecurity Db.initDatabase (Db.apple (js "fmp")) 100))
                 (Db.apple (js "sec")) 200))) 0 = Some s' /\
    Db.id s' = 1 /\ Db.created_at s' = 100.
Proof.
  destruct (insertSecurity_never_deletes
              (fst (Db.insertSecurity Db.initDatabase (Db.apple (js "fmp")) 100))
              (Db.apple (js "sec")) 200) as (_ & H & _).
  destruct (H 0%nat
              (Db.mkSecurityRow 1 (js "Apple Inc.") None None 100 100) eq_refl)
    as (s' & E & I & C & _).
  exists s'. split; [exact E|]. split; [exact I | exact C].
Defined.
